(** * omzmini: the sync, backup and pin engine of omzmini.py

    A shallow embedding of [omzmini.py].  Python text is a list of Unicode
    code points, file contents are lists of bytes, the file system is a
    finite map from path strings to files together with a set of
    directories, and every observable action of the program (printing, log
    and ledger appends, network requests, file-system calls) is recorded in
    a chronological event trace.  Functions of the program are written in a
    state-and-exception monad over that world.

    What the operating system and the libraries do is modelled as follows.
    - Paths are the strings the program passes to the system, compared as
      strings: the file-system calls are exact for paths in normal form (no
      empty, [.] or [..] component, no symbolic link).  Two strings are two
      files, so a theorem that relates the destinations of several targets
      of one run assumes that the remote paths of the run are in normal
      form ([normal_targets]).  [Path.resolve] is a function of the
      environment.
    - Text files are decoded as UTF-8 with the [strict] handler.
    - The clock is read once per call of [datetime.now]; the environment
      gives the reading of each call.
    - The remote server is a function from URLs to bytes or to the message
      of the exception that [urlopen] raises.
    - [hashlib.sha256] is SHA-256, implemented below; a hash object is the
      bytes fed to it so far.
    - Permission and device errors are not modelled. *)

From Stdlib Require Import ZArith NArith List Ascii String Lia.
From Stdlib.Strings Require Import Byte.
From stdpp Require Import base option list gmap sets.
From Equations Require Import Equations.
Import ListNotations.

Local Open Scope N_scope.

(** ** Python text *)

(** A Python [str]: a sequence of Unicode code points. *)
Definition char : Type := N.
Definition str : Type := list N.

(** An ASCII literal as a Python [str]. *)
Definition u (s : string) : str := map N_of_ascii (list_ascii_of_string s).

(** The exceptions the program can meet on the modelled operations. *)
Inductive exn : Type :=
| IndexError
| UnicodeDecodeError
| IsADirectoryError (p : str)
| NotADirectoryError (p : str)
| FileNotFoundError (p : str)
| FileExistsError (p : str)
| ShutilError (p : str).

Inductive result (A : Type) : Type :=
| Ok (a : A)
| Raise (e : exn).
Arguments Ok {A} a.
Arguments Raise {A} e.

Definition rbind {A B} (r : result A) (k : A -> result B) : result B :=
  match r with
  | Ok a => k a
  | Raise e => Raise e
  end.

Module Py.

(** [str.isspace] on one code point (CPython's whitespace table). *)
Definition isspace (c : char) : bool :=
  ((9 <=? c) && (c <=? 13)) || ((28 <=? c) && (c <=? 32))
  || (c =? 0x85) || (c =? 0xA0) || (c =? 0x1680)
  || ((0x2000 <=? c) && (c <=? 0x200A))
  || (c =? 0x2028) || (c =? 0x2029) || (c =? 0x202F)
  || (c =? 0x205F) || (c =? 0x3000).

Fixpoint lstrip (s : str) : str :=
  match s with
  | c :: s' => if isspace c then lstrip s' else s
  | [] => []
  end.

Definition rstrip (s : str) : str := rev (lstrip (rev s)).

(** [s.strip()] *)
Definition strip (s : str) : str := rstrip (lstrip s).

(** [s.startswith(p)] *)
Fixpoint startswith (p s : str) : bool :=
  match p, s with
  | [], _ => true
  | a :: p', b :: s' => (a =? b) && startswith p' s'
  | _ :: _, [] => false
  end.

(** [s.endswith(p)] *)
Definition endswith (p s : str) : bool := startswith (rev p) (rev s).

(** [s.split(sep)] for a one-character separator: never empty. *)
Fixpoint split (sep : char) (s : str) : list str :=
  match s with
  | [] => [[]]
  | c :: s' =>
      if c =? sep then [] :: split sep s'
      else match split sep s' with
           | w :: ws => (c :: w) :: ws
           | [] => [[c]]
           end
  end.

(** [s.split(sep, 1)] for a one-character separator. *)
Fixpoint split1 (sep : char) (s : str) : list str :=
  match s with
  | [] => [[]]
  | c :: s' =>
      if c =? sep then [[]; s']
      else match split1 sep s' with
           | w :: ws => (c :: w) :: ws
           | [] => [[c]]
           end
  end.

(** [s.split()]: the maximal runs of non-whitespace characters. *)
Fixpoint split_ws_aux (cur : str) (s : str) : list str :=
  match s with
  | [] => match cur with [] => [] | _ => [rev cur] end
  | c :: s' =>
      if isspace c
      then match cur with
           | [] => split_ws_aux [] s'
           | _ => rev cur :: split_ws_aux [] s'
           end
      else split_ws_aux (c :: cur) s'
  end.

Definition split_ws (s : str) : list str := split_ws_aux [] s.

(** [l[i]] for a non-negative index. *)
Definition index {A} (l : list A) (i : nat) : result A :=
  match nth_error l i with
  | Some a => Ok a
  | None => Raise IndexError
  end.

(** Line boundaries of [str.splitlines] other than CR (which pairs with
    a following LF). *)
Definition is_linebreak (c : char) : bool :=
  (c =? 10) || (c =? 11) || (c =? 12) || (c =? 0x1C) || (c =? 0x1D)
  || (c =? 0x1E) || (c =? 0x85) || (c =? 0x2028) || (c =? 0x2029).

(** [s.splitlines()] *)
Fixpoint splitlines_aux (cur : str) (s : str) : list str :=
  match s with
  | [] => match cur with [] => [] | _ => [rev cur] end
  | c :: s' =>
      if c =? 13 then
        match s' with
        | 10 :: s'' => rev cur :: splitlines_aux [] s''
        | _ => rev cur :: splitlines_aux [] s'
        end
      else if is_linebreak c then rev cur :: splitlines_aux [] s'
      else splitlines_aux (c :: cur) s'
  end.

Definition splitlines (s : str) : list str := splitlines_aux [] s.

(** Universal-newline translation of a text-mode read: CR LF and a lone
    CR both become LF. *)
Fixpoint translate_newlines (s : str) : str :=
  match s with
  | [] => []
  | c :: s' =>
      if c =? 13 then
        match s' with
        | 10 :: s'' => 10 :: translate_newlines s''
        | _ => 10 :: translate_newlines s'
        end
      else c :: translate_newlines s'
  end.

(** The lines a text file object yields when iterated: each keeps its
    terminating LF. *)
Fixpoint iter_lines_aux (cur : str) (s : str) : list str :=
  match s with
  | [] => match cur with [] => [] | _ => [rev cur] end
  | c :: s' =>
      if c =? 10 then rev (c :: cur) :: iter_lines_aux [] s'
      else iter_lines_aux (c :: cur) s'
  end.

Definition iter_lines (s : str) : list str := iter_lines_aux [] s.

End Py.

(** ** Bytes and their decoding *)

Definition bytes : Type := list byte.

(** An ASCII literal as a Python [bytes] value. *)
Definition b (s : string) : bytes := list_byte_of_string s.

Module Utf8.

Inductive step : Type :=
| Scalar (c : char) (used : nat)
| Malformed (span : nat).

Definition cont (x : N) : bool := (0x80 <=? x) && (x <=? 0xBF).

(** One step of CPython's UTF-8 decoder at lead byte [b0]: either a code
    point and the number of bytes it took, or the length of the
    malformed span the error handler is given. *)
Definition decode_one (b0 : N) (rest : list N) : step :=
  if b0 <? 0x80 then Scalar b0 1
  else if b0 <? 0xC2 then Malformed 1
  else if b0 <? 0xE0 then
    match rest with
    | [] => Malformed 1
    | b1 :: _ =>
        if cont b1 then Scalar ((b0 - 0xC0) * 64 + (b1 - 0x80)) 2
        else Malformed 1
    end
  else if b0 <? 0xF0 then
    match rest with
    | [] => Malformed 1
    | b1 :: rest1 =>
        if negb (cont b1) || (if b1 <? 0xA0 then b0 =? 0xE0 else b0 =? 0xED)
        then Malformed 1
        else match rest1 with
             | [] => Malformed 2
             | b2 :: _ =>
                 if cont b2
                 then Scalar ((b0 - 0xE0) * 4096 + (b1 - 0x80) * 64 + (b2 - 0x80)) 3
                 else Malformed 2
             end
    end
  else if b0 <? 0xF5 then
    match rest with
    | [] => Malformed 1
    | b1 :: rest1 =>
        if negb (cont b1) || (if b1 <? 0x90 then b0 =? 0xF0 else b0 =? 0xF4)
        then Malformed 1
        else match rest1 with
             | [] => Malformed 2
             | b2 :: rest2 =>
                 if negb (cont b2) then Malformed 2
                 else match rest2 with
                      | [] => Malformed 3
                      | b3 :: _ =>
                          if cont b3
                          then Scalar ((b0 - 0xF0) * 262144 + (b1 - 0x80) * 4096
                                       + (b2 - 0x80) * 64 + (b3 - 0x80)) 4
                          else Malformed 3
                      end
             end
    end
  else Malformed 1.

(** The decoding loop; [ignore] is [errors="ignore"], otherwise the
    handler is [strict].  [fuel] bounds the number of steps. *)
Fixpoint decode_loop (ignore : bool) (fuel : nat) (bs : list N) : result str :=
  match fuel, bs with
  | _, [] => Ok []
  | O, _ :: _ => Ok []
  | S fuel', b0 :: rest =>
      match decode_one b0 rest with
      | Scalar c used =>
          rbind (decode_loop ignore fuel' (drop (pred used) rest))
                (fun cs => Ok (c :: cs))
      | Malformed span =>
          if ignore then decode_loop ignore fuel' (drop (pred span) rest)
          else Raise UnicodeDecodeError
      end
  end.

(** [data.decode()] *)
Definition decode (data : bytes) : result str :=
  decode_loop false (length data) (map Byte.to_N data).

(** [data.decode(errors="ignore")] *)
Definition decode_ignore (data : bytes) : str :=
  match decode_loop true (length data) (map Byte.to_N data) with
  | Ok s => s
  | Raise _ => []
  end.

End Utf8.

(** ** POSIX path strings ([posixpath]) *)

Module Path.

Definition sep : char := 47.

(** [os.path.join(a, b)] *)
Definition join (a b0 : str) : str :=
  if Py.startswith [sep] b0 then b0
  else if (match a with [] => true | _ => false end) || Py.endswith [sep] a
       then a ++ b0
       else a ++ [sep] ++ b0.

(** Split after the last separator: [(p[:i], p[i:])] with
    [i = p.rfind("/") + 1]. *)
Fixpoint rsplit_sep (p : str) : str * str :=
  match p with
  | [] => ([], [])
  | c :: p' =>
      let '(h, t) := rsplit_sep p' in
      match h with
      | [] => if c =? sep then ([c], t) else ([], c :: t)
      | _ => (c :: h, t)
      end
  end.

Fixpoint rstrip_sep_rev (r : str) : str :=
  match r with
  | c :: r' => if c =? sep then rstrip_sep_rev r' else r
  | [] => []
  end.

(** [p.rstrip("/")] *)
Definition rstrip_sep (p : str) : str := rev (rstrip_sep_rev (rev p)).

(** [head.rstrip("/")] unless [head] is made of separators only. *)
Definition trim_head (h : str) : str :=
  match rstrip_sep_rev (rev h) with
  | [] => h
  | r => rev r
  end.

(** [os.path.split(p)] *)
Definition split (p : str) : str * str :=
  let '(h, t) := rsplit_sep p in (trim_head h, t).

(** [os.path.dirname(p)] *)
Definition dirname (p : str) : str := fst (split p).

(** [os.path.basename(p)] *)
Definition basename (p : str) : str := snd (rsplit_sep p).

End Path.

(** ** SHA-256 (FIPS 180-4), the algorithm behind [hashlib.sha256] *)

Module Sha256.

Local Open Scope Z_scope.

(** Words are 32-bit integers; arithmetic wraps modulo 2^32. *)
Definition wrap (x : Z) : Z := x mod 4294967296.
Definition add32 (x y : Z) : Z := wrap (x + y).
Definition rotr (n x : Z) : Z :=
  Z.lor (Z.shiftr x n) (wrap (Z.shiftl x (32 - n))).
Definition not32 (x : Z) : Z := Z.lxor x 4294967295.
Definition xor3 (x y z : Z) : Z := Z.lxor (Z.lxor x y) z.

Definition Ch (x y z : Z) : Z := Z.lxor (Z.land x y) (Z.land (not32 x) z).
Definition Maj (x y z : Z) : Z :=
  xor3 (Z.land x y) (Z.land x z) (Z.land y z).
Definition BigSigma0 (x : Z) : Z := xor3 (rotr 2 x) (rotr 13 x) (rotr 22 x).
Definition BigSigma1 (x : Z) : Z := xor3 (rotr 6 x) (rotr 11 x) (rotr 25 x).
Definition SmallSigma0 (x : Z) : Z := xor3 (rotr 7 x) (rotr 18 x) (Z.shiftr x 3).
Definition SmallSigma1 (x : Z) : Z := xor3 (rotr 17 x) (rotr 19 x) (Z.shiftr x 10).

(** The first 32 bits of the fractional parts of the cube roots of the
    first 64 primes, in decimal. *)
Definition round_constants : list Z :=
  [
   1116352408; 1899447441; 3049323471; 3921009573; 961987163; 1508970993;
   2453635748; 2870763221; 3624381080; 310598401; 607225278; 1426881987;
   1925078388; 2162078206; 2614888103; 3248222580; 3835390401; 4022224774;
   264347078; 604807628; 770255983; 1249150122; 1555081692; 1996064986;
   2554220882; 2821834349; 2952996808; 3210313671; 3336571891; 3584528711;
   113926993; 338241895; 666307205; 773529912; 1294757372; 1396182291;
   1695183700; 1986661051; 2177026350; 2456956037; 2730485921; 2820302411;
   3259730800; 3345764771; 3516065817; 3600352804; 4094571909; 275423344;
   430227734; 506948616; 659060556; 883997877; 958139571; 1322822218;
   1537002063; 1747873779; 1955562222; 2024104815; 2227730452; 2361852424;
   2428436474; 2756734187; 3204031479; 3329325298
  ].

Record regs : Type :=
  Regs { ra : Z; rb : Z; rc : Z; rd : Z; re : Z; rf : Z; rg : Z; rh : Z }.

(** The first 32 bits of the fractional parts of the square roots of the
    first 8 primes. *)
Definition initial : regs :=
  Regs 1779033703 3144134277 1013904242 2773480762
       1359893119 2600822924 528734635 1541459225.

(** The message schedule, kept most recent word first. *)
Fixpoint extend (n : nat) (w : list Z) : list Z :=
  match n with
  | O => w
  | S n' =>
      let x := add32 (add32 (SmallSigma1 (nth 1 w 0)) (nth 6 w 0))
                     (add32 (SmallSigma0 (nth 14 w 0)) (nth 15 w 0)) in
      extend n' (x :: w)
  end.

Definition schedule (block_words : list Z) : list Z :=
  rev (extend 48 (rev block_words)).

Definition round (s : regs) (kw : Z * Z) : regs :=
  let t1 := add32 (add32 (add32 (rh s) (BigSigma1 (re s)))
                         (add32 (Ch (re s) (rf s) (rg s)) (fst kw))) (snd kw) in
  let t2 := add32 (BigSigma0 (ra s)) (Maj (ra s) (rb s) (rc s)) in
  Regs (add32 t1 t2) (ra s) (rb s) (rc s) (add32 (rd s) t1) (re s) (rf s) (rg s).

Definition add_regs (s t : regs) : regs :=
  Regs (add32 (ra s) (ra t)) (add32 (rb s) (rb t)) (add32 (rc s) (rc t))
       (add32 (rd s) (rd t)) (add32 (re s) (re t)) (add32 (rf s) (rf t))
       (add32 (rg s) (rg t)) (add32 (rh s) (rh t)).

(** Big-endian words of a block of bytes. *)
Fixpoint be_words (n : nat) (l : list Z) : list Z :=
  match n with
  | O => []
  | S n' =>
      match l with
      | b0 :: b1 :: b2 :: b3 :: l' =>
          (b0 * 16777216 + b1 * 65536 + b2 * 256 + b3) :: be_words n' l'
      | _ => []
      end
  end.

Definition compress (s : regs) (block : list Z) : regs :=
  let w := schedule (be_words 16 block) in
  add_regs s (fold_left round (combine round_constants w) s).

(** Big-endian rendering of [x] on [n] bytes. *)
Fixpoint be_bytes (n : nat) (x : Z) : list Z :=
  match n with
  | O => []
  | S n' => be_bytes n' (x / 256) ++ [x mod 256]
  end.

(** Padding: a one bit, zeros up to 56 modulo 64, the bit length on 8
    bytes. *)
Definition pad (msg : list Z) : list Z :=
  let len := Z.of_nat (length msg) in
  msg ++ [128] ++ repeat 0 (Z.to_nat ((55 - len) mod 64)) ++ be_bytes 8 (8 * len).

Fixpoint blocks (fuel : nat) (l : list Z) : list (list Z) :=
  match fuel, l with
  | S fuel', _ :: _ => take 64 l :: blocks fuel' (drop 64 l)
  | _, _ => []
  end.

Definition digest_regs (msg : bytes) : regs :=
  let padded := pad (map (fun x => Z.of_N (Byte.to_N x)) msg) in
  fold_left compress (blocks (length padded) padded) initial.

Definition hex_digit (d : Z) : char :=
  Z.to_N (if d <? 10 then 48 + d else 87 + d).

(** The eight lower-case hexadecimal digits of a word. *)
Definition hex_word (x : Z) : str :=
  map (fun i => hex_digit (Z.land (Z.shiftr x (4 * i)) 15)) [7; 6; 5; 4; 3; 2; 1; 0].

(** [hashlib.sha256(msg).hexdigest()] *)
Definition hexdigest (msg : bytes) : str :=
  let s := digest_regs msg in
  hex_word (ra s) ++ hex_word (rb s) ++ hex_word (rc s) ++ hex_word (rd s)
  ++ hex_word (re s) ++ hex_word (rf s) ++ hex_word (rg s) ++ hex_word (rh s).

End Sha256.

(** The hash object of [hashlib]: by the library's contract, feeding [a]
    and then [b] is feeding [a + b], so the object is the bytes fed so far. *)
Record hashobj : Type := HashObj { fed : bytes }.

Definition hash_new : hashobj := HashObj [].
Definition hash_update (h : hashobj) (chunk : bytes) : hashobj :=
  HashObj (fed h ++ chunk).
Definition hash_hexdigest (h : hashobj) : str := Sha256.hexdigest (fed h).

(** ** Dates and [strftime] *)

Record datetime : Type :=
  DateTime { year : N; month : N; day : N; hour : N; minute : N; second : N }.

Fixpoint decimal_aux (fuel : nat) (n : N) (acc : str) : str :=
  match fuel with
  | O => acc
  | S fuel' =>
      let acc' := (48 + n mod 10) :: acc in
      if n <? 10 then acc' else decimal_aux fuel' (n / 10) acc'
  end.

(** The decimal digits of [n]. *)
Definition decimal (n : N) : str := decimal_aux (S (N.to_nat (N.log2 n))) n [].

(** Left padding with zeros up to [width] characters. *)
Definition zfill (width : nat) (s : str) : str :=
  repeat 48 (width - length s)%nat ++ s.

Definition fmt_Y (d : datetime) : str := zfill 4 (decimal (year d)).
Definition fmt_2 (n : N) : str := zfill 2 (decimal n).

(** [strftime("%Y-%m-%d %H:%M:%S")] *)
Definition strftime_log (d : datetime) : str :=
  fmt_Y d ++ u "-" ++ fmt_2 (month d) ++ u "-" ++ fmt_2 (day d) ++ u " "
  ++ fmt_2 (hour d) ++ u ":" ++ fmt_2 (minute d) ++ u ":" ++ fmt_2 (second d).

(** [strftime("%Y%m%d%H%M%S")] *)
Definition strftime_stamp (d : datetime) : str :=
  fmt_Y d ++ fmt_2 (month d) ++ fmt_2 (day d)
  ++ fmt_2 (hour d) ++ fmt_2 (minute d) ++ fmt_2 (second d).

(** ** The world: file system, clock and event trace *)

Record file : Type := File { data : bytes; mode : N }.

(** Observable actions, in the order they happen.  File-system events are
    recorded only when the call changes the file system. *)
Inductive event : Type :=
| Print (text : str)
| LogAppend (text : str)
| HashAppend (text : str)
| UrlOpen (url : str)
| Mkdir (d : str)
| Rename (src dst : str)
| WriteBytes (p : str) (content : bytes)
| CopyFile (src dst : str)
| Chmod (p : str) (m : N).

Record World : Type :=
  MkWorld { files : gmap (list N) file;
            dirs : gset (list N);
            ticks : nat;
            trace : list event }.

(** What the program does not decide: the home directory, the clock (one
    reading per call of [datetime.now]), the remote server ([inl] is the
    message of the exception [urlopen] raised), path resolution
    ([Path.resolve]), [difflib.unified_diff] and the process umask. *)
Record Env : Type :=
  MkEnv { HOME : str;
          clock : nat -> datetime;
          urlopen : str -> str + bytes;
          resolve : str -> str;
          unified_diff : list str -> list str -> str -> str -> list str;
          umask : N }.

Definition M (A : Type) : Type := World -> result A * World.

Definition ret {A} (a : A) : M A := fun w => (Ok a, w).
Definition raise {A} (e : exn) : M A := fun w => (Raise e, w).
Definition bind {A B} (m : M A) (k : A -> M B) : M B :=
  fun w => match m w with
           | (Ok a, w') => k a w'
           | (Raise e, w') => (Raise e, w')
           end.
Definition lift {A} (r : result A) : M A := fun w => (r, w).

Declare Scope prog_scope.
Delimit Scope prog_scope with prog.
Notation "x <- m ;; k" := (bind m (fun x => k))
  (at level 100, m at next level, right associativity) : prog_scope.
Notation "m ;; k" := (bind m (fun _ => k))
  (at level 100, right associativity) : prog_scope.
Local Open Scope prog_scope.

Definition emit (e : event) : M unit :=
  fun w => (Ok tt, MkWorld (files w) (dirs w) (ticks w) (trace w ++ [e])).

(** [for x in l: body(x)] *)
Fixpoint for_each {A} (l : list A) (body : A -> M unit) : M unit :=
  match l with
  | [] => ret tt
  | x :: l' => body x ;; for_each l' body
  end.

(** [datetime.datetime.now()] *)
Definition now (env : Env) : M datetime :=
  fun w => (Ok (clock env (ticks w)),
            MkWorld (files w) (dirs w) (S (ticks w)) (trace w)).

(** [print(text)] *)
Definition print (text : str) : M unit := emit (Print text).

(** *** File-system calls *)

Definition nonempty {A} (l : list A) : bool :=
  match l with [] => false | _ => true end.

Definition is_root (p : str) : bool :=
  nonempty p && forallb (N.eqb Path.sep) p.

Definition isfile (w : World) (p : str) : bool :=
  bool_decide (is_Some (files w !! p)).

(** [os.path.isdir(p)] *)
Definition isdir (w : World) (p : str) : bool :=
  is_root p || bool_decide (p ∈ dirs w).

(** [os.path.exists(p)] *)
Definition path_exists (w : World) (p : str) : bool := isdir w p || isfile w p.

(** The directory that has to exist for an entry [p] to be created; the
    empty directory name is the current directory. *)
Definition parent_ok (w : World) (p : str) : bool :=
  negb (nonempty (Path.dirname p)) || isdir w (Path.dirname p).

(** The proper prefixes of [p] that end before a separator. *)
Fixpoint ancestors_aux (seen : str) (p : str) : list str :=
  match p with
  | [] => []
  | c :: p' =>
      if (c =? Path.sep) && nonempty seen
      then rev seen :: ancestors_aux (c :: seen) p'
      else ancestors_aux (c :: seen) p'
  end.

Definition ancestors (p : str) : list str := ancestors_aux [] p.

(** The error of a system call on a path that is not there: [ENOTDIR] when
    a regular file stands where a directory of the path should be, [ENOENT]
    otherwise. *)
Definition missing (w : World) (p : str) : exn :=
  if existsb (isfile w) (ancestors p) then NotADirectoryError p
  else FileNotFoundError p.

(** [os.mkdir(p)] *)
Definition mkdir (p : str) : M unit :=
  fun w =>
    if negb (nonempty p) then (Raise (FileNotFoundError p), w)
    else if path_exists w p then (Raise (FileExistsError p), w)
    else if parent_ok w p
         then (Ok tt, MkWorld (files w) ({[p]} ∪ dirs w) (ticks w) (trace w ++ [Mkdir p]))
         else (Raise (missing w p), w).

(** [try: mkdir(name) except OSError: if not path.isdir(name): raise] *)
Definition mkdir_exist_ok (name : str) : M unit :=
  fun w => match mkdir name w with
           | (Raise e, w') => if isdir w' name then (Ok tt, w') else (Raise e, w')
           | r => r
           end.

(** [try: m except FileExistsError: pass] *)
Definition pass_file_exists (m : M unit) : M unit :=
  fun w => match m w with
           | (Raise (FileExistsError _), w') => (Ok tt, w')
           | r => r
           end.

(** The head and tail [os.makedirs] works with: [path.split(name)], split
    once more when the tail is empty. *)
Definition makedirs_split (name : str) : str * str :=
  match Path.split name with
  | (hd, []) => Path.split hd
  | ht => ht
  end.

Definition inspect {A} (a : A) : {x : A | a = x} := exist _ a eq_refl.

(** [os.makedirs(name, exist_ok=True)] *)
Equations? makedirs (name : str) : M unit by wf (length name) lt :=
  makedirs name with inspect (makedirs_split name) := {
    | exist _ (hd, []) _ := mkdir_exist_ok name;
    | exist _ (hd, c :: tl) E :=
        fun w =>
          if nonempty hd && negb (path_exists w hd)
          then (pass_file_exists (makedirs hd) ;;
                if bool_decide (c :: tl = u ".") then ret tt
                else mkdir_exist_ok name) w
          else mkdir_exist_ok name w }.
Proof.
  assert (Hcat : forall p h t, Path.rsplit_sep p = (h, t) -> h ++ t = p).
  { induction p as [|x p IH]; intros h t Hs; simpl in Hs.
    - by inversion Hs.
    - destruct (Path.rsplit_sep p) as [h' t'] eqn:Hp.
      specialize (IH _ _ eq_refl).
      destruct h'; [destruct (x =? Path.sep)|]; inversion Hs; subst; simpl in *; congruence. }
  assert (Htrim : forall h, (length (Path.trim_head h) <= length h)%nat).
  { intros h. unfold Path.trim_head.
    assert (Hr : forall r, (length (Path.rstrip_sep_rev r) <= length r)%nat).
    { induction r as [|x r IH]; simpl; [lia|]. destruct (x =? Path.sep); simpl; lia. }
    specialize (Hr (rev h)). destruct (Path.rstrip_sep_rev (rev h)) eqn:Hs; [lia|].
    rewrite length_rev. rewrite length_rev in Hr. exact Hr. }
  assert (Hsplit : forall p h t, Path.split p = (h, t) ->
                                 (length h + length t <= length p)%nat).
  { intros p h t Hs. unfold Path.split in Hs.
    destruct (Path.rsplit_sep p) as [h' t'] eqn:Hp. inversion Hs; subst.
    apply Hcat in Hp. subst p. rewrite length_app. specialize (Htrim h'). lia. }
  unfold makedirs_split in E.
  destruct (Path.split name) as [h1 t1] eqn:H1.
  apply Hsplit in H1.
  destruct t1.
  - destruct (Path.split h1) as [h2 t2] eqn:H2. apply Hsplit in H2.
    inversion E; subst. simpl in *. lia.
  - inversion E; subst. simpl in *. lia.
Qed.

(** [f.read(n)] on a binary file object, as the bytes returned and the
    bytes left. *)
Definition file_read (n : nat) (f : bytes) : bytes * bytes := (take n f, drop n f).

(** [while chunk := f.read(size): h.update(chunk)] *)
Equations? hash_chunks (size : nat) (h : hashobj) (f : bytes) : hashobj
    by wf (length f) lt :=
  hash_chunks size h f with inspect (file_read size f) := {
    | exist _ ([], _) _ := h;
    | exist _ (c :: chunk, rest) E := hash_chunks size (hash_update h (c :: chunk)) rest }.
Proof.
  match goal with Ht : take _ f = _ :: _ |- _ => revert Ht end.
  intros Ht. rewrite length_drop.
  destruct size, f; simpl in Ht; try discriminate. simpl. lia.
Qed.

(** [open(p, "rb")]: the content the file object will deliver. *)
Definition open_rb (p : str) : M bytes :=
  fun w => match files w !! p with
           | Some f => (Ok (data f), w)
           | None => if isdir w p then (Raise (IsADirectoryError p), w)
                     else (Raise (missing w p), w)
           end.

(** [open(p, "r").read()] and [Path(p).read_text()]: strict decoding in
    the locale's encoding, taken to be UTF-8, then newline translation. *)
Definition read_text (p : str) : M str :=
  content <- open_rb p ;;
  text <- lift (Utf8.decode content) ;;
  ret (Py.translate_newlines text).

(** [with open(p, "wb") as f: f.write(content)]; a new file gets the
    permission bits [0o666 & ~umask] (438 is [0o666]). *)
Definition write_bytes (env : Env) (p : str) (content : bytes) : M unit :=
  fun w =>
    if isdir w p then (Raise (IsADirectoryError p), w)
    else match files w !! p with
         | Some f =>
             (Ok tt, MkWorld (<[p := File content (mode f)]> (files w)) (dirs w)
                             (ticks w) (trace w ++ [WriteBytes p content]))
         | None =>
             if parent_ok w p
             then (Ok tt, MkWorld (<[p := File content (N.ldiff 438 (umask env))]> (files w))
                                  (dirs w) (ticks w) (trace w ++ [WriteBytes p content]))
             else (Raise (missing w p), w)
         end.

(** [os.rename(src, dst)] for a regular file [src]. *)
Definition rename_file (src dst : str) : M unit :=
  fun w =>
    match files w !! src with
    | None => (Raise (missing w src), w)
    | Some f =>
        if isdir w dst then (Raise (IsADirectoryError dst), w)
        else if parent_ok w dst || isfile w dst
             then (Ok tt, MkWorld (<[dst := f]> (delete src (files w))) (dirs w)
                                  (ticks w) (trace w ++ [Rename src dst]))
             else (Raise (missing w dst), w)
    end.

(** [shutil.move(src, dst)] for a regular file [src]: into [dst] when
    [dst] is a directory, onto [dst] otherwise. *)
Definition shutil_move (src dst : str) : M unit :=
  fun w =>
    if isdir w dst
    then let real_dst := Path.join dst (Path.basename (Path.rstrip_sep src)) in
         if path_exists w real_dst then (Raise (ShutilError real_dst), w)
         else rename_file src real_dst w
    else rename_file src dst w.

(** [shutil.copy2(src, dst)]: content and mode are copied. *)
Definition shutil_copy2 (src dst : str) : M unit :=
  fun w =>
    let real_dst := if isdir w dst then Path.join dst (Path.basename src) else dst in
    match files w !! src with
    | None => if isdir w src then (Raise (IsADirectoryError src), w)
              else (Raise (missing w src), w)
    | Some f =>
        if isdir w real_dst then (Raise (IsADirectoryError real_dst), w)
        else if bool_decide (src = real_dst) then (Raise (ShutilError real_dst), w)
        else if parent_ok w real_dst || isfile w real_dst
             then (Ok tt, MkWorld (<[real_dst := f]> (files w)) (dirs w)
                                  (ticks w) (trace w ++ [CopyFile src real_dst]))
             else (Raise (missing w real_dst), w)
    end.

(** [os.chmod(p, m)] *)
Definition chmod (p : str) (m : N) : M unit :=
  fun w =>
    match files w !! p with
    | Some f => (Ok tt, MkWorld (<[p := File (data f) m]> (files w)) (dirs w)
                                (ticks w) (trace w ++ [Chmod p m]))
    | None => if isdir w p
              then (Ok tt, MkWorld (files w) (dirs w) (ticks w) (trace w ++ [Chmod p m]))
              else (Raise (missing w p), w)
    end.

(** [urllib.request.urlopen(url).read()], with the exception caught by the
    caller delivered as [inl]. *)
Definition urlopen_read (env : Env) (url : str) : M (str + bytes) :=
  emit (UrlOpen url) ;; ret (urlopen env url).

(** ** The program *)

(** *** Paths *)

Definition OHMYZSH_DIR (env : Env) : str := Path.join (HOME env) (u ".oh-my-zsh").
Definition OMZMINI_DIR (env : Env) : str :=
  Path.join (Path.join (HOME env) (u ".config")) (u "omzmini").
Definition LOG_DIR (env : Env) : str := Path.join (OHMYZSH_DIR env) (u "log").
Definition LOGFILE (env : Env) : str := Path.join (LOG_DIR env) (u "omzmini_audit.log").
Definition HASHFILE (env : Env) : str := Path.join (LOG_DIR env) (u "omzmini_hashes.txt").
Definition PIN_FILE (env : Env) : str := Path.join (OMZMINI_DIR env) (u "pinned.txt").
Definition REPO_RAW : str := u "https://raw.githubusercontent.com/ohmyzsh/ohmyzsh/master".

(** [LOGFILE] and [HASHFILE] are opened in append mode only and no
    destination of the program is one of them: their appends are taken to
    succeed, and their content is the sequence of the [LogAppend] and
    [HashAppend] events of the trace. *)

(** *** Utilities *)

Definition log (env : Env) (msg : str) (log_enabled : bool) : M unit :=
  ts <- now env ;;
  let line := u "[" ++ strftime_log ts ++ u "] " ++ msg in
  print line ;;
  if log_enabled then emit (LogAppend (line ++ [10])) else ret tt.

Definition sha256 (file_path : str) : M str :=
  f <- open_rb file_path ;;
  ret (hash_hexdigest (hash_chunks (N.to_nat 8192) hash_new f)).

(** ["\n".join(lines)] *)
Fixpoint join_lines (lines : list str) : str :=
  match lines with
  | [] => []
  | [l] => l
  | l :: ls => l ++ [10] ++ join_lines ls
  end.

Definition msg_pinned (dest_path : str) : str :=
  [0x1F512] ++ u " Skipped pinned file: " ++ dest_path.
Definition msg_dry_run (url dest : str) : str :=
  u "DRY-RUN: Would fetch " ++ url ++ u " -> " ++ dest.
Definition msg_failed (url e : str) : str :=
  [0x274C] ++ u " Failed to fetch " ++ url ++ u ": " ++ e.
Definition msg_backed_up (backup : str) : str :=
  [0x1F4DD] ++ u " Local changes detected " ++ [0x2192] ++ u " backed up as " ++ backup.
Definition msg_fetched (path dest : str) : str :=
  [0x2705] ++ u " Fetched: " ++ path ++ u " -> " ++ dest.

(** The [if diff:] block of [fetch_file]. *)
Definition show_diff (env : Env) (dest : str) (content : bytes) : M unit :=
  text <- read_text dest ;;
  let local_lines := Py.splitlines text in
  let remote_lines := Py.splitlines (Utf8.decode_ignore content) in
  let diff_lines := unified_diff env local_lines remote_lines dest (u "remote") in
  if nonempty diff_lines then print (join_lines diff_lines) else ret tt.

Definition fetch_file (env : Env) (path dest : str) (dry_run diff : bool)
    (pinned : gset (list N)) (log_enabled : bool) : M unit :=
  let dest_path := resolve env dest in
  if bool_decide (dest_path ∈ pinned) then
    log env (msg_pinned dest_path) log_enabled
  else
    let url := REPO_RAW ++ u "/" ++ path in
    makedirs (Path.dirname dest) ;;
    if dry_run then
      log env (msg_dry_run url dest) log_enabled
    else
      r <- urlopen_read env url ;;
      match r with
      | inl e => log env (msg_failed url e) log_enabled
      | inr content =>
          (present <- (fun w => (Ok (path_exists w dest), w)) ;;
           if present : bool then
             old_hash <- sha256 dest ;;
             let new_hash := hash_hexdigest (hash_update hash_new content) in
             if bool_decide (old_hash ≠ new_hash) then
               (if diff then show_diff env dest content else ret tt) ;;
               ts <- now env ;;
               let backup := dest ++ u "." ++ strftime_stamp ts in
               shutil_move dest backup ;;
               log env (msg_backed_up backup) log_enabled
             else ret tt
           else ret tt) ;;
          write_bytes env dest content ;;
          log env (msg_fetched path dest) log_enabled ;;
          h <- sha256 dest ;;
          emit (HashAppend (path ++ u " " ++ h ++ [10]))
      end.

(** *** Hardcoded core, lib and tools files *)

Definition CORE_FILES : list str := [u "oh-my-zsh.sh"].

Definition LIB_FILES : list str :=
  [u "lib/completion.zsh"; u "lib/history.zsh"; u "lib/key-bindings.zsh";
   u "lib/termcap.zsh"].

Definition TOOLS_FILES : list str :=
  [u "tools/upgrade.sh"; u "tools/install.sh"; u "tools/uninstall.sh"].

(** *** Actions *)

(** The body of the loop of [parse_zshrc] on one line of the file. *)
Definition parse_line (st : list str * option str) (line0 : str)
    : result (list str * option str) :=
  let line := Py.strip line0 in
  if Py.startswith (u "plugins=") line then
    rbind (Py.index (Py.split1 40 line) 1) (fun after =>
    rbind (Py.index (Py.split 41 after) 0) (fun inside =>
    Ok (Py.split_ws inside, snd st)))
  else if Py.startswith (u "ZSH_THEME=") line then
    rbind (Py.index (Py.split 34 line) 1) (fun theme =>
    Ok (fst st, Some theme))
  else Ok st.

Fixpoint parse_lines (st : list str * option str) (lines : list str)
    : result (list str * option str) :=
  match lines with
  | [] => Ok st
  | line :: rest => rbind (parse_line st line) (fun st' => parse_lines st' rest)
  end.

Definition parse_zshrc (zshrc_path : str) : M (list str * option str) :=
  present <- (fun w => (Ok (path_exists w zshrc_path), w)) ;;
  if negb present then ret ([], None)
  else
    text <- read_text zshrc_path ;;
    lift (parse_lines ([], None) (Py.iter_lines text)).

Definition plugin_file (plugin : str) : str :=
  u "plugins/" ++ plugin ++ u "/" ++ plugin ++ u ".plugin.zsh".
Definition theme_file (theme : str) : str :=
  u "themes/" ++ theme ++ u ".zsh-theme".

Definition sync_plugins_and_theme (env : Env) (zshrc : str) (dry_run diff : bool)
    (pinned : gset (list N)) (log_enabled : bool) : M unit :=
  parsed <- parse_zshrc zshrc ;;
  let plugins := fst parsed in
  let theme := snd parsed in
  for_each CORE_FILES (fun f =>
    fetch_file env f (Path.join (OHMYZSH_DIR env) f) dry_run diff pinned log_enabled) ;;
  for_each LIB_FILES (fun f =>
    fetch_file env f (Path.join (OHMYZSH_DIR env) f) dry_run diff pinned log_enabled) ;;
  for_each TOOLS_FILES (fun f =>
    fetch_file env f (Path.join (OHMYZSH_DIR env) f) dry_run diff pinned log_enabled) ;;
  for_each plugins (fun plugin =>
    fetch_file env (plugin_file plugin) (Path.join (OHMYZSH_DIR env) (plugin_file plugin))
               dry_run diff pinned log_enabled) ;;
  (match theme with
   | Some (c :: t) =>
       fetch_file env (theme_file (c :: t))
                  (Path.join (OHMYZSH_DIR env) (theme_file (c :: t)))
                  dry_run diff pinned log_enabled
   | _ => ret tt
   end) ;;
  log env ([0x2705] ++ u " Sync complete") log_enabled.

(** 493 is the mode [0o755]. *)
Definition upgrade_self (env : Env) (dry_run : bool) (pinned : gset (list N)) : M unit :=
  let omzmini_path := Path.join (OMZMINI_DIR env) (u "omzmini.py") in
  ts <- now env ;;
  let backup := omzmini_path ++ u ".bak." ++ strftime_stamp ts in
  if dry_run then
    log env (u "DRY-RUN: Would upgrade omzmini and backup to " ++ backup) true
  else
    shutil_copy2 omzmini_path backup ;;
    fetch_file env (u "omzmini.py") omzmini_path false false pinned true ;;
    chmod omzmini_path 493 ;;
    log env ([0x2705] ++ u " omzmini upgraded. Backup: " ++ backup) true.

Definition warn : str := [0x26A0; 0xFE0F].

Definition run_doctor (env : Env) (zshrc : str) : M unit :=
  print ([0x1FA7A] ++ u " Running omzmini diagnostics...") ;;
  zshrc_present <- (fun w => (Ok (path_exists w zshrc), w)) ;;
  (if zshrc_present : bool then print ([0x2705] ++ u " .zshrc found")
   else print ([0x274C] ++ u " .zshrc missing")) ;;
  let core_file := Path.join (OHMYZSH_DIR env) (u "oh-my-zsh.sh") in
  core_present <- (fun w => (Ok (path_exists w core_file), w)) ;;
  (if core_present : bool then print ([0x2705] ++ u " oh-my-zsh.sh present")
   else print ([0x274C] ++ u " oh-my-zsh.sh missing")) ;;
  parsed <- parse_zshrc zshrc ;;
  (if nonempty (fst parsed) then ret tt
   else print (warn ++ u " No plugins declared")) ;;
  match snd parsed with
  | Some (_ :: _) => ret tt
  | _ => print (warn ++ u " No theme declared")
  end.

(** [", ".join(items)] *)
Fixpoint join_comma (items : list str) : str :=
  match items with
  | [] => []
  | [x] => x
  | x :: xs => x ++ u ", " ++ join_comma xs
  end.

Definition run_list (zshrc : str) : M unit :=
  print ([0x1F4CB] ++ u " Plugins and theme:") ;;
  parsed <- parse_zshrc zshrc ;;
  (if nonempty (fst parsed)
   then print (u "Plugins: " ++ join_comma (fst parsed))
   else print (warn ++ u " No plugins declared")) ;;
  match snd parsed with
  | Some (c :: t) => print (u "Theme: " ++ c :: t)
  | _ => print (warn ++ u " No theme declared")
  end.

(** *** Main *)

(** The parsed command line. [pin] is [None] without [--pin] and the list
    of its arguments otherwise. *)
Record Args : Type :=
  MkArgs { arg_sync : bool; arg_upgrade : bool; arg_restore : bool;
           arg_doctor : bool; arg_list : bool; arg_dry_run : bool;
           arg_diff : bool; arg_pin : option (list str) }.

(** The pin set [main] builds before it dispatches. *)
Definition load_pinned (env : Env) (pin : option (list str)) : M (gset (list N)) :=
  match pin with
  | Some (p :: ps) => ret (list_to_set (map (resolve env) (p :: ps)))
  | _ =>
      present <- (fun w => (Ok (path_exists w (PIN_FILE env)), w)) ;;
      if present : bool then
        text <- read_text (PIN_FILE env) ;;
        ret (list_to_set (map (fun p => resolve env (Py.strip p)) (Py.splitlines text)))
      else ret ∅
  end.

Definition when (c : bool) (m : M unit) : M unit := if c then m else ret tt.

Definition main (env : Env) (args : Args) : M unit :=
  pinned <- load_pinned env (arg_pin args) ;;
  let zshrc := Path.join (HOME env) (u ".zshrc") in
  when (arg_upgrade args) (upgrade_self env (arg_dry_run args) pinned) ;;
  when (arg_sync args)
       (sync_plugins_and_theme env zshrc (arg_dry_run args) (arg_diff args) pinned true) ;;
  when (arg_restore args) (sync_plugins_and_theme env zshrc false false pinned true) ;;
  when (arg_doctor args) (run_doctor env zshrc) ;;
  when (arg_list args) (run_list zshrc).

(** *** The module level and the program *)

(** The two statements the module runs when it is loaded, before
    anything else. *)
Definition module_init (env : Env) : M unit :=
  makedirs (LOG_DIR env) ;; makedirs (OMZMINI_DIR env).


(** ** The specification's reading of the pin file *)

(** The pin set as the specification words it: one path per line, blank
    lines ignored, each remaining line resolved. *)
Definition pins_of_text_spec (env : Env) (text : str) : gset (list N) :=
  list_to_set
    (map (resolve env)
         (filter (fun l => nonempty l = true) (map Py.strip (Py.splitlines text)))).

(** ** Vocabulary of the statements *)

(** A token: non-empty and free of whitespace. *)
Definition is_token (t : str) : Prop :=
  t ≠ [] ∧ Forall (fun c => Py.isspace c = false) t.

(** Tokens written one after the other, a blank before each. *)
Definition spaced (toks : list str) : str := concat (map (fun t => 32 :: t) toks).

(** A line that carries the theme marker once stripped. *)
Definition theme_marked (line : str) : bool :=
  Py.startswith (u "ZSH_THEME=") (Py.strip line).

(** A line that carries the plugins marker once stripped. *)
Definition plugins_marked (line : str) : bool :=
  Py.startswith (u "plugins=") (Py.strip line).

(** [m] relates every world it starts from to the world it ends in by
    [R], whether it returns or raises. *)
Definition respects {A} (R : World -> World -> Prop) (m : M A) : Prop :=
  forall w r w', m w = (r, w') -> R w w'.

(** The trace grows by events that all satisfy [P]. *)
Definition extends (P : event -> Prop) (w w' : World) : Prop :=
  exists evs, trace w' = trace w ++ evs ∧ Forall P evs.

(** No regular file is created, changed, moved or removed. *)
Definition same_files (w w' : World) : Prop := files w' = files w.

(** Nothing changes at all. *)
Definition unchanged (w w' : World) : Prop := w' = w.

(** The world grows by directories only. *)
Definition grew (w w' : World) : Prop :=
  files w' = files w ∧ ticks w' = ticks w
  ∧ exists ds, trace w' = trace w ++ map Mkdir ds ∧ dirs w' = list_to_set ds ∪ dirs w.

(** Every directory has its parent directory. *)
Definition dirs_closed (w : World) : Prop :=
  forall d, d ∈ dirs w -> parent_ok w d = true.

(** The events one call [fetch_file path dest] may produce: printing,
    logging and directory creation; and, only when [dest] is not pinned and
    the run is not a dry run, the request for [path], the backup of [dest],
    the write of [dest] and the ledger line of [path]. *)
Definition fetch_event (env : Env) (dry_run : bool) (pinned : gset (list N))
    (path dest : str) (e : event) : Prop :=
  match e with
  | Print _ | LogAppend _ => True
  | Mkdir _ => resolve env dest ∉ pinned
  | UrlOpen url =>
      (resolve env dest ∉ pinned) ∧ dry_run = false ∧ url = REPO_RAW ++ u "/" ++ path
  | WriteBytes p _ => (resolve env dest ∉ pinned) ∧ dry_run = false ∧ p = dest
  | Rename src _ => (resolve env dest ∉ pinned) ∧ dry_run = false ∧ src = dest
  | HashAppend t =>
      (resolve env dest ∉ pinned) ∧ dry_run = false
      ∧ exists h, t = path ++ u " " ++ h ++ [10]
  | CopyFile _ _ | Chmod _ _ => False
  end.

(** The events of a sync run: those of its calls of [fetch_file], each on
    a path and its destination under the installation root. *)
Definition sync_event (env : Env) (dry_run : bool) (pinned : gset (list N))
    (e : event) : Prop :=
  exists path,
    fetch_event env dry_run pinned path (Path.join (OHMYZSH_DIR env) path) e.

(** Events that neither reach the network nor touch a regular file. *)
Definition quiet (e : event) : Prop :=
  match e with
  | Print _ | LogAppend _ | Mkdir _ => True
  | _ => False
  end.

(** Events that move or copy a regular file. *)
Definition moves_file (e : event) : Prop :=
  match e with
  | Rename _ _ | CopyFile _ _ => True
  | _ => False
  end.

(** Events that reach the network. *)
Definition is_request (e : event) : bool :=
  match e with
  | UrlOpen _ => true
  | _ => false
  end.

(** The remote paths of a sync run, in the order they are processed. *)
Definition sync_targets (plugins : list str) (theme : option str) : list str :=
  CORE_FILES ++ LIB_FILES ++ TOOLS_FILES ++ map plugin_file plugins
  ++ match theme with
     | Some (c :: t) => [theme_file (c :: t)]
     | _ => []
     end.

(** The line [log] prints for a message. *)
Definition log_line (env : Env) (w : World) (msg : str) : str :=
  u "[" ++ strftime_log (clock env (ticks w)) ++ u "] " ++ msg.

(** The world after [log msg]. *)
Definition logged (env : Env) (msg : str) (log_enabled : bool) (w : World) : World :=
  MkWorld (files w) (dirs w) (S (ticks w))
          (trace w ++ Print (log_line env w msg)
                   :: if log_enabled then [LogAppend (log_line env w msg ++ [10])] else []).

(** What the [if diff:] block prints for a local file with bytes [old]
    and fetched bytes [new]. *)
Definition diff_output (env : Env) (dest : str) (old new : bytes) : list event :=
  match Utf8.decode old with
  | Ok text =>
      let diff_lines :=
        unified_diff env (Py.splitlines (Py.translate_newlines text))
                     (Py.splitlines (Utf8.decode_ignore new)) dest (u "remote") in
      if nonempty diff_lines then [Print (join_lines diff_lines)] else []
  | Raise _ => []
  end.

(** The name of the backup [fetch_file] makes of [dest] in world [w]. *)
Definition backup_name (env : Env) (w : World) (dest : str) : str :=
  dest ++ u "." ++ strftime_stamp (clock env (ticks w)).

(** The world after [fetch_file] has found the local file [f] at [dest]
    outdated: the diff if asked for, the backup, the write, the ledger
    line. *)
Definition backed_up_and_written (env : Env) (path dest : str) (diff log_enabled : bool)
    (f : file) (content : bytes) (w : World) : World :=
  let backup := backup_name env w dest in
  let w1 := MkWorld (<[backup := f]> (delete dest (files w))) (dirs w) (S (ticks w))
                    (trace w ++ [UrlOpen (REPO_RAW ++ u "/" ++ path)]
                     ++ (if diff then diff_output env dest (data f) content else [])
                     ++ [Rename dest backup]) in
  let w2 := logged env (msg_backed_up backup) log_enabled w1 in
  let w3 := MkWorld (<[dest := File content (N.ldiff 438 (umask env))]> (files w2))
                    (dirs w2) (ticks w2) (trace w2 ++ [WriteBytes dest content]) in
  let w4 := logged env (msg_fetched path dest) log_enabled w3 in
  MkWorld (files w4) (dirs w4) (ticks w4)
          (trace w4 ++ [HashAppend (path ++ u " " ++ Sha256.hexdigest content ++ [10])]).

(** A date the clock of a running system can show. *)
Definition valid_datetime (d : datetime) : Prop :=
  1000 <= year d <= 9999 ∧ 1 <= month d <= 12 ∧ 1 <= day d <= 31
  ∧ hour d <= 23 ∧ minute d <= 59 ∧ second d <= 60.

(** A decimal digit. *)
Definition is_digit (c : char) : Prop := 48 <= c <= 57.

(** A lower-case hexadecimal digit. *)
Definition is_hex (c : char) : Prop := 48 <= c <= 57 \/ 97 <= c <= 102.

(** The names [fetch_file] writes under for destination [d]: [d] itself,
    a backup name of [d] (a dot and decimal digits after it), and the place
    [shutil.move] picks when the backup name is a directory. *)
Definition own (d q : str) : Prop :=
  q = d
  ∨ exists s, Forall is_digit s
      ∧ (q = d ++ u "." ++ s
         ∨ q = Path.join (d ++ u "." ++ s) (Path.basename (Path.rstrip_sep d))).

(** Every regular file that is not [d]'s own is as before. *)
Definition frame (d : str) (w w' : World) : Prop :=
  forall q, ¬ own d q -> files w' !! q = files w !! q.

(** If [d] held the file [f] before, it still does, no backup name of [d]
    has appeared, changed or gone, and nothing in between has moved [d]
    away. *)
Definition kept (d : str) (f : file) (w w' : World) : Prop :=
  files w !! d = Some f ->
  files w' !! d = Some f
  ∧ (forall s, Forall is_digit s ->
       files w' !! (d ++ u "." ++ s) = files w !! (d ++ u "." ++ s))
  ∧ extends (fun e => forall x, e ≠ Rename d x) w w'.

(** The number of separators in a path. *)
Definition nseps (p : str) : nat := length (List.filter (N.eqb Path.sep) p).

(** The set of directories is as before. *)
Definition same_dirs (w w' : World) : Prop := dirs w' = dirs w.

(** The world [fetch_file] leaves when it installs a file that was not
    there: [w1] is the world once the directories are made. *)
Definition installed (env : Env) (path dest : str) (log_enabled : bool)
    (content : bytes) (w1 : World) : World :=
  let w2 := MkWorld (<[dest := File content (N.ldiff 438 (umask env))]> (files w1))
                    (dirs w1) (ticks w1)
                    (trace w1 ++ [UrlOpen (REPO_RAW ++ u "/" ++ path);
                                  WriteBytes dest content]) in
  let w3 := logged env (msg_fetched path dest) log_enabled w2 in
  MkWorld (files w3) (dirs w3) (ticks w3)
          (trace w3 ++ [HashAppend (path ++ u " " ++ Sha256.hexdigest content ++ [10])]).

(** A line that carries one of the two markers once stripped. *)
Definition marked (line : str) : bool := plugins_marked line || theme_marked line.

(** A plugin name as the parser can return it: a token without a closing
    parenthesis. *)
Definition is_plugin_name (p : str) : Prop := is_token p ∧ 41 ∉ p.

(** The first line of the two reports. *)
Definition doctor_header : str := [0x1FA7A] ++ u " Running omzmini diagnostics...".
Definition list_header : str := [0x1F4CB] ++ u " Plugins and theme:".

(** The events of a sync run over the remote paths [targets]: those of a
    call of [fetch_file] on one of them and its destination under the
    installation root. *)
Definition target_event (env : Env) (dry_run : bool) (pinned : gset (list N))
    (targets : list str) (e : event) : Prop :=
  exists path, path ∈ targets
    ∧ fetch_event env dry_run pinned path (Path.join (OHMYZSH_DIR env) path) e.

(** The regular file at [q] is as before. *)
Definition keeps (q : str) (w w' : World) : Prop := files w' !! q = files w !! q.

(** From a world whose regular files are those of [w0]: no regular file
    changes and nothing is moved or copied. *)
Definition settled (w0 w w' : World) : Prop :=
  files w = files w0 ->
  files w' = files w0 ∧ extends (fun e => ¬ moves_file e) w w'.

(** The requests a real sync run over [targets] sends: one for each
    remote path whose destination is not pinned, in order. *)
Definition requested (env : Env) (pinned : gset (list N)) (targets : list str)
    : list event :=
  map (fun p => UrlOpen (REPO_RAW ++ u "/" ++ p))
      (List.filter (fun p => negb (bool_decide
                                     (resolve env (Path.join (OHMYZSH_DIR env) p) ∈ pinned)))
                   targets).

(** Every path that holds a regular file still holds one. *)
Definition no_path_lost (w w' : World) : Prop :=
  forall q, is_Some (files w !! q) -> is_Some (files w' !! q).

(** A path component that names an entry of its directory: not empty, not
    [.] and not [..]. *)
Definition plain_component (c : str) : bool :=
  negb (bool_decide (c = [])) && negb (bool_decide (c = u "."))
  && negb (bool_decide (c = u "..")).

(** A relative path in normal form: every component is plain.  Two such
    paths under one directory that differ as strings are two files; a path
    with an empty, [.] or [..] component can spell the file of another
    path, as [plugins/git/../git/git/../git.plugin.zsh], the remote path of
    the plugin name [git/../git], spells the file of the plugin [git]. *)
Definition normal_form (p : str) : bool :=
  forallb plain_component (Py.split Path.sep p).

(** The remote paths of a sync run are all in normal form.  The worlds of
    this development key files by the path string, so statements that relate
    the destinations of several targets of one run are made of such runs. *)
Definition normal_targets (parsed : list str * option str) : bool :=
  forallb normal_form (sync_targets (fst parsed) (snd parsed)).

(** The lines printed by a list of events, in order. *)
Definition printed (evs : list event) : list str :=
  omap (fun e => match e with Print t => Some t | _ => None end) evs.

(** The line [log] makes of a message at the clock reading number [t]. *)
Definition stamped (env : Env) (t : nat) (msg : str) : str :=
  u "[" ++ strftime_log (clock env t) ++ u "] " ++ msg.

(** What a dry run says about a remote path: the skip notice when its
    destination is pinned, the preview notice otherwise. *)
Definition dry_run_notice (env : Env) (pinned : gset (list N)) (p : str) : str :=
  let dest := Path.join (OHMYZSH_DIR env) p in
  if bool_decide (resolve env dest ∈ pinned) then msg_pinned (resolve env dest)
  else msg_dry_run (REPO_RAW ++ u "/" ++ p) dest.

(** ** A concrete environment *)

(** [Path.resolve] on a file system without symbolic links: the path is
    made absolute against [cwd] and its [.], [..] and empty components are
    removed. *)
Fixpoint normalize (stack : list str) (comps : list str) : list str :=
  match comps with
  | [] => rev stack
  | c :: comps' =>
      if bool_decide (c = []) || bool_decide (c = u ".") then normalize stack comps'
      else if bool_decide (c = u "..") then normalize (tl stack) comps'
      else normalize (c :: stack) comps'
  end.

Definition resolve_nosymlink (cwd p : str) : str :=
  let full := if Py.startswith [Path.sep] p then p else cwd ++ [Path.sep] ++ p in
  match normalize [] (Py.split Path.sep full) with
  | [] => [Path.sep]
  | comps => concat (map (fun c => Path.sep :: c) comps)
  end.

(** A stand-in for [difflib.unified_diff]: nothing for equal inputs, a
    header and every line otherwise. *)
Definition whole_file_diff (a c : list str) (fromfile tofile : str) : list str :=
  if bool_decide (a = c) then []
  else [u "--- " ++ fromfile; u "+++ " ++ tofile]
       ++ map (fun l => 45 :: l) a ++ map (fun l => 43 :: l) c.

(** A server that knows the paths in [table] and answers 404 otherwise. *)
Definition serve (table : list (str * bytes)) (url : str) : str + bytes :=
  match list_find (fun e => REPO_RAW ++ u "/" ++ fst e = url) table with
  | Some (_, (_, content)) => inr content
  | None => inl (u "HTTP Error 404: Not Found")
  end.

Definition demo_env (table : list (str * bytes)) : Env :=
  MkEnv (u "/home/me")
        (fun n => DateTime 2024 5 17 9 30 (N.of_nat n))
        (serve table)
        (resolve_nosymlink (u "/home/me"))
        whole_file_diff
        18.

Definition demo_dirs : gset (list N) :=
  list_to_set [u "/home"; u "/home/me"; u "/home/me/.oh-my-zsh";
               u "/home/me/.oh-my-zsh/log"; u "/home/me/.config";
               u "/home/me/.config/omzmini"].

Definition demo_world (fs : list (str * bytes)) : World :=
  MkWorld (list_to_map (map (fun e => (fst e, File (snd e) 420)) fs)) demo_dirs 0 [].

(** The declaration file of the specification's example: a plugins line
    followed by a theme line. *)
Definition example_zshrc : bytes :=
  b "plugins=(git docker) " ++ [x0a] ++ b "ZSH_THEME=" ++ [x22] ++ b "robbyrussell" ++ [x22].

(** A pin file with a blank line between two paths. *)
Definition example_pins : bytes := b "/opt/a" ++ [x0a; x0a] ++ b "/opt/b" ++ [x0a].

(** A home directory with a declaration file and nothing installed yet. *)
Definition fresh_world : World := demo_world [(u "/home/me/.zshrc", example_zshrc)].

(** The pin set that holds the core script. *)
Definition core_pinned : gset (list N) := {[ u "/home/me/.oh-my-zsh/oh-my-zsh.sh" ]}.

(** A local core script that is Latin-1 text and not valid UTF-8. *)
Definition latin1_world : World :=
  demo_world [(u "/home/me/.oh-my-zsh/oh-my-zsh.sh", [x23; x20; xe9; x0a])].

(** A server that has a newer core script. *)
Definition core_server : Env := demo_env [(u "oh-my-zsh.sh", b "# new core")].

(** An installed tool. *)
Definition tool_world : World :=
  demo_world [(u "/home/me/.config/omzmini/omzmini.py", b "# old tool")].

(** A server that has a newer tool. *)
Definition tool_server : Env := demo_env [(u "omzmini.py", b "# new tool")].

(** The pin set that holds the tool. *)
Definition tool_pinned : gset (list N) := {[ u "/home/me/.config/omzmini/omzmini.py" ]}.

(** * Properties *)

(** ** Text helpers *)

Section TextFacts.

Lemma startswith_app (p s : str) : Py.startswith p (p ++ s) = true.
Proof.
  induction p as [|c p IH]; simpl; [by destruct s|].
  by rewrite N.eqb_refl, IH.
Qed.

Lemma split_app_sep (c : char) (pre rest : str) :
  c ∉ pre -> Py.split c (pre ++ c :: rest) = pre :: Py.split c rest.
Proof.
  induction pre as [|a pre IH]; simpl; intros Hn.
  - by rewrite N.eqb_refl.
  - apply not_elem_of_cons in Hn as [Hne Hn].
    destruct (a =? c) eqn:E; [apply N.eqb_eq in E; congruence|].
    by rewrite IH.
Qed.

Lemma split1_app_sep (c : char) (pre rest : str) :
  c ∉ pre -> Py.split1 c (pre ++ c :: rest) = [pre; rest].
Proof.
  induction pre as [|a pre IH]; simpl; intros Hn.
  - by rewrite N.eqb_refl.
  - apply not_elem_of_cons in Hn as [Hne Hn].
    destruct (a =? c) eqn:E; [apply N.eqb_eq in E; congruence|].
    by rewrite IH.
Qed.

Lemma split_no_sep (c : char) (s : str) : c ∉ s -> Py.split c s = [s].
Proof.
  induction s as [|a s IH]; simpl; intros Hn; [done|].
  apply not_elem_of_cons in Hn as [Hne Hn].
  destruct (a =? c) eqn:E; [apply N.eqb_eq in E; congruence|].
  by rewrite IH.
Qed.

Lemma split1_no_sep (c : char) (s : str) : c ∉ s -> Py.split1 c s = [s].
Proof.
  induction s as [|a s IH]; simpl; intros Hn; [done|].
  apply not_elem_of_cons in Hn as [Hne Hn].
  destruct (a =? c) eqn:E; [apply N.eqb_eq in E; congruence|].
  by rewrite IH.
Qed.

Lemma split_ws_aux_token (cur t rest : str) :
  Forall (fun c => Py.isspace c = false) t ->
  Py.split_ws_aux cur (t ++ rest) = Py.split_ws_aux (rev t ++ cur) rest.
Proof.
  revert cur. induction t as [|c t IH]; intros cur Ht; simpl; [done|].
  inversion Ht as [|? ? Hc Ht']; subst. rewrite Hc, IH by done.
  by rewrite <- app_assoc.
Qed.

Lemma split_ws_spaced (toks : list str) :
  Forall is_token toks -> Py.split_ws (spaced toks) = toks.
Proof.
  unfold Py.split_ws, spaced.
  induction toks as [|t toks IH]; intros Ht; simpl; [done|].
  inversion Ht as [|? ? [Hne Hsp] Ht']; subst.
  change (Py.isspace 32) with true. cbv iota.
  rewrite split_ws_aux_token by done. rewrite app_nil_r.
  destruct toks as [|t' toks].
  - simpl. destruct (rev t) eqn:Hr; [|by rewrite <- Hr, rev_involutive].
    apply (f_equal (@rev _)) in Hr. rewrite rev_involutive in Hr. done.
  - simpl in *. change (Py.isspace 32) with true. cbv iota.
    change (Py.isspace 32) with true in IH. cbv iota in IH.
    destruct (rev t) eqn:Hr.
    + apply (f_equal (@rev _)) in Hr. rewrite rev_involutive in Hr. done.
    + rewrite <- Hr, rev_involutive. f_equal. by apply IH.
Qed.

End TextFacts.

(** ** The declaration parser *)

Section Parser.

Implicit Types (st : list str * option str) (line : str).

Lemma not_in_literal (c : char) (l : str) :
  forallb (fun x => negb (x =? c)) l = true -> c ∉ l.
Proof.
  induction l as [|a l IH]; simpl; intros H; [apply not_elem_of_nil|].
  apply andb_prop in H as [Ha Hl]. apply not_elem_of_cons. split; [|by apply IH].
  intros ->. by rewrite N.eqb_refl in Ha.
Qed.

Lemma parse_line_plugins st line (pre body rest : str) :
  Py.strip line = u "plugins=" ++ pre ++ [40] ++ body ++ [41] ++ rest ->
  40 ∉ pre -> 41 ∉ body ->
  parse_line st line = Ok (Py.split_ws body, snd st).
Proof.
  intros Hs Hpre Hbody. unfold parse_line. rewrite Hs, startswith_app.
  replace (u "plugins=" ++ pre ++ [40] ++ body ++ [41] ++ rest)
    with ((u "plugins=" ++ pre) ++ 40 :: (body ++ 41 :: rest))
    by (by rewrite <- !app_assoc).
  rewrite split1_app_sep.
  - simpl. by rewrite split_app_sep.
  - apply not_elem_of_app. split; [by apply not_in_literal|done].
Qed.

Lemma parse_line_theme st line (pre theme rest : str) :
  Py.strip line = u "ZSH_THEME=" ++ pre ++ [34] ++ theme ++ [34] ++ rest ->
  34 ∉ pre -> 34 ∉ theme ->
  parse_line st line = Ok (fst st, Some theme).
Proof.
  intros Hs Hpre Hth. unfold parse_line. rewrite Hs.
  change (Py.startswith (u "plugins=") (u "ZSH_THEME=" ++ ?x)) with false.
  cbv iota. rewrite startswith_app.
  replace (u "ZSH_THEME=" ++ pre ++ [34] ++ theme ++ [34] ++ rest)
    with ((u "ZSH_THEME=" ++ pre) ++ 34 :: (theme ++ 34 :: rest))
    by (by rewrite <- !app_assoc).
  rewrite split_app_sep.
  - by rewrite split_app_sep.
  - apply not_elem_of_app. split; [by apply not_in_literal|done].
Qed.

(** A line with neither marker leaves the state as it is. *)
Lemma parse_line_other st line :
  plugins_marked line = false -> theme_marked line = false ->
  parse_line st line = Ok st.
Proof.
  unfold plugins_marked, theme_marked, parse_line. by intros -> ->.
Qed.

Lemma parse_line_keeps_theme st st' line :
  theme_marked line = false -> parse_line st line = Ok st' -> snd st' = snd st.
Proof.
  unfold theme_marked, parse_line. intros ->.
  destruct (Py.startswith (u "plugins=") (Py.strip line)); [|by intros [= <-]].
  destruct (Py.index _ 1) as [after|]; simpl; [|done].
  destruct (Py.index _ 0) as [inside|]; simpl; [|done].
  by intros [= <-].
Qed.

Lemma parse_lines_app st (l1 l2 : list str) :
  parse_lines st (l1 ++ l2)
  = rbind (parse_lines st l1) (fun st1 => parse_lines st1 l2).
Proof.
  revert st. induction l1 as [|l l1 IH]; intros st; simpl; [done|].
  destruct (parse_line st l); simpl; [apply IH|done].
Qed.

Lemma parse_lines_keep_theme st st' (lines : list str) :
  Forall (fun l => theme_marked l = false) lines ->
  parse_lines st lines = Ok st' -> snd st' = snd st.
Proof.
  revert st. induction lines as [|l lines IH]; intros st Hall; simpl.
  - by intros [= <-].
  - inversion Hall as [|? ? Hl Hrest]; subst.
    destruct (parse_line st l) as [st1|] eqn:E; simpl; [|done].
    intros H. rewrite (IH _ Hrest H). by eapply parse_line_keeps_theme.
Qed.

(** A marker line without the delimiter the code indexes after raises
    [IndexError]. *)
Lemma parse_line_theme_unquoted st line (rest : str) :
  Py.strip line = u "ZSH_THEME=" ++ rest -> 34 ∉ rest ->
  parse_line st line = Raise IndexError.
Proof.
  intros Hs Hrest. unfold parse_line. rewrite Hs.
  change (Py.startswith (u "plugins=") (u "ZSH_THEME=" ++ ?x)) with false.
  cbv iota. rewrite startswith_app, split_no_sep; [done|].
  apply not_elem_of_app. split; [by apply not_in_literal|done].
Qed.

Lemma parse_line_plugins_unparenthesized st line (rest : str) :
  Py.strip line = u "plugins=" ++ rest -> 40 ∉ rest ->
  parse_line st line = Raise IndexError.
Proof.
  intros Hs Hrest. unfold parse_line. rewrite Hs, startswith_app.
  rewrite split1_no_sep; [done|].
  apply not_elem_of_app. split; [by apply not_in_literal|done].
Qed.

Lemma parse_zshrc_missing (w : World) (zshrc : str) :
  path_exists w zshrc = false -> parse_zshrc zshrc w = (Ok ([], None), w).
Proof. intros H. unfold parse_zshrc, bind. by rewrite H. Qed.

(** C8. Declaration parsing: a plugins line yields the whitespace-split
    tokens of its parenthesized list, in order; a theme line yields the text
    between its first pair of double quotes; the last theme line wins; the
    example file of the specification parses to [git; docker] and
    [robbyrussell]; a missing file parses to no plugins and no theme. *)
Theorem parse_zshrc_declarations
    st (pline tline pre body rest tpre theme trest : str)
    (before after : list str) (st1 st2 : list str * option str)
    (toks : list str) (w : World) (zshrc : str) :
  Py.strip pline = u "plugins=" ++ pre ++ [40] ++ body ++ [41] ++ rest ->
  40 ∉ pre -> 41 ∉ body ->
  Py.strip tline = u "ZSH_THEME=" ++ tpre ++ [34] ++ theme ++ [34] ++ trest ->
  34 ∉ tpre -> 34 ∉ theme ->
  parse_lines ([], None) before = Ok st1 ->
  parse_lines (fst st1, Some theme) after = Ok st2 ->
  Forall (fun l => theme_marked l = false) after ->
  Forall is_token toks ->
  path_exists w zshrc = false ->
  parse_line st pline = Ok (Py.split_ws body, snd st)
  ∧ Py.split_ws (spaced toks) = toks
  ∧ parse_line st tline = Ok (fst st, Some theme)
  ∧ parse_lines ([], None) (before ++ tline :: after) = Ok st2
  ∧ snd st2 = Some theme
  ∧ fst (parse_zshrc (u "/home/me/.zshrc")
                     (demo_world [(u "/home/me/.zshrc", example_zshrc)]))
    = Ok ([u "git"; u "docker"], Some (u "robbyrussell"))
  ∧ parse_zshrc zshrc w = (Ok ([], None), w).
Proof.
  intros Hp Hpre Hbody Ht Htpre Hth Hbefore Hafter Hall Htoks Hmiss.
  split; [by eapply parse_line_plugins|].
  split; [by apply split_ws_spaced|].
  split; [by eapply parse_line_theme|].
  split.
  { rewrite parse_lines_app, Hbefore. simpl.
    by rewrite (parse_line_theme st1 tline tpre theme trest). }
  split; [by rewrite (parse_lines_keep_theme _ _ _ Hall Hafter)|].
  split; [by vm_compute|].
  by apply parse_zshrc_missing.
Qed.

Lemma parse_zshrc_declarations_witness :
  fst (parse_zshrc (u "/home/me/.zshrc")
                   (demo_world [(u "/home/me/.zshrc", example_zshrc)]))
  = Ok ([u "git"; u "docker"], Some (u "robbyrussell"))
  ∧ parse_lines ([], None)
      ([u "ZSH_THEME=" ++ [34] ++ u "agnoster" ++ [34; 10]]
       ++ (u "  ZSH_THEME=" ++ [34] ++ u "robbyrussell" ++ [34] ++ u " # mine" ++ [10])
       :: [u "plugins=(git docker)"])
    = Ok ([u "git"; u "docker"], Some (u "robbyrussell")).
Proof.
  pose proof (parse_zshrc_declarations
    ([], None)
    (u "plugins=(git docker) " ++ [10])
    (u "  ZSH_THEME=" ++ [34] ++ u "robbyrussell" ++ [34] ++ u " # mine" ++ [10])
    [] (u "git docker") [] [] (u "robbyrussell") (u " # mine")
    [u "ZSH_THEME=" ++ [34] ++ u "agnoster" ++ [34; 10]]
    [u "plugins=(git docker)"]
    ([], Some (u "agnoster")) ([u "git"; u "docker"], Some (u "robbyrussell"))
    [u "git"; u "docker"]
    (demo_world []) (u "/home/me/.zshrc")) as H.
  destruct H as (_ & _ & _ & Hlast & _ & Hex & _).
  - reflexivity.
  - apply not_elem_of_nil.
  - by apply not_in_literal.
  - reflexivity.
  - apply not_elem_of_nil.
  - by apply not_in_literal.
  - reflexivity.
  - reflexivity.
  - by repeat constructor.
  - repeat constructor; try discriminate; by vm_compute.
  - reflexivity.
  - split; [exact Hex|exact Hlast].
Defined.

(** C9. A line that begins with the theme marker but has no double quote,
    or with the plugins marker but has no opening parenthesis, is not
    ignored: [parse_zshrc] raises [IndexError] on it. *)
Theorem parse_zshrc_marker_line_raises :
  fst (parse_zshrc (u "/home/me/.zshrc")
         (demo_world [(u "/home/me/.zshrc", b "ZSH_THEME=robbyrussell")]))
  = Raise IndexError
  ∧ fst (parse_zshrc (u "/home/me/.zshrc")
           (demo_world [(u "/home/me/.zshrc", b "plugins=git")]))
    = Raise IndexError.
Proof. split; by vm_compute. Qed.

End Parser.

(** ** Hashing *)

Section Hashing.

Lemma chunk_size_pos : (0 < N.to_nat 8192)%nat.
Proof. change 8192 with (N.succ 8191). rewrite N2Nat.inj_succ. lia. Qed.

(** Reading a file chunk by chunk feeds the hash object the whole
    content, in order. *)
Lemma hash_chunks_fed (size : nat) (h : hashobj) (f : bytes) :
  (0 < size)%nat -> fed (hash_chunks size h f) = fed h ++ f.
Proof.
  intros Hsize. funelim (hash_chunks size h f).
  - match goal with Ht : take _ _ = [] |- _ =>
      destruct size, f; simpl in Ht; try lia; try discriminate end.
    by rewrite app_nil_r.
  - match goal with IH : _ -> fed (hash_chunks _ _ _) = _ |- _ => rewrite IH by done end.
    match goal with Ht : take _ _ = _ :: _ |- _ => simpl; rewrite <- Ht end.
    by rewrite <- app_assoc, take_drop.
Qed.

Lemma hexdigest_length (msg : bytes) : length (Sha256.hexdigest msg) = 64%nat.
Proof.
  unfold Sha256.hexdigest, Sha256.hex_word.
  rewrite !length_app, !length_map. reflexivity.
Qed.

Lemma hex_digit_is_hex (x : Z) : is_hex (Sha256.hex_digit (Z.land x 15)).
Proof.
  assert (H : (0 <= Z.land x 15 < 16)%Z).
  { change 15%Z with (Z.ones 4). rewrite Z.land_ones by lia.
    apply Z.mod_pos_bound. lia. }
  unfold Sha256.hex_digit, is_hex. revert H. generalize (Z.land x 15). intros d Hd.
  destruct (d <? 10)%Z eqn:E; [apply Z.ltb_lt in E|apply Z.ltb_ge in E]; lia.
Qed.

Lemma hex_word_is_hex (x : Z) : Forall is_hex (Sha256.hex_word x).
Proof.
  unfold Sha256.hex_word. cbn [map].
  repeat (apply Forall_cons_2; [apply hex_digit_is_hex|]). apply Forall_nil_2.
Qed.

Lemma hexdigest_is_hex (msg : bytes) : Forall is_hex (Sha256.hexdigest msg).
Proof.
  unfold Sha256.hexdigest. rewrite !Forall_app. repeat split; apply hex_word_is_hex.
Qed.

Lemma sha256_of_file (w : World) (p : str) (f : file) :
  files w !! p = Some f -> sha256 p w = (Ok (Sha256.hexdigest (data f)), w).
Proof.
  intros Hf. unfold sha256, bind, open_rb, ret. rewrite Hf.
  unfold hash_hexdigest. rewrite hash_chunks_fed by apply chunk_size_pos.
  reflexivity.
Qed.

(** C10. The digest [sha256] computes from a file in 8192-byte chunks is
    the one-shot digest of the file's bytes; it is 64 lower-case hexadecimal
    digits; two files with the same bytes, or a file and a buffer with the
    same bytes, have the same digest. *)
Theorem sha256_file_matches_buffer
    (w w' : World) (p p' : str) (f f' : file) :
  files w !! p = Some f ->
  files w' !! p' = Some f' ->
  data f' = data f ->
  sha256 p w = (Ok (hash_hexdigest (hash_update hash_new (data f))), w)
  ∧ hash_hexdigest (hash_chunks (N.to_nat 8192) hash_new (data f))
    = hash_hexdigest (hash_update hash_new (data f))
  ∧ length (hash_hexdigest (hash_update hash_new (data f))) = 64%nat
  ∧ Forall is_hex (hash_hexdigest (hash_update hash_new (data f)))
  ∧ fst (sha256 p' w') = fst (sha256 p w).
Proof.
  intros Hf Hf' Hsame.
  rewrite (sha256_of_file _ _ _ Hf), (sha256_of_file _ _ _ Hf'), Hsame.
  unfold hash_hexdigest at 2.
  rewrite hash_chunks_fed by apply chunk_size_pos.
  split; [reflexivity|]. split; [reflexivity|].
  split; [apply hexdigest_length|]. split; [apply hexdigest_is_hex|reflexivity].
Qed.

Lemma sha256_file_matches_buffer_witness :
  fst (sha256 (u "/home/me/a") (demo_world [(u "/home/me/a", b "abc")]))
  = Ok (u "ba7816bf8f01cfea414140de5dae2223b00361a396177a9cb410ff61f20015ad").
Proof.
  pose proof (sha256_file_matches_buffer
    (demo_world [(u "/home/me/a", b "abc")])
    (demo_world [(u "/home/me/c", b "abc")])
    (u "/home/me/a") (u "/home/me/c") (File (b "abc") 420) (File (b "abc") 420)) as H.
  destruct H as (H & _); [by vm_compute ..|].
  rewrite H. by vm_compute.
Defined.

(** The implementation agrees with [hashlib] on the standard vectors. *)
Example sha256_abc :
  Sha256.hexdigest (b "abc")
  = u "ba7816bf8f01cfea414140de5dae2223b00361a396177a9cb410ff61f20015ad".
Proof. by vm_compute. Qed.

Example sha256_empty :
  Sha256.hexdigest []
  = u "e3b0c44298fc1c149afbf4c8996fb92427ae41e4649b934ca495991b7852b855".
Proof. by vm_compute. Qed.

Example sha256_two_blocks :
  Sha256.hexdigest (b "abcdbcdecdefdefgefghfghighijhijkijkljklmklmnlmnomnopnopq")
  = u "248d6a61d20638b8e5c026930c3e6039a33ce45964ff2167f6ecedd419db06c1".
Proof. by vm_compute. Qed.

End Hashing.

(** ** The pin set *)

Section Pins.

Lemma load_pinned_missing (env : Env) (pin : option (list str)) (w : World) :
  pin = None ∨ pin = Some [] ->
  path_exists w (PIN_FILE env) = false ->
  load_pinned env pin w = (Ok ∅, w).
Proof. intros [-> | ->] H; unfold load_pinned, bind; by rewrite H. Qed.

Lemma load_pinned_file (env : Env) (pin : option (list str)) (w : World)
    (f : file) (text : str) :
  pin = None ∨ pin = Some [] ->
  files w !! PIN_FILE env = Some f ->
  Utf8.decode (data f) = Ok text ->
  load_pinned env pin w
  = (Ok (list_to_set (map (fun l => resolve env (Py.strip l))
                          (Py.splitlines (Py.translate_newlines text)))), w).
Proof.
  intros Hpin Hf Htext.
  assert (Hex : path_exists w (PIN_FILE env) = true).
  { unfold path_exists, isfile. rewrite Hf.
    rewrite (bool_decide_eq_true_2 _ (mk_is_Some _ _ eq_refl)). apply orb_true_r. }
  destruct Hpin as [-> | ->]; unfold load_pinned, bind, read_text, bind, open_rb, lift, ret;
    by rewrite Hex, Hf, Htext.
Qed.

(** Without blank lines the code and the specification read the same
    set. *)
Lemma pins_without_blank_lines (env : Env) (text : str) :
  Forall (fun l => Py.strip l ≠ []) (Py.splitlines text) ->
  list_to_set (map (fun l => resolve env (Py.strip l)) (Py.splitlines text))
  = pins_of_text_spec env text.
Proof.
  unfold pins_of_text_spec. generalize (Py.splitlines text) as lines.
  induction lines as [|l lines IH]; intros Hall; simpl; [done|].
  inversion Hall as [|? ? Hl Hrest]; subst.
  rewrite filter_cons. destruct (Py.strip l) as [|c s] eqn:E; [done|].
  simpl. f_equal. by apply IH.
Qed.

(** C7, as the code has it. With no pin paths on the command line the pin
    set is read from the pin file: every line, blank ones included, is
    stripped and resolved, so a blank line contributes the resolution of the
    empty path; when no line is blank this is the set of the specification;
    a missing pin file yields the empty set. *)
Theorem load_pinned_reads_every_line
    (env : Env) (pin : option (list str)) (w w0 : World) (f : file) (text : str) :
  pin = None ∨ pin = Some [] ->
  files w !! PIN_FILE env = Some f ->
  Utf8.decode (data f) = Ok text ->
  path_exists w0 (PIN_FILE env) = false ->
  load_pinned env pin w
  = (Ok (list_to_set (map (fun l => resolve env (Py.strip l))
                          (Py.splitlines (Py.translate_newlines text)))), w)
  ∧ (Forall (fun l => Py.strip l ≠ []) (Py.splitlines (Py.translate_newlines text)) ->
     load_pinned env pin w
     = (Ok (pins_of_text_spec env (Py.translate_newlines text)), w))
  ∧ load_pinned env pin w0 = (Ok ∅, w0).
Proof.
  intros Hpin Hf Htext Hmiss.
  split; [by eapply load_pinned_file|].
  split; [|by apply load_pinned_missing].
  intros Hall. erewrite load_pinned_file by done.
  by rewrite pins_without_blank_lines.
Qed.

Lemma load_pinned_reads_every_line_witness :
  fst (load_pinned (demo_env []) None
         (demo_world [(PIN_FILE (demo_env []), example_pins)]))
  = Ok {[ u "/opt/a"; u "/home/me"; u "/opt/b" ]}.
Proof.
  pose proof (load_pinned_reads_every_line (demo_env []) None
    (demo_world [(PIN_FILE (demo_env []), example_pins)]) (demo_world [])
    (File example_pins 420) (u "/opt/a" ++ [10; 10] ++ u "/opt/b" ++ [10])) as H.
  destruct H as (H & _); [by left | by vm_compute ..|].
  rewrite H. reflexivity.
Defined.

(** C7, as the specification has it, fails: a pin file with a blank line
    pins the current directory, which the specification's set does not
    contain. *)
Lemma load_pinned_blank_line_counterexample :
  exists pins : gset (list N),
    fst (load_pinned (demo_env []) None
           (demo_world [(PIN_FILE (demo_env []), example_pins)])) = Ok pins
    ∧ u "/home/me" ∈ pins
    ∧ (u "/home/me" ∉ pins_of_text_spec (demo_env [])
                         (u "/opt/a" ++ [10; 10] ++ u "/opt/b" ++ [10]))
    ∧ pins ≠ pins_of_text_spec (demo_env [])
               (u "/opt/a" ++ [10; 10] ++ u "/opt/b" ++ [10]).
Proof.
  exists (list_to_set
            (map (fun l => resolve (demo_env []) (Py.strip l))
                 (Py.splitlines (Py.translate_newlines
                                   (u "/opt/a" ++ [10; 10] ++ u "/opt/b" ++ [10]))))).
  assert (Hin : u "/home/me"
                ∈ (list_to_set
                     (map (fun l => resolve (demo_env []) (Py.strip l))
                          (Py.splitlines (Py.translate_newlines
                             (u "/opt/a" ++ [10; 10] ++ u "/opt/b" ++ [10]))))
                   : gset (list N)))
    by (apply (bool_decide_eq_true_1 (_ ∈ _)); reflexivity).
  assert (Hout : u "/home/me" ∉ pins_of_text_spec (demo_env [])
                   (u "/opt/a" ++ [10; 10] ++ u "/opt/b" ++ [10]))
    by (apply (bool_decide_eq_false_1 (_ ∈ _)); reflexivity).
  split; [|split; [done|split; [done|]]].
  - erewrite load_pinned_file; [reflexivity | by left | reflexivity | reflexivity].
  - intros Heq. by rewrite Heq in Hin.
Qed.

End Pins.

(** ** Effects of the building blocks *)

Section Effects.

Context {A B : Type}.

Global Instance extends_preorder (P : event -> Prop) : PreOrder (extends P).
Proof.
  split.
  - intros w. exists []. by rewrite app_nil_r.
  - intros w1 w2 w3 (e1 & H1 & F1) (e2 & H2 & F2). exists (e1 ++ e2). split.
    + by rewrite H2, H1, app_assoc.
    + by apply Forall_app.
Qed.

Global Instance same_files_preorder : PreOrder same_files.
Proof.
  split; [by intros w|]. unfold same_files. intros w1 w2 w3 H1 H2. congruence.
Qed.

Lemma extends_mono (P Q : event -> Prop) (w w' : World) :
  (forall e, P e -> Q e) -> extends P w w' -> extends Q w w'.
Proof.
  intros HPQ (evs & Ht & Hf). exists evs. split; [done|].
  eapply Forall_impl; eauto.
Qed.

Lemma respects_mono (R S : World -> World -> Prop) (m : M A) :
  (forall w w', R w w' -> S w w') -> respects R m -> respects S m.
Proof. intros HRS Hm w r w' E. eauto. Qed.

Lemma respects_ret R `{!Reflexive R} (a : A) : respects R (ret a).
Proof. intros w r w' [= <- <-]. reflexivity. Qed.

Lemma respects_raise R `{!Reflexive R} (e : exn) : respects R (@raise A e).
Proof. intros w r w' [= <- <-]. reflexivity. Qed.

Lemma respects_lift R `{!Reflexive R} (x : result A) : respects R (lift x).
Proof. intros w r w' [= <- <-]. reflexivity. Qed.

Lemma respects_bind R `{!PreOrder R} (m : M A) (k : A -> M B) :
  respects R m -> (forall a, respects R (k a)) -> respects R (bind m k).
Proof.
  intros Hm Hk w r w' E. unfold bind in E.
  destruct (m w) as [[a|e] w1] eqn:Em.
  - transitivity w1; [by eapply Hm | by eapply Hk].
  - injection E as <- <-. by eapply Hm.
Qed.

(** A computation that only reads leaves the world as it is. *)
Lemma respects_unchanged R `{!Reflexive R} (m : M A) :
  respects unchanged m -> respects R m.
Proof. intros Hm w r w' E. rewrite (Hm _ _ _ E). reflexivity. Qed.

End Effects.

Section Primitives.

Global Instance unchanged_preorder : PreOrder unchanged.
Proof. split; [by intros w|]. unfold unchanged. intros w1 w2 w3 H1 H2. congruence. Qed.

Global Instance grew_preorder : PreOrder grew.
Proof.
  split.
  - intros w. repeat split. exists []. simpl.
    split; [by rewrite app_nil_r|by rewrite (left_id_L ∅ (∪))].
  - intros w1 w2 w3 (F1 & T1 & d1 & E1 & D1) (F2 & T2 & d2 & E2 & D2).
    split; [congruence|]. split; [congruence|]. exists (d1 ++ d2). split.
    + by rewrite E2, E1, map_app, app_assoc.
    + rewrite D2, D1, list_to_set_app_L, (assoc_L (∪)).
      by rewrite (comm_L (∪) (list_to_set d2)).
Qed.

Lemma log_run (env : Env) (msg : str) (log_enabled : bool) (w : World) :
  log env msg log_enabled w = (Ok tt, logged env msg log_enabled w).
Proof.
  unfold log, bind, now, print, emit, ret, logged, log_line.
  destruct log_enabled; simpl; [|done]. by rewrite <- app_assoc.
Qed.

Lemma mkdir_grew (p : str) : respects grew (mkdir p).
Proof.
  intros w r w' E. unfold mkdir in E.
  destruct (negb (nonempty p)); [injection E as <- <-; reflexivity|].
  destruct (path_exists w p); [injection E as <- <-; reflexivity|].
  destruct (parent_ok w p); injection E as <- <-; [|reflexivity].
  repeat split. exists [p]. simpl. split; [done|by rewrite (right_id_L ∅ (∪))].
Qed.

Lemma mkdir_exist_ok_grew (name : str) : respects grew (mkdir_exist_ok name).
Proof.
  intros w r w' E. unfold mkdir_exist_ok in E.
  destruct (mkdir name w) as [[[]|e] w1] eqn:Em.
  - injection E as <- <-. by eapply mkdir_grew.
  - destruct (isdir w1 name); injection E as <- <-; by eapply mkdir_grew.
Qed.

Lemma pass_file_exists_grew (m : M unit) :
  respects grew m -> respects grew (pass_file_exists m).
Proof.
  intros Hm w r w' E. unfold pass_file_exists in E.
  destruct (m w) as [[[]|e] w1] eqn:Em.
  - injection E as <- <-. by eapply Hm.
  - destruct e; injection E as <- <-; by eapply Hm.
Qed.

Lemma makedirs_grew (name : str) : respects grew (makedirs name).
Proof.
  funelim (makedirs name).
  - apply mkdir_exist_ok_grew.
  - intros w r w' Ew.
    destruct (nonempty hd && negb (path_exists w hd)).
    + revert Ew. apply (respects_bind grew).
      * apply pass_file_exists_grew.
        match goal with IH : World -> World -> respects grew _ |- _ => exact (IH w w) end.
      * intros []. destruct (bool_decide _); [apply respects_ret, _|].
        apply mkdir_exist_ok_grew.
    + by eapply mkdir_exist_ok_grew.
Qed.

Lemma grew_extends (P : event -> Prop) (w w' : World) :
  (forall d, P (Mkdir d)) -> grew w w' -> extends P w w'.
Proof.
  intros HP (_ & _ & ds & Ht & _). exists (map Mkdir ds). split; [done|].
  apply Forall_forall. intros e He. apply list_elem_of_In, in_map_iff in He.
  destruct He as (d & <- & _). apply HP.
Qed.

Lemma grew_same_files (w w' : World) : grew w w' -> same_files w w'.
Proof. by intros (H & _). Qed.

Lemma extends_one (P : event -> Prop) (w w' : World) (e : event) :
  trace w' = trace w ++ [e] -> P e -> extends P w w'.
Proof. intros Ht He. exists [e]. split; [done|]. by constructor. Qed.

Lemma emit_extends (P : event -> Prop) (e : event) :
  P e -> respects (extends P) (emit e).
Proof. intros He w r w' [= <- <-]. by eapply extends_one. Qed.

Lemma now_extends (P : event -> Prop) (env : Env) : respects (extends P) (now env).
Proof. intros w r w' [= <- <-]. exists []. simpl. by rewrite app_nil_r. Qed.

Lemma log_extends (P : event -> Prop) (env : Env) (msg : str) (log_enabled : bool) :
  (forall t, P (Print t)) -> (forall t, P (LogAppend t)) ->
  respects (extends P) (log env msg log_enabled).
Proof.
  intros Hp Hl w r w' E. rewrite log_run in E. injection E as <- <-.
  eexists. split; [reflexivity|].
  constructor; [apply Hp|]. destruct log_enabled; repeat constructor. apply Hl.
Qed.

Lemma log_same_files (env : Env) (msg : str) (log_enabled : bool) :
  respects same_files (log env msg log_enabled).
Proof. intros w r w' E. rewrite log_run in E. by injection E as <- <-. Qed.

Lemma query_unchanged {X} (f : World -> X) :
  respects unchanged (fun w => (Ok (f w), w)).
Proof. by intros w r w' [= <- <-]. Qed.

Lemma open_rb_unchanged (p : str) : respects unchanged (open_rb p).
Proof.
  intros w r w' E. unfold open_rb in E.
  destruct (files w !! p); [|destruct (isdir w p)]; by injection E as <- <-.
Qed.

Lemma read_text_unchanged (p : str) : respects unchanged (read_text p).
Proof.
  unfold read_text. apply respects_bind; [apply _|apply open_rb_unchanged|].
  intros content. apply respects_bind; [apply _|apply respects_lift, _|].
  intros text. apply respects_ret, _.
Qed.

Lemma sha256_unchanged (p : str) : respects unchanged (sha256 p).
Proof.
  unfold sha256. apply respects_bind; [apply _|apply open_rb_unchanged|].
  intros f. apply respects_ret, _.
Qed.

Lemma parse_zshrc_unchanged (zshrc : str) : respects unchanged (parse_zshrc zshrc).
Proof.
  unfold parse_zshrc. apply respects_bind; [apply _|apply query_unchanged|].
  intros present. destruct (negb present); [apply respects_ret, _|].
  apply respects_bind; [apply _|apply read_text_unchanged|].
  intros text. apply respects_lift, _.
Qed.

Lemma write_bytes_extends (P : event -> Prop) (env : Env) (p : str) (c : bytes) :
  P (WriteBytes p c) -> respects (extends P) (write_bytes env p c).
Proof.
  intros HP w r w' E. unfold write_bytes in E.
  destruct (isdir w p); [injection E as <- <-; reflexivity|].
  destruct (files w !! p).
  - injection E as <- <-. by eapply extends_one.
  - destruct (parent_ok w p); injection E as <- <-; [by eapply extends_one|reflexivity].
Qed.

Lemma rename_file_extends (P : event -> Prop) (src dst : str) :
  P (Rename src dst) -> respects (extends P) (rename_file src dst).
Proof.
  intros HP w r w' E. unfold rename_file in E.
  destruct (files w !! src); [|injection E as <- <-; reflexivity].
  destruct (isdir w dst); [injection E as <- <-; reflexivity|].
  destruct (parent_ok w dst || isfile w dst); injection E as <- <-;
    [by eapply extends_one|reflexivity].
Qed.

Lemma shutil_move_extends (P : event -> Prop) (src dst : str) :
  (forall x, P (Rename src x)) -> respects (extends P) (shutil_move src dst).
Proof.
  intros HP w r w' E. unfold shutil_move in E.
  destruct (isdir w dst).
  - destruct (path_exists w _); [injection E as <- <-; reflexivity|].
    by eapply rename_file_extends.
  - by eapply rename_file_extends.
Qed.

Lemma urlopen_read_extends (P : event -> Prop) (env : Env) (url : str) :
  P (UrlOpen url) -> respects (extends P) (urlopen_read env url).
Proof.
  intros HP. unfold urlopen_read.
  apply respects_bind; [apply _|by apply emit_extends|].
  intros []. apply respects_ret, _.
Qed.

Lemma show_diff_extends (P : event -> Prop) (env : Env) (dest : str) (c : bytes) :
  (forall t, P (Print t)) -> respects (extends P) (show_diff env dest c).
Proof.
  intros HP. unfold show_diff.
  apply respects_bind; [apply _|apply respects_unchanged, read_text_unchanged; apply _|].
  intros text. cbv zeta. destruct (nonempty _); [|apply respects_ret, _].
  apply emit_extends, HP.
Qed.

Lemma for_each_respects {X} R `{!PreOrder R} (l : list X) (body : X -> M unit) :
  (forall x, respects R (body x)) -> respects R (for_each l body).
Proof.
  intros Hb. induction l as [|x l IH]; simpl; [apply respects_ret, _|].
  apply respects_bind; [apply _|apply Hb|]. by intros [].
Qed.

End Primitives.

(** ** Events of [fetch_file] and of a sync run *)

Section Events.

Variables (env : Env) (pinned : gset (list N)).

Lemma fetch_file_events (path dest : str) (dry_run diff log_enabled : bool) :
  respects (extends (fetch_event env dry_run pinned path dest))
           (fetch_file env path dest dry_run diff pinned log_enabled).
Proof.
  unfold fetch_file. cbv zeta.
  destruct (bool_decide (resolve env dest ∈ pinned)) eqn:Hp.
  { by apply log_extends. }
  apply bool_decide_eq_false in Hp.
  apply respects_bind; [apply _| |intros []].
  { eapply respects_mono; [|apply makedirs_grew].
    intros w w'. by apply grew_extends. }
  destruct dry_run; [by apply log_extends|].
  apply respects_bind; [apply _|by apply urlopen_read_extends|].
  intros [e|content]; [by apply log_extends|].
  apply respects_bind; [apply _| |intros []].
  { apply respects_bind; [apply _|apply respects_unchanged, query_unchanged; apply _|].
    intros [|]; [|apply respects_ret, _].
    apply respects_bind; [apply _|apply respects_unchanged, sha256_unchanged; apply _|].
    intros old_hash. cbv zeta. destruct (bool_decide _); [|apply respects_ret, _].
    apply respects_bind; [apply _| |intros []].
    { destruct diff; [by apply show_diff_extends|apply respects_ret, _]. }
    apply respects_bind; [apply _|apply now_extends|]. intros ts. cbv zeta.
    apply respects_bind; [apply _|by apply shutil_move_extends|]. intros [].
    by apply log_extends. }
  apply respects_bind; [apply _|by apply write_bytes_extends|]. intros [].
  apply respects_bind; [apply _|by apply log_extends|]. intros [].
  apply respects_bind; [apply _|apply respects_unchanged, sha256_unchanged; apply _|].
  intros h. apply emit_extends. simpl. eauto.
Qed.

Lemma fetch_file_dry_run_same_files (path dest : str) (diff log_enabled : bool) :
  respects same_files (fetch_file env path dest true diff pinned log_enabled).
Proof.
  unfold fetch_file. cbv zeta.
  destruct (bool_decide _); [apply log_same_files|].
  apply respects_bind; [apply _| |intros []; apply log_same_files].
  eapply respects_mono; [|apply makedirs_grew]. apply grew_same_files.
Qed.

Lemma fetch_file_sync_events (path : str) (dry_run diff log_enabled : bool) :
  respects (extends (sync_event env dry_run pinned))
           (fetch_file env path (Path.join (OHMYZSH_DIR env) path)
                       dry_run diff pinned log_enabled).
Proof.
  eapply respects_mono; [|apply fetch_file_events].
  intros w w'. apply extends_mono. intros e He. by exists path.
Qed.

Lemma sync_events (zshrc : str) (dry_run diff log_enabled : bool) :
  respects (extends (sync_event env dry_run pinned))
           (sync_plugins_and_theme env zshrc dry_run diff pinned log_enabled).
Proof.
  unfold sync_plugins_and_theme.
  apply respects_bind; [apply _|apply respects_unchanged, parse_zshrc_unchanged; apply _|].
  intros parsed. cbv zeta.
  repeat (apply respects_bind;
          [apply _
          |apply for_each_respects; [apply _|intros f; apply fetch_file_sync_events]
          |intros []]).
  apply respects_bind; [apply _| |intros []].
  { destruct (snd parsed) as [[|c t]|]; try apply respects_ret, _.
    apply fetch_file_sync_events. }
  apply log_extends; intros t; by exists [].
Qed.

Lemma sync_dry_run_same_files (zshrc : str) (diff log_enabled : bool) :
  respects same_files (sync_plugins_and_theme env zshrc true diff pinned log_enabled).
Proof.
  unfold sync_plugins_and_theme.
  apply respects_bind; [apply _|apply respects_unchanged, parse_zshrc_unchanged; apply _|].
  intros parsed. cbv zeta.
  repeat (apply respects_bind;
          [apply _
          |apply for_each_respects; [apply _|intros f; apply fetch_file_dry_run_same_files]
          |intros []]).
  apply respects_bind; [apply _| |intros []; apply log_same_files].
  destruct (snd parsed) as [[|c t]|]; try apply respects_ret, _.
  apply fetch_file_dry_run_same_files.
Qed.

Lemma sync_event_dry_run_quiet (e : event) : sync_event env true pinned e -> quiet e.
Proof. intros [path He]. destruct e; simpl in *; try done; by destruct He as (_ & ? & _). Qed.

End Events.

(** ** Pinned destinations *)

Section Pinned.

Variables (env : Env) (pinned : gset (list N)).

Lemma fetch_file_pinned (path dest : str) (dry_run diff log_enabled : bool) (w : World) :
  resolve env dest ∈ pinned ->
  fetch_file env path dest dry_run diff pinned log_enabled w
  = (Ok tt, logged env (msg_pinned (resolve env dest)) log_enabled w).
Proof.
  intros Hp. unfold fetch_file. cbv zeta.
  rewrite bool_decide_eq_true_2 by done. apply log_run.
Qed.

End Pinned.

(** C1. A destination whose resolved path is in the pin set is only
    logged as skipped by [fetch_file], whatever the remote content and the
    dry-run and diff flags; and a whole sync run neither requests its remote
    path, nor writes it, nor moves or copies it to a backup. *)
Theorem pinned_destination_only_logged
    (env : Env) (pinned : gset (list N)) (path dest zshrc : str)
    (dry_run diff log_enabled : bool) (w w' : World) (r : result unit) :
  resolve env dest ∈ pinned ->
  resolve env (Path.join (OHMYZSH_DIR env) path) ∈ pinned ->
  sync_plugins_and_theme env zshrc dry_run diff pinned log_enabled w = (r, w') ->
  fetch_file env path dest dry_run diff pinned log_enabled w
  = (Ok tt, logged env (msg_pinned (resolve env dest)) log_enabled w)
  ∧ exists evs,
      trace w' = trace w ++ evs
      ∧ (UrlOpen (REPO_RAW ++ u "/" ++ path) ∉ evs)
      ∧ (forall c, WriteBytes (Path.join (OHMYZSH_DIR env) path) c ∉ evs)
      ∧ (forall x, Rename (Path.join (OHMYZSH_DIR env) path) x ∉ evs)
      ∧ (forall x, CopyFile (Path.join (OHMYZSH_DIR env) path) x ∉ evs).
Proof.
  intros Hdest Hpin Hrun. split; [by apply fetch_file_pinned|].
  destruct (sync_events env pinned zshrc dry_run diff log_enabled _ _ _ Hrun)
    as (evs & Ht & Hall).
  exists evs. split; [done|].
  rewrite Forall_forall in Hall.
  split; [|split; [|split]].
  - intros Hin. destruct (Hall _ Hin) as (p & Hnp & _ & Heq).
    apply app_inv_head, app_inv_head in Heq. by subst p.
  - intros c Hin. destruct (Hall _ Hin) as (p & Hnp & _ & Heq). by rewrite Heq in Hpin.
  - intros x Hin. destruct (Hall _ Hin) as (p & Hnp & _ & Heq). by rewrite Heq in Hpin.
  - intros x Hin. by destruct (Hall _ Hin) as (p & []).
Qed.

Lemma pinned_destination_only_logged_witness :
  trace (snd (fetch_file (demo_env []) (u "oh-my-zsh.sh")
                (u "/home/me/.oh-my-zsh/oh-my-zsh.sh") false true core_pinned true
                fresh_world))
  = [Print (u "[2024-05-17 09:30:00] " ++ [0x1F512]
            ++ u " Skipped pinned file: /home/me/.oh-my-zsh/oh-my-zsh.sh");
     LogAppend (u "[2024-05-17 09:30:00] " ++ [0x1F512]
                ++ u " Skipped pinned file: /home/me/.oh-my-zsh/oh-my-zsh.sh" ++ [10])].
Proof.
  pose proof (pinned_destination_only_logged (demo_env []) core_pinned
    (u "oh-my-zsh.sh") (u "/home/me/.oh-my-zsh/oh-my-zsh.sh") (u "/home/me/.zshrc")
    false true true fresh_world
    (snd (sync_plugins_and_theme (demo_env []) (u "/home/me/.zshrc") false true
            core_pinned true fresh_world))
    (fst (sync_plugins_and_theme (demo_env []) (u "/home/me/.zshrc") false true
            core_pinned true fresh_world))) as H.
  destruct H as (H & _).
  - apply elem_of_singleton. reflexivity.
  - apply elem_of_singleton. reflexivity.
  - by destruct (sync_plugins_and_theme _ _ _ _ _ _ _).
  - rewrite H. reflexivity.
Defined.

(** ** Dry runs *)

Lemma fetch_file_dry_run (env : Env) (pinned : gset (list N)) (path dest : str)
    (diff log_enabled : bool) (w w1 : World) :
  resolve env dest ∉ pinned ->
  makedirs (Path.dirname dest) w = (Ok tt, w1) ->
  fetch_file env path dest true diff pinned log_enabled w
  = (Ok tt, logged env (msg_dry_run (REPO_RAW ++ u "/" ++ path) dest) log_enabled w1).
Proof.
  intros Hp Hm. unfold fetch_file. cbv zeta.
  rewrite bool_decide_eq_false_2 by done. unfold bind. rewrite Hm. apply log_run.
Qed.

(** C2, as the code has it. In dry-run mode a file that is not pinned is
    neither requested, nor written, nor backed up: once its directory is
    there, [fetch_file] only logs the preview notice; and a whole dry run
    leaves every regular file as it was and produces no event other than
    printing, logging and directory creation. *)
Theorem dry_run_touches_no_file
    (env : Env) (pinned : gset (list N)) (path dest zshrc : str)
    (diff log_enabled : bool) (w w1 w' : World) (r : result unit) :
  resolve env dest ∉ pinned ->
  makedirs (Path.dirname dest) w = (Ok tt, w1) ->
  sync_plugins_and_theme env zshrc true diff pinned log_enabled w = (r, w') ->
  fetch_file env path dest true diff pinned log_enabled w
  = (Ok tt, logged env (msg_dry_run (REPO_RAW ++ u "/" ++ path) dest) log_enabled w1)
  ∧ files w1 = files w
  ∧ files w' = files w
  ∧ exists evs, trace w' = trace w ++ evs ∧ Forall quiet evs.
Proof.
  intros Hp Hm Hrun.
  split; [by apply fetch_file_dry_run|].
  split; [by apply (makedirs_grew _ _ _ _ Hm)|].
  split; [by apply (sync_dry_run_same_files _ _ _ _ _ _ _ _ Hrun)|].
  destruct (sync_events env pinned zshrc true diff log_enabled _ _ _ Hrun)
    as (evs & Ht & Hall).
  exists evs. split; [done|].
  eapply Forall_impl; [exact Hall|]. apply sync_event_dry_run_quiet.
Qed.

Lemma dry_run_touches_no_file_witness :
  files (snd (sync_plugins_and_theme (demo_env []) (u "/home/me/.zshrc") true true ∅ true
                fresh_world))
  = files fresh_world.
Proof.
  pose proof (dry_run_touches_no_file (demo_env []) ∅
    (u "oh-my-zsh.sh") (u "/home/me/.oh-my-zsh/oh-my-zsh.sh") (u "/home/me/.zshrc")
    true true fresh_world fresh_world
    (snd (sync_plugins_and_theme (demo_env []) (u "/home/me/.zshrc") true true ∅ true
            fresh_world))
    (fst (sync_plugins_and_theme (demo_env []) (u "/home/me/.zshrc") true true ∅ true
            fresh_world))) as H.
  destruct H as (_ & _ & H & _).
  - apply not_elem_of_empty.
  - reflexivity.
  - by destruct (sync_plugins_and_theme _ _ _ _ _ _ _).
  - exact H.
Defined.

(** C2, as the specification has it, fails twice: a dry run creates the
    directories of the files it previews, and a pinned file gets the skip
    notice, not the preview notice. *)
Lemma dry_run_counterexample :
  Mkdir (u "/home/me/.oh-my-zsh/lib")
    ∈ trace (snd (sync_plugins_and_theme (demo_env []) (u "/home/me/.zshrc")
                    true false ∅ true fresh_world))
  ∧ (u "/home/me/.oh-my-zsh/lib" ∉ dirs fresh_world)
  ∧ u "/home/me/.oh-my-zsh/lib"
      ∈ dirs (snd (sync_plugins_and_theme (demo_env []) (u "/home/me/.zshrc")
                     true false ∅ true fresh_world))
  ∧ trace (snd (fetch_file (demo_env []) (u "oh-my-zsh.sh")
                  (u "/home/me/.oh-my-zsh/oh-my-zsh.sh") true false core_pinned true
                  fresh_world))
    = [Print (u "[2024-05-17 09:30:00] " ++ [0x1F512]
              ++ u " Skipped pinned file: /home/me/.oh-my-zsh/oh-my-zsh.sh");
       LogAppend (u "[2024-05-17 09:30:00] " ++ [0x1F512]
                  ++ u " Skipped pinned file: /home/me/.oh-my-zsh/oh-my-zsh.sh" ++ [10])].
Proof.
  split; [|split; [|split]].
  - apply (list_elem_of_lookup_2 _ 2%nat). by vm_compute.
  - apply (bool_decide_eq_false_1 (_ ∈ _)). by vm_compute.
  - apply (bool_decide_eq_true_1 (_ ∈ _)). by vm_compute.
  - by vm_compute.
Qed.

(** ** Paths and existing directories *)

Section Paths.

Lemma rsplit_sep_nosep (s : str) : Path.sep ∉ s -> Path.rsplit_sep s = ([], s).
Proof.
  induction s as [|c s IH]; simpl; intros Hn; [done|].
  apply not_elem_of_cons in Hn as [Hne Hn]. rewrite IH by done.
  destruct (c =? Path.sep) eqn:E; [apply N.eqb_eq in E; congruence|done].
Qed.

Lemma rsplit_sep_app (p s : str) :
  Path.sep ∉ s ->
  Path.rsplit_sep (p ++ s) = (fst (Path.rsplit_sep p), snd (Path.rsplit_sep p) ++ s).
Proof.
  intros Hn. induction p as [|c p IH]; simpl; [by rewrite rsplit_sep_nosep|].
  rewrite IH. destruct (Path.rsplit_sep p) as [h t]. simpl.
  destruct h; [destruct (c =? Path.sep)|]; done.
Qed.

Lemma dirname_app (p s : str) :
  Path.sep ∉ s -> Path.dirname (p ++ s) = Path.dirname p.
Proof.
  intros Hn. unfold Path.dirname, Path.split. rewrite rsplit_sep_app by done.
  by destruct (Path.rsplit_sep p).
Qed.

Lemma rsplit_sep_root (p : str) :
  forallb (N.eqb Path.sep) p = true -> Path.rsplit_sep p = (p, []).
Proof.
  induction p as [|c p IH]; [done|]. cbn [forallb Path.rsplit_sep]. intros H.
  apply andb_prop in H as [Hc Hp]. rewrite IH by done.
  apply N.eqb_eq in Hc. subst c. destruct p; [|done]. by rewrite N.eqb_refl.
Qed.

Lemma rstrip_sep_rev_root (r : str) :
  forallb (N.eqb Path.sep) r = true -> Path.rstrip_sep_rev r = [].
Proof.
  induction r as [|c r IH]; [done|]. cbn [forallb Path.rstrip_sep_rev]. intros H.
  apply andb_prop in H as [Hc Hr]. apply N.eqb_eq in Hc. subst c.
  rewrite N.eqb_refl. by apply IH.
Qed.

Lemma forallb_rev_true {X} (f : X -> bool) (l : list X) :
  forallb f l = true -> forallb f (rev l) = true.
Proof. rewrite !forallb_forall. intros H x Hx. apply H. by apply in_rev. Qed.

Lemma split_root (p : str) : is_root p = true -> Path.split p = (p, []).
Proof.
  unfold is_root. intros H. apply andb_prop in H as [_ H].
  unfold Path.split. rewrite rsplit_sep_root by done.
  unfold Path.trim_head. rewrite rstrip_sep_rev_root; [done|].
  by apply forallb_rev_true.
Qed.

Lemma isdir_exists (w : World) (p : str) : isdir w p = true -> path_exists w p = true.
Proof. unfold path_exists. by intros ->. Qed.

Lemma mkdir_exist_ok_existing (w : World) (name : str) :
  isdir w name = true -> mkdir_exist_ok name w = (Ok tt, w).
Proof.
  intros Hd. unfold mkdir_exist_ok, mkdir.
  destruct (negb (nonempty name)); [by rewrite Hd|].
  by rewrite (isdir_exists _ _ Hd), Hd.
Qed.

Lemma makedirs_split_parent (w : World) (name hd tl : str) :
  dirs_closed w -> name ∈ dirs w ->
  makedirs_split name = (hd, tl) -> tl ≠ [] -> nonempty hd = true ->
  isdir w hd = true.
Proof.
  intros Hc Hin Hs Htl Hhd. unfold makedirs_split in Hs.
  pose proof (Hc _ Hin) as Hpar. unfold parent_ok, Path.dirname in Hpar.
  destruct (Path.split name) as [h1 t1] eqn:E1. simpl in Hpar.
  destruct t1 as [|c t1].
  - destruct (nonempty h1) eqn:Hh1; simpl in Hpar.
    + unfold isdir in Hpar. apply orb_prop in Hpar as [Hroot | Hd].
      * rewrite (split_root _ Hroot) in Hs. by injection Hs as <- <-.
      * apply bool_decide_eq_true_1 in Hd. pose proof (Hc _ Hd) as Hpar1.
        unfold parent_ok, Path.dirname in Hpar1. rewrite Hs in Hpar1. simpl in Hpar1.
        by rewrite Hhd in Hpar1.
    + destruct h1; [|done]. by injection Hs as <- <-.
  - injection Hs as <- <-. by rewrite Hhd in Hpar.
Qed.

(** [makedirs] on a directory that is there does nothing. *)
Lemma makedirs_existing (w : World) (name : str) :
  dirs_closed w -> name ∈ dirs w -> makedirs name w = (Ok tt, w).
Proof.
  intros Hc Hin.
  assert (Hd : isdir w name = true).
  { unfold isdir. rewrite (bool_decide_eq_true_2 _ Hin). apply orb_true_r. }
  funelim (makedirs name).
  - by apply mkdir_exist_ok_existing.
  - destruct (nonempty hd) eqn:Hhd; simpl; [|by apply mkdir_exist_ok_existing].
    rewrite (isdir_exists w hd); [by apply mkdir_exist_ok_existing|].
    by eapply makedirs_split_parent.
Qed.

End Paths.

(** ** Time stamps *)

Section Stamps.

Lemma decimal_aux_digits (fuel : nat) (n : N) (acc : str) :
  Forall is_digit acc -> Forall is_digit (decimal_aux fuel n acc).
Proof.
  revert n acc. induction fuel as [|fuel IH]; intros n acc Hacc; cbn [decimal_aux]; [done|].
  cbv zeta.
  assert (Forall is_digit ((48 + n mod 10) :: acc)) as Hacc'.
  { constructor; [|done]. unfold is_digit.
    assert (n mod 10 < 10) as Hm by (apply N.mod_lt; lia).
    revert Hm. generalize (n mod 10). intros m Hm. lia. }
  destruct (n <? 10); [done|]. by apply IH.
Qed.

Lemma zfill_digits (width : nat) (s : str) :
  Forall is_digit s -> Forall is_digit (zfill width s).
Proof.
  intros Hs. unfold zfill. apply Forall_app. split; [|done].
  apply Forall_forall. intros c Hc. apply list_elem_of_In, repeat_spec in Hc.
  subst c. unfold is_digit. lia.
Qed.

Lemma fmt_2_digits (n : N) : Forall is_digit (fmt_2 n).
Proof. apply zfill_digits, decimal_aux_digits. constructor. Qed.

Lemma fmt_Y_digits (d : datetime) : Forall is_digit (fmt_Y d).
Proof. apply zfill_digits, decimal_aux_digits. constructor. Qed.

Lemma strftime_stamp_digits (d : datetime) : Forall is_digit (strftime_stamp d).
Proof.
  unfold strftime_stamp. rewrite !Forall_app.
  repeat split; first [apply fmt_Y_digits | apply fmt_2_digits].
Qed.

Lemma decimal_small (n : N) : n < 10 -> decimal n = [48 + n].
Proof.
  intros Hn. unfold decimal. cbn [decimal_aux]. cbv zeta.
  rewrite (proj2 (N.ltb_lt _ _) Hn). by rewrite N.mod_small.
Qed.

Lemma decimal_aux_step (fuel : nat) (n : N) (acc : str) :
  10 <= n ->
  decimal_aux (S fuel) n acc = decimal_aux fuel (n / 10) ((48 + n mod 10) :: acc).
Proof. intros Hn. cbn [decimal_aux]. cbv zeta. by rewrite (proj2 (N.ltb_ge _ _) Hn). Qed.

Lemma decimal_aux_last (fuel : nat) (n : N) (acc : str) :
  n < 10 -> decimal_aux (S fuel) n acc = (48 + n) :: acc.
Proof.
  intros Hn. cbn [decimal_aux]. cbv zeta.
  rewrite (proj2 (N.ltb_lt _ _) Hn). by rewrite N.mod_small.
Qed.

Lemma log2_fuel (n k : N) :
  2 ^ k <= n -> (N.to_nat k <= N.to_nat (N.log2 n))%nat.
Proof.
  intros H. assert (k <= N.log2 n); [|lia].
  rewrite <- (N.log2_pow2 k) by lia. by apply N.log2_le_mono.
Qed.

Lemma fmt_2_length (n : N) : n <= 99 -> length (fmt_2 n) = 2%nat.
Proof.
  intros Hn. unfold fmt_2. destruct (N.lt_ge_cases n 10) as [Hs|Hb].
  - by rewrite decimal_small.
  - unfold decimal.
    pose proof (log2_fuel n 3 ltac:(simpl; lia)) as Hfuel.
    destruct (N.to_nat (N.log2 n)) as [|k]; [simpl in Hfuel; lia|].
    rewrite decimal_aux_step by done.
    rewrite decimal_aux_last; [done|].
    apply N.Div0.div_lt_upper_bound. lia.
Qed.

Lemma fmt_Y_length (d : datetime) :
  1000 <= year d <= 9999 -> length (fmt_Y d) = 4%nat.
Proof.
  intros [Hlo Hhi]. unfold fmt_Y, decimal.
  pose proof (log2_fuel (year d) 9 ltac:(simpl; lia)) as Hfuel.
  destruct (N.to_nat (N.log2 (year d))) as [|[|[|k]]]; try (simpl in Hfuel; lia).
  assert (100 <= year d / 10) by (apply N.div_le_lower_bound; lia).
  assert (10 <= year d / 10 / 10) by (apply N.div_le_lower_bound; lia).
  assert (year d / 10 / 10 / 10 < 10).
  { repeat (apply N.Div0.div_lt_upper_bound). lia. }
  rewrite decimal_aux_step by lia.
  rewrite decimal_aux_step by lia.
  rewrite decimal_aux_step by lia.
  by rewrite decimal_aux_last.
Qed.


Lemma stamp_suffix_no_sep (d : datetime) : Path.sep ∉ u "." ++ strftime_stamp d.
Proof.
  apply not_elem_of_app. split; [by apply not_in_literal|].
  intros Hin. pose proof (strftime_stamp_digits d) as Hd.
  rewrite Forall_forall in Hd. specialize (Hd _ Hin).
  unfold is_digit, Path.sep in Hd. lia.
Qed.

End Stamps.

(** ** An outdated local file *)

Section Outdated.

Variables (env : Env) (pinned : gset (list N)).

Lemma path_exists_file (w : World) (p : str) (f : file) :
  files w !! p = Some f -> path_exists w p = true.
Proof.
  intros Hf. unfold path_exists, isfile. rewrite Hf.
  rewrite (bool_decide_eq_true_2 _ (mk_is_Some _ _ eq_refl)). apply orb_true_r.
Qed.

Lemma show_diff_run (dest : str) (content : bytes) (w : World) (f : file) (text : str) :
  files w !! dest = Some f -> Utf8.decode (data f) = Ok text ->
  show_diff env dest content w
  = (Ok tt, MkWorld (files w) (dirs w) (ticks w)
                    (trace w ++ diff_output env dest (data f) content)).
Proof.
  intros Hf Ht. unfold show_diff, read_text, bind, open_rb, lift, ret, diff_output.
  rewrite Hf, Ht. cbv zeta.
  destruct (nonempty _); [done|]. rewrite app_nil_r. by destruct w.
Qed.

Lemma shutil_move_run (src dst : str) (w : World) (f : file) :
  files w !! src = Some f -> isdir w dst = false -> parent_ok w dst = true ->
  shutil_move src dst w
  = (Ok tt, MkWorld (<[dst := f]> (delete src (files w))) (dirs w) (ticks w)
                    (trace w ++ [Rename src dst])).
Proof.
  intros Hf Hd Hp. unfold shutil_move, rename_file. by rewrite Hd, Hf, Hp.
Qed.

Lemma write_bytes_new (p : str) (content : bytes) (w : World) :
  files w !! p = None -> isdir w p = false -> parent_ok w p = true ->
  write_bytes env p content w
  = (Ok tt, MkWorld (<[p := File content (N.ldiff 438 (umask env))]> (files w))
                    (dirs w) (ticks w) (trace w ++ [WriteBytes p content])).
Proof. intros Hf Hd Hp. unfold write_bytes. by rewrite Hd, Hf, Hp. Qed.

Lemma write_bytes_over (p : str) (content : bytes) (w : World) (f : file) :
  files w !! p = Some f -> isdir w p = false ->
  write_bytes env p content w
  = (Ok tt, MkWorld (<[p := File content (mode f)]> (files w))
                    (dirs w) (ticks w) (trace w ++ [WriteBytes p content])).
Proof. intros Hf Hd. unfold write_bytes. by rewrite Hd, Hf. Qed.

Lemma parent_ok_of_dir (w : World) (p : str) :
  Path.dirname p ∈ dirs w -> parent_ok w p = true.
Proof.
  intros H. unfold parent_ok, isdir. rewrite (bool_decide_eq_true_2 _ H).
  by rewrite !orb_true_r.
Qed.

Lemma backup_name_differs (w : World) (dest : str) : backup_name env w dest ≠ dest.
Proof.
  unfold backup_name. intros H. apply (f_equal length) in H.
  rewrite !length_app in H. simpl in H. lia.
Qed.

Lemma fetch_file_backs_up_then_writes (path dest : str) (diff log_enabled : bool)
    (w : World) (f : file) (content : bytes) :
  resolve env dest ∉ pinned ->
  dirs_closed w -> Path.dirname dest ∈ dirs w ->
  files w !! dest = Some f -> isdir w dest = false ->
  isdir w (backup_name env w dest) = false ->
  urlopen env (REPO_RAW ++ u "/" ++ path) = inr content ->
  Sha256.hexdigest (data f) ≠ Sha256.hexdigest content ->
  (diff = true -> exists text, Utf8.decode (data f) = Ok text) ->
  fetch_file env path dest false diff pinned log_enabled w
  = (Ok tt, backed_up_and_written env path dest diff log_enabled f content w).
Proof.
  intros Hp Hc Hdir Hf Hnd Hnb Hurl Hne Hdec.
  unfold fetch_file. cbv zeta. rewrite bool_decide_eq_false_2 by done.
  unfold bind at 1. rewrite makedirs_existing by done.
  unfold bind at 1. unfold urlopen_read, bind, emit, ret. rewrite Hurl.
  rewrite (path_exists_file _ dest f) by done.
  rewrite (sha256_of_file _ dest f) by done.
  change (hash_hexdigest (hash_update hash_new content)) with (Sha256.hexdigest content).
  rewrite bool_decide_eq_true_2 by done.
  assert (Hpb : Path.dirname (backup_name env w dest) ∈ dirs w).
  { unfold backup_name. by rewrite dirname_app by apply stamp_suffix_no_sep. }
  assert (Hdiff :
    (if diff then show_diff env dest content else fun w2 => (Ok tt, w2))
      (MkWorld (files w) (dirs w) (ticks w)
               (trace w ++ [UrlOpen (REPO_RAW ++ u "/" ++ path)]))
    = (Ok tt, MkWorld (files w) (dirs w) (ticks w)
                ((trace w ++ [UrlOpen (REPO_RAW ++ u "/" ++ path)])
                 ++ if diff then diff_output env dest (data f) content else []))).
  { destruct diff; [|by rewrite app_nil_r].
    destruct (Hdec eq_refl) as [text Ht]. by erewrite show_diff_run. }
  rewrite Hdiff. unfold now. cbn [files dirs ticks trace].
  fold (backup_name env w dest).
  erewrite shutil_move_run; [|done|done|by apply parent_ok_of_dir].
  rewrite log_run.
  erewrite write_bytes_new; [|cbn [files logged] |done|by apply parent_ok_of_dir].
  2:{ rewrite lookup_insert_ne by apply backup_name_differs. apply lookup_delete_eq. }
  rewrite log_run.
  erewrite sha256_of_file; [|cbn [files logged]; apply lookup_insert_eq].
  cbn [data]. unfold backed_up_and_written. cbv zeta.
  do 2 f_equal. unfold logged, log_line. cbn [files dirs ticks trace].
  by rewrite <- !app_assoc.
Qed.

End Outdated.

(** The happy path in words of the file system: the backup holds the old
    file, the destination holds the fetched bytes, every other path is as
    before, and the diff is printed before the file is moved. *)
Lemma backed_up_and_written_files (env : Env) (path dest : str)
    (diff log_enabled : bool) (f : file) (content : bytes) (w : World) :
  let w' := backed_up_and_written env path dest diff log_enabled f content w in
  files w' !! backup_name env w dest = Some f
  ∧ data <$> files w' !! dest = Some content
  ∧ (forall q, q ≠ dest -> q ≠ backup_name env w dest -> files w' !! q = files w !! q)
  ∧ trace w'
    = trace w ++ [UrlOpen (REPO_RAW ++ u "/" ++ path)]
      ++ (if diff then diff_output env dest (data f) content else [])
      ++ [Rename dest (backup_name env w dest)]
      ++ (Print (log_line env (MkWorld (files w) (dirs w) (S (ticks w)) [])
                          (msg_backed_up (backup_name env w dest)))
          :: if log_enabled
             then [LogAppend (log_line env (MkWorld (files w) (dirs w) (S (ticks w)) [])
                                       (msg_backed_up (backup_name env w dest)) ++ [10])]
             else [])
      ++ [WriteBytes dest content]
      ++ (Print (log_line env (MkWorld (files w) (dirs w) (S (S (ticks w))) [])
                          (msg_fetched path dest))
          :: if log_enabled
             then [LogAppend (log_line env (MkWorld (files w) (dirs w) (S (S (ticks w))) [])
                                       (msg_fetched path dest) ++ [10])]
             else [])
      ++ [HashAppend (path ++ u " " ++ Sha256.hexdigest content ++ [10])].
Proof.
  unfold backed_up_and_written, logged, log_line. cbv zeta. cbn [files dirs ticks trace].
  split; [|split; [|split]].
  - rewrite lookup_insert_ne by (intros H; by apply (backup_name_differs env w dest)).
    apply lookup_insert_eq.
  - by rewrite lookup_insert_eq.
  - intros q Hq Hb. rewrite lookup_insert_ne by done.
    rewrite lookup_insert_ne by done. by rewrite lookup_delete_ne.
  - by rewrite <- !app_assoc.
Qed.

Lemma demo_dirs_closed (fs : list (str * bytes)) : dirs_closed (demo_world fs).
Proof.
  intros d Hd. unfold demo_world, demo_dirs in Hd. cbn [dirs] in Hd.
  rewrite elem_of_list_to_set in Hd.
  repeat (apply elem_of_cons in Hd as [-> | Hd]; [reflexivity|]).
  by apply elem_of_nil in Hd.
Qed.

(** With diff mode on, an outdated local file that does not decode stops
    [fetch_file] right after the fetch. *)
Lemma fetch_file_diff_undecodable (env : Env) (pinned : gset (list N))
    (path dest : str) (log_enabled : bool) (w : World) (f : file) (content : bytes)
    (e : exn) :
  resolve env dest ∉ pinned ->
  dirs_closed w -> Path.dirname dest ∈ dirs w ->
  files w !! dest = Some f ->
  urlopen env (REPO_RAW ++ u "/" ++ path) = inr content ->
  Sha256.hexdigest (data f) ≠ Sha256.hexdigest content ->
  Utf8.decode (data f) = Raise e ->
  fetch_file env path dest false true pinned log_enabled w
  = (Raise e, MkWorld (files w) (dirs w) (ticks w)
                      (trace w ++ [UrlOpen (REPO_RAW ++ u "/" ++ path)])).
Proof.
  intros Hp Hc Hdir Hf Hurl Hne Hdec.
  unfold fetch_file. cbv zeta. rewrite bool_decide_eq_false_2 by done.
  unfold bind at 1. rewrite makedirs_existing by done.
  unfold bind at 1. unfold urlopen_read, bind, emit, ret. rewrite Hurl.
  rewrite (path_exists_file _ dest f) by done.
  rewrite (sha256_of_file _ dest f) by done.
  change (hash_hexdigest (hash_update hash_new content)) with (Sha256.hexdigest content).
  rewrite bool_decide_eq_true_2 by done.
  unfold show_diff, read_text, bind, open_rb, lift. cbn [files]. by rewrite Hf, Hdec.
Qed.

(** C3. With diff mode on, an outdated local file that is not valid UTF-8
    is neither backed up nor replaced: reading it for the diff raises
    [UnicodeDecodeError] right after the fetch, and the sync run stops there
    without processing the remaining files. *)
Theorem diff_of_undecodable_local_file_raises :
  let url := REPO_RAW ++ u "/" ++ u "oh-my-zsh.sh" in
  let stopped := MkWorld (files latin1_world) (dirs latin1_world) 0 [UrlOpen url] in
  fetch_file core_server (u "oh-my-zsh.sh") (u "/home/me/.oh-my-zsh/oh-my-zsh.sh")
             false true ∅ true latin1_world
  = (Raise UnicodeDecodeError, stopped)
  ∧ sync_plugins_and_theme core_server (u "/home/me/.zshrc") false true ∅ true
                           latin1_world
    = (Raise UnicodeDecodeError, stopped).
Proof.
  cbv zeta.
  assert (H : fetch_file core_server (u "oh-my-zsh.sh")
                (u "/home/me/.oh-my-zsh/oh-my-zsh.sh") false true ∅ true latin1_world
              = (Raise UnicodeDecodeError,
                 MkWorld (files latin1_world) (dirs latin1_world) 0
                         [UrlOpen (REPO_RAW ++ u "/" ++ u "oh-my-zsh.sh")])).
  { apply (fetch_file_diff_undecodable core_server ∅ _ _ true latin1_world
             (File [x23; x20; xe9; x0a] 420) (b "# new core")).
    - apply not_elem_of_empty.
    - apply demo_dirs_closed.
    - apply (bool_decide_eq_true_1 (_ ∈ _)). reflexivity.
    - reflexivity.
    - reflexivity.
    - by vm_compute.
    - reflexivity. }
  split; [exact H|].
  unfold sync_plugins_and_theme. unfold bind at 1.
  rewrite parse_zshrc_missing by reflexivity.
  cbn [fst snd CORE_FILES for_each]. unfold bind at 1. unfold bind at 1.
  change (Path.join (OHMYZSH_DIR core_server) (u "oh-my-zsh.sh"))
    with (u "/home/me/.oh-my-zsh/oh-my-zsh.sh").
  by rewrite H.
Qed.

(** ** Transport failures *)

Section Failures.

Variables (env : Env) (pinned : gset (list N)).

Lemma fetch_file_transport_failure (path dest : str) (diff log_enabled : bool)
    (w w1 : World) (e : str) :
  resolve env dest ∉ pinned ->
  makedirs (Path.dirname dest) w = (Ok tt, w1) ->
  urlopen env (REPO_RAW ++ u "/" ++ path) = inl e ->
  fetch_file env path dest false diff pinned log_enabled w
  = (Ok tt,
     logged env (msg_failed (REPO_RAW ++ u "/" ++ path) e) log_enabled
            (MkWorld (files w1) (dirs w1) (ticks w1)
                     (trace w1 ++ [UrlOpen (REPO_RAW ++ u "/" ++ path)]))).
Proof.
  intros Hp Hm Hurl. unfold fetch_file. cbv zeta.
  rewrite bool_decide_eq_false_2 by done. unfold bind at 1. rewrite Hm.
  unfold bind at 1. unfold urlopen_read, bind, emit, ret. rewrite Hurl.
  apply log_run.
Qed.

Lemma bind_assoc {X Y Z} (m : M X) (k : X -> M Y) (h : Y -> M Z) (w : World) :
  bind (bind m k) h w = bind m (fun x => bind (k x) h) w.
Proof. unfold bind. by destruct (m w) as [[x|e] w1]. Qed.

Lemma bind_ext {X Y} (m : M X) (k k' : X -> M Y) (w : World) :
  (forall x w1, k x w1 = k' x w1) -> bind m k w = bind m k' w.
Proof. intros H. unfold bind. destruct (m w) as [[x|e] w1]; [apply H|done]. Qed.

Lemma for_each_app_bind {X Z} (l1 l2 : list X) (body : X -> M unit)
    (k : unit -> M Z) (w : World) :
  bind (for_each (l1 ++ l2) body) k w
  = bind (for_each l1 body) (fun _ => bind (for_each l2 body) k) w.
Proof.
  revert w. induction l1 as [|x l1 IH]; intros w; simpl; [done|].
  rewrite !bind_assoc. apply bind_ext. intros [] w1. apply IH.
Qed.

Lemma for_each_map {X Y} (g : X -> Y) (l : list X) (body : Y -> M unit) :
  for_each (map g l) body = for_each l (fun x => body (g x)).
Proof. induction l as [|x l IH]; simpl; [done|]. by rewrite IH. Qed.

(** The five loops of a sync run are one loop over [sync_targets]. *)
Lemma sync_flat (zshrc : str) (dry_run diff log_enabled : bool) (w : World) :
  sync_plugins_and_theme env zshrc dry_run diff pinned log_enabled w
  = bind (parse_zshrc zshrc) (fun parsed =>
      bind (for_each (sync_targets (fst parsed) (snd parsed)) (fun f =>
              fetch_file env f (Path.join (OHMYZSH_DIR env) f)
                         dry_run diff pinned log_enabled))
           (fun _ => log env ([0x2705] ++ u " Sync complete") log_enabled)) w.
Proof.
  unfold sync_plugins_and_theme, sync_targets. apply bind_ext. intros parsed w1.
  cbv zeta. symmetry.
  rewrite for_each_app_bind. apply bind_ext. intros [] w2.
  rewrite for_each_app_bind. apply bind_ext. intros [] w3.
  rewrite for_each_app_bind. apply bind_ext. intros [] w4.
  rewrite for_each_app_bind, for_each_map. apply bind_ext. intros [] w5.
  destruct (snd parsed) as [[|c t]|]; simpl; try done.
  by rewrite bind_assoc.
Qed.

End Failures.

(** C5. A transport failure is logged and nothing else happens for that
    file: [fetch_file] returns normally, no regular file changes, and the
    events after the directory creation are the request and the failure
    notice (no write, no backup, no ledger line); and the sync run goes on
    with the files after it and ends with its completion notice. *)
Theorem transport_failure_does_not_abort
    (env : Env) (pinned : gset (list N)) (zshrc path e : str)
    (diff log_enabled : bool) (w w1 w1d : World)
    (parsed : list str * option str) (before after : list str) :
  let body := fun f => fetch_file env f (Path.join (OHMYZSH_DIR env) f)
                                  false diff pinned log_enabled in
  let dest := Path.join (OHMYZSH_DIR env) path in
  let url := REPO_RAW ++ u "/" ++ path in
  let w2 := logged env (msg_failed url e) log_enabled
                   (MkWorld (files w1d) (dirs w1d) (ticks w1d)
                            (trace w1d ++ [UrlOpen url])) in
  parse_zshrc zshrc w = (Ok parsed, w) ->
  sync_targets (fst parsed) (snd parsed) = before ++ path :: after ->
  for_each before body w = (Ok tt, w1) ->
  resolve env dest ∉ pinned ->
  makedirs (Path.dirname dest) w1 = (Ok tt, w1d) ->
  urlopen env url = inl e ->
  body path w1 = (Ok tt, w2)
  ∧ files w2 = files w1
  ∧ trace w2
    = trace w1d ++ UrlOpen url
      :: Print (log_line env w1d (msg_failed url e))
      :: (if log_enabled
          then [LogAppend (log_line env w1d (msg_failed url e) ++ [10])] else [])
  ∧ sync_plugins_and_theme env zshrc false diff pinned log_enabled w
    = bind (for_each after body)
           (fun _ => log env ([0x2705] ++ u " Sync complete") log_enabled) w2.
Proof.
  intros body dest url w2 Hparse Htargets Hbefore Hp Hm Hurl.
  assert (Hbody : body path w1 = (Ok tt, w2))
    by (by apply fetch_file_transport_failure).
  split; [done|].
  split; [by apply (makedirs_grew _ _ _ _ Hm)|].
  split.
  { unfold w2, logged, log_line. cbn [files dirs ticks trace].
    by rewrite <- app_assoc. }
  rewrite sync_flat. unfold bind at 1. rewrite Hparse, Htargets.
  fold body. rewrite for_each_app_bind. unfold bind at 1. rewrite Hbefore.
  cbn [for_each]. rewrite bind_assoc. unfold bind at 1. by rewrite Hbody.
Qed.

Lemma transport_failure_does_not_abort_witness :
  fst (fetch_file (demo_env []) (u "oh-my-zsh.sh")
         (Path.join (OHMYZSH_DIR (demo_env [])) (u "oh-my-zsh.sh"))
         false false ∅ true (demo_world []))
  = Ok tt.
Proof.
  pose proof (transport_failure_does_not_abort (demo_env []) ∅
    (u "/home/me/.zshrc") (u "oh-my-zsh.sh") (u "HTTP Error 404: Not Found")
    false true (demo_world []) (demo_world []) (demo_world [])
    ([], None) []
    [u "lib/completion.zsh"; u "lib/history.zsh"; u "lib/key-bindings.zsh";
     u "lib/termcap.zsh"; u "tools/upgrade.sh"; u "tools/install.sh";
     u "tools/uninstall.sh"]) as H.
  cbv zeta in H. destruct H as (H & _).
  - by apply parse_zshrc_missing.
  - reflexivity.
  - reflexivity.
  - apply not_elem_of_empty.
  - apply makedirs_existing; [apply demo_dirs_closed|].
    apply (bool_decide_eq_true_1 (_ ∈ _)). reflexivity.
  - reflexivity.
  - by rewrite H.
Defined.


(** ** What a call leaves alone *)

Section Frame.

Variables (env : Env) (pinned : gset (list N)).

Global Instance frame_preorder (d : str) : PreOrder (frame d).
Proof.
  split; [by intros w q|]. intros w1 w2 w3 H1 H2 q Hq.
  by rewrite (H2 q Hq), (H1 q Hq).
Qed.

Lemma same_files_frame (d : str) (w w' : World) : same_files w w' -> frame d w w'.
Proof. intros H q _. by rewrite H. Qed.

Lemma own_self (d : str) : own d d.
Proof. by left. Qed.

Lemma rsplit_sep_tail_no_sep (p : str) : Path.sep ∉ snd (Path.rsplit_sep p).
Proof.
  induction p as [|c p IH]; simpl; [apply not_elem_of_nil|].
  destruct (Path.rsplit_sep p) as [h t]. simpl in IH.
  destruct h; [destruct (c =? Path.sep) eqn:E|]; simpl; try done.
  apply not_elem_of_cons. split; [|done]. intros Heq. rewrite <- Heq in E.
  by rewrite N.eqb_refl in E.
Qed.

Lemma basename_not_absolute (p : str) :
  Py.startswith [Path.sep] (Path.basename p) = false.
Proof.
  unfold Path.basename. pose proof (rsplit_sep_tail_no_sep p) as H.
  destruct (snd (Path.rsplit_sep p)) as [|c t]; [done|]. cbn [Py.startswith].
  apply not_elem_of_cons in H as [Hc _].
  destruct (Path.sep =? c) eqn:E; [apply N.eqb_eq in E; congruence|done].
Qed.

Lemma emit_same_files (e : event) : respects same_files (emit e).
Proof. by intros w r w' [= <- <-]. Qed.

Lemma now_same_files : respects same_files (now env).
Proof. by intros w r w' [= <- <-]. Qed.

Lemma rename_file_frame (d dst : str) :
  own d dst -> respects (frame d) (rename_file d dst).
Proof.
  intros Hdst w r w' E. unfold rename_file in E.
  destruct (files w !! d); [|injection E as <- <-; reflexivity].
  destruct (isdir w dst); [injection E as <- <-; reflexivity|].
  destruct (parent_ok w dst || isfile w dst); injection E as <- <-; [|reflexivity].
  intros q Hq. cbn [files].
  rewrite lookup_insert_ne by (intros ->; contradiction).
  rewrite lookup_delete_ne; [done|]. intros ->. apply Hq, own_self.
Qed.

Lemma shutil_move_frame (d stamp : str) :
  Forall is_digit stamp -> respects (frame d) (shutil_move d (d ++ u "." ++ stamp)).
Proof.
  intros Hs w r w' E. unfold shutil_move in E.
  destruct (isdir w _).
  - destruct (path_exists w _); [injection E as <- <-; reflexivity|].
    revert E. apply rename_file_frame. right. exists stamp. split; [done|by right].
  - revert E. apply rename_file_frame. right. exists stamp. split; [done|by left].
Qed.

Lemma write_bytes_frame (d : str) (content : bytes) :
  respects (frame d) (write_bytes env d content).
Proof.
  intros w r w' E. unfold write_bytes in E.
  destruct (isdir w d); [injection E as <- <-; reflexivity|].
  destruct (files w !! d).
  - injection E as <- <-. intros q Hq. cbn [files].
    rewrite lookup_insert_ne; [done|]. intros ->. apply Hq, own_self.
  - destruct (parent_ok w d); injection E as <- <-; [|reflexivity].
    intros q Hq. cbn [files].
    rewrite lookup_insert_ne; [done|]. intros ->. apply Hq, own_self.
Qed.

(** [fetch_file] changes no regular file but its destination's own: the
    destination and the place its backup goes to. *)
Lemma fetch_file_frame (path dest : str) (dry_run diff log_enabled : bool) :
  respects (frame dest) (fetch_file env path dest dry_run diff pinned log_enabled).
Proof.
  assert (Hlog : forall msg, respects (frame dest) (log env msg log_enabled)).
  { intros msg. eapply respects_mono; [apply same_files_frame|apply log_same_files]. }
  assert (Hread : forall (X : Type) (m : M X), respects unchanged m -> respects (frame dest) m).
  { intros X m. apply respects_unchanged, _. }
  unfold fetch_file. cbv zeta.
  destruct (bool_decide _); [apply Hlog|].
  apply respects_bind; [apply _| |intros []].
  { eapply respects_mono; [|apply makedirs_grew].
    intros w w' H. by apply same_files_frame, grew_same_files. }
  destruct dry_run; [apply Hlog|].
  apply respects_bind; [apply _| |].
  { unfold urlopen_read. apply respects_bind; [apply _| |intros []; apply respects_ret, _].
    eapply respects_mono; [apply same_files_frame|apply emit_same_files]. }
  intros [e|content]; [apply Hlog|].
  apply respects_bind; [apply _| |intros []].
  { apply respects_bind; [apply _|apply Hread, query_unchanged|].
    intros [|]; [|apply respects_ret, _].
    apply respects_bind; [apply _|apply Hread, sha256_unchanged|].
    intros old_hash. cbv zeta. destruct (bool_decide _); [|apply respects_ret, _].
    apply respects_bind; [apply _| |intros []].
    { destruct diff; [|apply respects_ret, _]. unfold show_diff.
      apply respects_bind; [apply _|apply Hread, read_text_unchanged|].
      intros text. cbv zeta. destruct (nonempty _); [|apply respects_ret, _].
      eapply respects_mono; [apply same_files_frame|apply emit_same_files]. }
    apply respects_bind; [apply _| |].
    { eapply respects_mono; [apply same_files_frame|apply now_same_files]. }
    intros ts. cbv zeta.
    apply respects_bind; [apply _| |intros []; apply Hlog].
    apply shutil_move_frame, strftime_stamp_digits. }
  apply respects_bind; [apply _|apply write_bytes_frame|]. intros [].
  apply respects_bind; [apply _|apply Hlog|]. intros [].
  apply respects_bind; [apply _|apply Hread, sha256_unchanged|].
  intros h. eapply respects_mono; [apply same_files_frame|apply emit_same_files].
Qed.

End Frame.

(** ** The targets of a sync run *)

Section Targets.

Variable env : Env.

Lemma elem_of_sync_targets (plugins : list str) (theme : option str) (p : str) :
  p ∈ sync_targets plugins theme ->
  p ∈ CORE_FILES ++ LIB_FILES ++ TOOLS_FILES
  ∨ (exists X, X ∈ plugins ∧ p = plugin_file X)
  ∨ (exists c t, theme = Some (c :: t) ∧ p = theme_file (c :: t)).
Proof.
  unfold sync_targets. rewrite !elem_of_app. intros [H|[H|[H|[H|H]]]]; [tauto..| |].
  - right. left. apply list_elem_of_fmap in H as (X & -> & HX). eauto.
  - right. right. destruct theme as [[|c t]|]; try by apply elem_of_nil in H.
    apply list_elem_of_singleton in H. eauto.
Qed.

Lemma fixed_cases (p : str) :
  p ∈ CORE_FILES ++ LIB_FILES ++ TOOLS_FILES ->
  p = u "oh-my-zsh.sh" ∨ p = u "lib/completion.zsh" ∨ p = u "lib/history.zsh"
  ∨ p = u "lib/key-bindings.zsh" ∨ p = u "lib/termcap.zsh"
  ∨ p = u "tools/upgrade.sh" ∨ p = u "tools/install.sh" ∨ p = u "tools/uninstall.sh".
Proof.
  unfold CORE_FILES, LIB_FILES, TOOLS_FILES. cbn [app].
  rewrite !elem_of_cons, elem_of_nil. tauto.
Qed.

Lemma target_not_absolute (plugins : list str) (theme : option str) (p : str) :
  p ∈ sync_targets plugins theme -> Py.startswith [Path.sep] p = false.
Proof.
  intros H. apply elem_of_sync_targets in H as [H|[(X & _ & ->)|(c & t & _ & ->)]];
    [|reflexivity..].
  apply fixed_cases in H.
  destruct H as [->|[->|[->|[->|[->|[->|[->| ->]]]]]]]; reflexivity.
Qed.

Lemma root_not_slashed : nonempty (OHMYZSH_DIR env) = true
                         ∧ Py.endswith [Path.sep] (OHMYZSH_DIR env) = false.
Proof.
  unfold OHMYZSH_DIR, Path.join. change (Py.startswith _ (u ".oh-my-zsh")) with false.
  cbv iota. destruct (_ || _).
  - split; [by destruct (HOME env)|]. unfold Py.endswith. by rewrite rev_app_distr.
  - split; [by destruct (HOME env)|]. unfold Py.endswith.
    by rewrite !rev_app_distr.
Qed.

Lemma join_root (p : str) :
  Py.startswith [Path.sep] p = false ->
  Path.join (OHMYZSH_DIR env) p = OHMYZSH_DIR env ++ [Path.sep] ++ p.
Proof.
  intros H. destruct root_not_slashed as [Hn He]. unfold Path.join. rewrite H, He.
  by destruct (OHMYZSH_DIR env).
Qed.

Lemma split_unique (x : N) (a c t t' : str) :
  x ∉ a -> x ∉ c -> a ++ x :: t = c ++ x :: t' -> a = c ∧ t = t'.
Proof.
  revert c. induction a as [|h a IH]; intros c Ha Hc Heq.
  - destruct c as [|h' c]; simpl in Heq; [by injection Heq|].
    injection Heq as <- _. by apply not_elem_of_cons in Hc as [? _].
  - destruct c as [|h' c]; simpl in Heq.
    + injection Heq as -> _. by apply not_elem_of_cons in Ha as [? _].
    + injection Heq as -> Heq. apply not_elem_of_cons in Ha as [_ Ha].
      apply not_elem_of_cons in Hc as [_ Hc].
      destruct (IH c Ha Hc Heq) as [-> ->]. done.
Qed.

Lemma nseps_app (a c : str) : nseps (a ++ c) = (nseps a + nseps c)%nat.
Proof. unfold nseps. by rewrite List.filter_app, length_app. Qed.

Lemma nseps_none (a : str) : Path.sep ∉ a -> nseps a = 0%nat.
Proof.
  induction a as [|c a IH]; intros H; [done|].
  apply not_elem_of_cons in H as [H1 H2]. unfold nseps. cbn [List.filter].
  destruct (Path.sep =? c) eqn:E; [apply N.eqb_eq in E; congruence|]. by apply IH.
Qed.

Lemma digits_without (x : N) (s : str) :
  ¬ is_digit x -> Forall is_digit s -> x ∉ s.
Proof. intros Hx Hs Hin. rewrite Forall_forall in Hs. by apply Hx, Hs. Qed.

(** A backup name ends with a dot or a digit. *)
Lemma dotted_snoc (d s : str) :
  Forall is_digit s ->
  exists a x, d ++ u "." ++ s = a ++ [x] ∧ (x = 46 ∨ is_digit x).
Proof.
  destruct s as [|x s _] using rev_ind; intros Hs.
  - exists d, 46. rewrite app_nil_r. split; [done|by left].
  - exists (d ++ u "." ++ s), x. rewrite <- !app_assoc. split; [done|right].
    apply Forall_app in Hs as [_ Hs]. by inversion Hs.
Qed.

Lemma dotted_last (d s a : str) (c : N) :
  Forall is_digit s -> d ++ u "." ++ s = a ++ [c] -> c = 46 ∨ is_digit c.
Proof.
  intros Hs H. destruct (dotted_snoc d s Hs) as (a' & x & E & Hx).
  rewrite E in H. by apply app_inj_tail in H as [_ <-].
Qed.

(** Two backup names that are equal are backups of the same file. *)
Lemma same_backup_stem (a c s s' : str) :
  Forall is_digit s -> Forall is_digit s' ->
  a ++ u "." ++ s = c ++ u "." ++ s' -> a = c.
Proof.
  intros Hs Hs' H. apply (f_equal (@rev N)) in H. rewrite !rev_app_distr in H.
  change (rev (u ".")) with [46] in H. rewrite <- !app_assoc in H. cbn [app] in H.
  assert (Hd : ¬ is_digit 46) by (unfold is_digit; lia).
  pose proof (split_unique 46 _ _ _ _
                (digits_without 46 _ Hd (Forall_rev Hs))
                (digits_without 46 _ Hd (Forall_rev Hs')) H) as [_ Hac].
  apply (f_equal (@rev N)) in Hac. by rewrite !rev_involutive in Hac.
Qed.

Lemma rsplit_sep_snoc (a : str) (c : N) :
  c ≠ Path.sep ->
  Path.rsplit_sep (a ++ [c])
  = (fst (Path.rsplit_sep a), snd (Path.rsplit_sep a) ++ [c]).
Proof.
  intros Hc. induction a as [|x a IH].
  - cbn [app Path.rsplit_sep fst snd].
    destruct (c =? Path.sep) eqn:E; [apply N.eqb_eq in E; congruence|done].
  - cbn [app Path.rsplit_sep]. rewrite IH.
    destruct (Path.rsplit_sep a) as [h t]. cbn [fst snd].
    destruct h; [destruct (x =? Path.sep)|]; done.
Qed.

Lemma rstrip_sep_snoc (a : str) (c : N) :
  c ≠ Path.sep -> Path.rstrip_sep (a ++ [c]) = a ++ [c].
Proof.
  intros Hc. unfold Path.rstrip_sep. rewrite rev_app_distr. cbn [rev app Path.rstrip_sep_rev].
  destruct (c =? Path.sep) eqn:E; [apply N.eqb_eq in E; congruence|].
  change (c :: rev a) with (rev [c] ++ rev a). by rewrite <- rev_app_distr, rev_involutive.
Qed.

(** The place [shutil.move] picks inside a directory ends as the moved
    path does. *)
Lemma move_into_last (a d0 : str) (c : N) :
  c ≠ Path.sep ->
  exists z, Path.join a (Path.basename (Path.rstrip_sep (d0 ++ [c]))) = z ++ [c].
Proof.
  intros Hc. pose proof (basename_not_absolute (Path.rstrip_sep (d0 ++ [c]))) as Hb.
  revert Hb. rewrite rstrip_sep_snoc by done. unfold Path.basename.
  rewrite rsplit_sep_snoc by done. cbn [snd]. intros Hb.
  unfold Path.join. rewrite Hb. destruct (_ || _).
  - exists (a ++ snd (Path.rsplit_sep d0)). by rewrite <- app_assoc.
  - exists (a ++ [Path.sep] ++ snd (Path.rsplit_sep d0)). by rewrite <- !app_assoc.
Qed.

Lemma join_backup (d s c : str) :
  Forall is_digit s -> Py.startswith [Path.sep] c = false ->
  Path.join (d ++ u "." ++ s) c = d ++ u "." ++ s ++ [Path.sep] ++ c.
Proof.
  intros Hs Hc. destruct (dotted_snoc d s Hs) as (a & x & E & Hx).
  assert (Hne : match d ++ u "." ++ s with [] => true | _ => false end = false)
    by (rewrite E; by destruct a).
  assert (Hend : Py.endswith [Path.sep] (d ++ u "." ++ s) = false).
  { rewrite E. unfold Py.endswith. rewrite rev_app_distr. cbn [rev app Py.startswith].
    destruct (Path.sep =? x) eqn:Ex; [|done]. apply N.eqb_eq in Ex. subst x.
    unfold is_digit, Path.sep in Hx. lia. }
  unfold Path.join. rewrite Hc, Hne, Hend. cbn [orb]. by rewrite <- !app_assoc.
Qed.

(** Every target ends with the letter h or the letter e. *)
Lemma target_last (plugins : list str) (theme : option str) (p : str) :
  p ∈ sync_targets plugins theme ->
  exists p0 c, p = p0 ++ [c] ∧ (c = 104 ∨ c = 101).
Proof.
  intros H. apply elem_of_sync_targets in H as [H|[(X & _ & ->)|(c & t & _ & ->)]].
  - apply fixed_cases in H.
    destruct H as [->|[->|[->|[->|[->|[->|[->| ->]]]]]]];
      match goal with
      | |- exists p0 c, ?l = _ ∧ _ => exists (removelast l), 104; split; [reflexivity|by left]
      end.
  - exists (u "plugins/" ++ X ++ u "/" ++ X ++ u ".plugin.zs"), 104.
    unfold plugin_file. rewrite <- !app_assoc. split; [done|by left].
  - exists (u "themes/" ++ (c :: t) ++ u ".zsh-them"), 101.
    unfold theme_file. rewrite <- !app_assoc. split; [done|by right].
Qed.

(** Two targets: the one does not start with the other and a dot, unless
    both are plugin files. *)
Lemma targets_apart (plugins : list str) (theme : option str) (p p' : str) :
  p ∈ sync_targets plugins theme -> p' ∈ sync_targets plugins theme -> p' ≠ p ->
  Py.startswith (p' ++ u ".") p = false
  ∨ exists X Y, p = plugin_file X ∧ p' = plugin_file Y.
Proof.
  intros Hp Hp' Hne.
  apply elem_of_sync_targets in Hp as [Hp|[(X & HX & ->)|(c & t & Ht & ->)]];
  apply elem_of_sync_targets in Hp' as [Hp'|[(Y & HY & ->)|(c' & t' & Ht' & ->)]].
  - left. apply fixed_cases in Hp, Hp'.
    destruct Hp as [->|[->|[->|[->|[->|[->|[->| ->]]]]]]];
      destruct Hp' as [->|[->|[->|[->|[->|[->|[->| ->]]]]]]]; done.
  - left. apply fixed_cases in Hp.
    destruct Hp as [->|[->|[->|[->|[->|[->|[->| ->]]]]]]]; reflexivity.
  - left. apply fixed_cases in Hp.
    destruct Hp as [->|[->|[->|[->|[->|[->|[->| ->]]]]]]]; reflexivity.
  - left. apply fixed_cases in Hp'.
    destruct Hp' as [->|[->|[->|[->|[->|[->|[->| ->]]]]]]]; reflexivity.
  - right. by exists X, Y.
  - by left.
  - left. apply fixed_cases in Hp'.
    destruct Hp' as [->|[->|[->|[->|[->|[->|[->| ->]]]]]]]; reflexivity.
  - by left.
  - exfalso. apply Hne. congruence.
Qed.

(** A plugin file is never the place a backup of another plugin file is
    moved to: the one has an even number of separators, the other an odd
    number. *)
Lemma plugin_files_apart (X Y s c : str) :
  Path.sep ∉ s -> Path.sep ∉ c ->
  plugin_file X ≠ plugin_file Y ++ u "." ++ s ++ [Path.sep] ++ c.
Proof.
  intros Hs Hc H. apply (f_equal nseps) in H. unfold plugin_file in H.
  rewrite !nseps_app, (nseps_none s Hs), (nseps_none c Hc) in H.
  change (nseps (u "plugins/")) with 1%nat in H.
  change (nseps (u "/")) with 1%nat in H.
  change (nseps (u ".plugin.zsh")) with 0%nat in H.
  change (nseps (u ".")) with 0%nat in H.
  change (nseps [Path.sep]) with 1%nat in H. lia.
Qed.

(** What [fetch_file] writes for one target is neither another target nor
    a backup name of another target. *)
Lemma targets_not_own (plugins : list str) (theme : option str) (p p' : str) :
  p ∈ sync_targets plugins theme -> p' ∈ sync_targets plugins theme -> p' ≠ p ->
  ¬ own (Path.join (OHMYZSH_DIR env) p') (Path.join (OHMYZSH_DIR env) p)
  ∧ forall s, Forall is_digit s ->
      ¬ own (Path.join (OHMYZSH_DIR env) p') (Path.join (OHMYZSH_DIR env) p ++ u "." ++ s).
Proof.
  intros Hp Hp' Hne.
  destruct (target_last _ _ _ Hp) as (p0 & c & Ep & Hc).
  destruct (target_last _ _ _ Hp') as (p0' & c' & Ep' & Hc').
  assert (Hnd : forall x, x = 104 ∨ x = 101 -> ¬ (x = 46 ∨ is_digit x))
    by (unfold is_digit; lia).
  assert (Hns : forall x, x = 104 ∨ x = 101 -> x ≠ Path.sep)
    by (unfold Path.sep; lia).
  rewrite !join_root by (by eapply target_not_absolute).
  set (root := OHMYZSH_DIR env).
  assert (Ed : root ++ [Path.sep] ++ p = (root ++ [Path.sep] ++ p0) ++ [c])
    by (by rewrite Ep, <- !app_assoc).
  assert (Ed' : root ++ [Path.sep] ++ p' = (root ++ [Path.sep] ++ p0') ++ [c'])
    by (by rewrite Ep', <- !app_assoc).
  split.
  - intros [H|(s' & Hs' & [H|H])].
    + apply app_inv_head, app_inv_head in H. congruence.
    + rewrite Ed in H. symmetry in H. by apply dotted_last, Hnd in H.
    + rewrite join_backup in H by (done || apply basename_not_absolute).
      rewrite <- !app_assoc in H. apply app_inv_head, app_inv_head in H.
      destruct (targets_apart _ _ _ _ Hp Hp' Hne) as [Hst|(X & Y & -> & ->)].
      * rewrite H, app_assoc, startswith_app in Hst. discriminate.
      * revert H. apply plugin_files_apart.
        -- apply digits_without; [unfold is_digit, Path.sep; lia|done].
        -- apply rsplit_sep_tail_no_sep.
  - intros s Hs [H|(s' & Hs' & [H|H])].
    + rewrite Ed' in H. by apply dotted_last, Hnd in H.
    + apply same_backup_stem in H; [|done..].
      apply app_inv_head, app_inv_head in H. congruence.
    + rewrite Ed' in H.
      destruct (move_into_last (((root ++ [Path.sep] ++ p0') ++ [c']) ++ u "." ++ s')
                  (root ++ [Path.sep] ++ p0') c' (Hns _ Hc')) as [z Hz].
      rewrite Hz in H. by apply dotted_last, Hnd in H.
Qed.

End Targets.

(** ** A sync run and the files that are up to date *)

Section UpToDate.

Variables (env : Env) (pinned : gset (list N)).

Global Instance kept_preorder (d : str) (f : file) : PreOrder (kept d f).
Proof.
  split.
  - intros w Hf. split; [done|]. split; [done|reflexivity].
  - intros w1 w2 w3 H12 H23 Hf. destruct (H12 Hf) as (Hf2 & Hz2 & He2).
    destruct (H23 Hf2) as (Hf3 & Hz3 & He3). split; [done|]. split.
    + intros s Hs. by rewrite (Hz3 s Hs), (Hz2 s Hs).
    + by etransitivity.
Qed.

Lemma kept_same_files (d : str) (f : file) (w w' : World) :
  files w' = files w -> extends (fun e => forall x, e ≠ Rename d x) w w' ->
  kept d f w w'.
Proof. intros Hfiles He Hf. rewrite Hfiles. by repeat split. Qed.

Lemma for_each_respects_in {X} R `{!PreOrder R} (l : list X) (body : X -> M unit) :
  (forall x, x ∈ l -> respects R (body x)) -> respects R (for_each l body).
Proof.
  induction l as [|x l IH]; intros Hb; simpl; [apply respects_ret, _|].
  apply respects_bind; [apply _|apply Hb; by left|]. intros [].
  apply IH. intros y Hy. apply Hb. by right.
Qed.

(** [fetch_file] on an up-to-date destination: every regular file stays,
    nothing is moved or copied. *)
Lemma fetch_file_up_to_date (path dest : str) (dry_run diff log_enabled : bool)
    (w w' : World) (f : file) (r : result unit) :
  files w !! dest = Some f ->
  urlopen env (REPO_RAW ++ u "/" ++ path) = inr (data f) ->
  fetch_file env path dest dry_run diff pinned log_enabled w = (r, w') ->
  files w' = files w ∧ extends (fun e => ¬ moves_file e) w w'.
Proof.
  intros Hf Hurl Hrun.
  unfold fetch_file in Hrun. cbv zeta in Hrun.
  destruct (bool_decide (resolve env dest ∈ pinned)).
  { rewrite log_run in Hrun. injection Hrun as <- <-. split; [done|].
    eexists. split; [reflexivity|]. destruct log_enabled; repeat constructor; simpl; tauto. }
  unfold bind at 1 in Hrun.
  destruct (makedirs (Path.dirname dest) w) as [[[]|e] w1] eqn:Hm;
    pose proof (makedirs_grew _ _ _ _ Hm) as Hg;
    assert (Hw1 : extends (fun e => ¬ moves_file e) w w1)
      by (apply grew_extends; [intros d Hd; exact Hd|done]);
    destruct Hg as (Hfiles & _).
  2:{ by injection Hrun as <- <-. }
  assert (Hstep : files w' = files w1 ∧ extends (fun e => ¬ moves_file e) w1 w').
  2:{ destruct Hstep as [H1 H2]. split; [congruence|by etransitivity]. }
  assert (Hf1 : files w1 !! dest = Some f) by (by rewrite Hfiles).
  destruct dry_run.
  { rewrite log_run in Hrun. injection Hrun as <- <-. split; [done|].
    eexists. split; [reflexivity|]. destruct log_enabled; repeat constructor; simpl; tauto. }
  unfold bind at 1 in Hrun. unfold urlopen_read, bind, emit, ret in Hrun.
  rewrite Hurl in Hrun.
  rewrite (path_exists_file _ dest f) in Hrun by done.
  rewrite (sha256_of_file _ dest f) in Hrun by done.
  change (hash_hexdigest (hash_update hash_new (data f)))
    with (Sha256.hexdigest (data f)) in Hrun.
  rewrite bool_decide_eq_false_2 in Hrun by (by intros H).
  unfold write_bytes in Hrun. cbn [files dirs ticks trace] in Hrun.
  destruct (isdir _ dest).
  { injection Hrun as <- <-. split; [done|].
    eexists. split; [reflexivity|]. repeat constructor; simpl; tauto. }
  rewrite Hf1 in Hrun. rewrite log_run in Hrun.
  erewrite sha256_of_file in Hrun by (cbn [files logged]; apply lookup_insert_eq).
  injection Hrun as <- <-. cbn [files logged]. split.
  { apply insert_id. by destruct f. }
  eexists. split; [cbn [trace logged]; rewrite <- !app_assoc; reflexivity|].
  destruct log_enabled; repeat constructor; simpl; tauto.
Qed.

Lemma fetch_file_kept_same (path dest : str) (dry_run diff log_enabled : bool) (f : file) :
  urlopen env (REPO_RAW ++ u "/" ++ path) = inr (data f) ->
  respects (kept dest f) (fetch_file env path dest dry_run diff pinned log_enabled).
Proof.
  intros Hurl w r w' E Hf.
  destruct (fetch_file_up_to_date _ _ _ _ _ _ _ _ _ Hf Hurl E) as [Hfiles He].
  apply kept_same_files; [done| |done].
  eapply extends_mono; [|exact He]. intros e Hm x ->. by apply Hm.
Qed.

Lemma fetch_file_kept_other (path dest d : str) (dry_run diff log_enabled : bool)
    (f : file) :
  ¬ own dest d ->
  (forall s, Forall is_digit s -> ¬ own dest (d ++ u "." ++ s)) ->
  respects (kept d f) (fetch_file env path dest dry_run diff pinned log_enabled).
Proof.
  intros Hd Hbak w r w' E Hf.
  pose proof (fetch_file_frame env pinned _ _ _ _ _ _ _ _ E) as Hfr.
  pose proof (fetch_file_events env pinned _ _ _ _ _ _ _ _ E) as He.
  split; [by rewrite (Hfr d Hd)|]. split.
  - intros s Hs. apply Hfr. by apply Hbak.
  - eapply extends_mono; [|exact He]. intros e Hev x ->.
    destruct Hev as (_ & _ & Heq). apply Hd. by left.
Qed.

(** A sync run keeps every target that is up to date, and makes no backup
    of it. *)
Lemma sync_keeps_up_to_date (zshrc path : str) (dry_run diff log_enabled : bool)
    (w : World) (parsed : list str * option str) (f : file) :
  parse_zshrc zshrc w = (Ok parsed, w) ->
  path ∈ sync_targets (fst parsed) (snd parsed) ->
  urlopen env (REPO_RAW ++ u "/" ++ path) = inr (data f) ->
  forall r w',
    sync_plugins_and_theme env zshrc dry_run diff pinned log_enabled w = (r, w') ->
    kept (Path.join (OHMYZSH_DIR env) path) f w w'.
Proof.
  intros Hparse Hpath Hurl.
  assert (Hloop : respects (kept (Path.join (OHMYZSH_DIR env) path) f)
    (bind (for_each (sync_targets (fst parsed) (snd parsed)) (fun p =>
             fetch_file env p (Path.join (OHMYZSH_DIR env) p)
                        dry_run diff pinned log_enabled))
          (fun _ => log env ([0x2705] ++ u " Sync complete") log_enabled))).
  { apply respects_bind; [apply _| |intros []].
    - apply for_each_respects_in; [apply _|]. intros p Hp.
      destruct (decide (p = path)) as [->|Hne].
      + by apply fetch_file_kept_same.
      + destruct (targets_not_own env _ _ _ _ Hpath Hp Hne) as [H1 H2].
        by apply fetch_file_kept_other.
    - intros w1 r w2 E. apply kept_same_files.
      + by apply (log_same_files _ _ _ _ _ _ E).
      + revert E. by apply log_extends. }
  intros r w' E. rewrite sync_flat in E. unfold bind at 1 in E.
  rewrite Hparse in E. exact (Hloop _ _ _ E).
Qed.

End UpToDate.

(** ** Runs whose remote paths are in normal form *)

Section NormalForm.

Lemma plain_component_long (x s : str) :
  (2 < length s)%nat -> plain_component (x ++ s) = true.
Proof.
  intros Hs. unfold plain_component.
  rewrite !bool_decide_eq_false_2; [done|..];
    intros E; apply (f_equal length) in E; rewrite length_app in E; simpl in E; lia.
Qed.

Lemma plugin_file_normal (X : str) :
  Path.sep ∉ X -> plain_component X = true -> normal_form (plugin_file X) = true.
Proof.
  intros Hsep Hplain. unfold normal_form, plugin_file.
  change (u "plugins/" ++ X ++ u "/" ++ X ++ u ".plugin.zsh")
    with (u "plugins" ++ Path.sep :: (X ++ Path.sep :: (X ++ u ".plugin.zsh"))).
  rewrite split_app_sep by (by apply not_in_literal).
  rewrite split_app_sep by done.
  rewrite split_no_sep.
  - cbn [forallb]. rewrite Hplain, plain_component_long by (simpl; lia). reflexivity.
  - rewrite not_elem_of_app. split; [done|by apply not_in_literal].
Qed.

Lemma theme_file_normal (t : str) :
  Path.sep ∉ t -> normal_form (theme_file t) = true.
Proof.
  intros Hsep. unfold normal_form, theme_file.
  change (u "themes/" ++ t ++ u ".zsh-theme")
    with (u "themes" ++ Path.sep :: (t ++ u ".zsh-theme")).
  rewrite split_app_sep by (by apply not_in_literal).
  rewrite split_no_sep.
  - cbn [forallb]. rewrite plain_component_long by (simpl; lia). reflexivity.
  - rewrite not_elem_of_app. split; [done|by apply not_in_literal].
Qed.

(** Declarations whose names are single path components give a run whose
    remote paths are in normal form. *)
Lemma normal_targets_of_plain_names (plugins : list str) (theme : option str) :
  Forall (fun X => (Path.sep ∉ X) ∧ plain_component X = true) plugins ->
  (forall t, theme = Some t -> (Path.sep ∉ t)) ->
  normal_targets (plugins, theme) = true.
Proof.
  intros Hp Ht. unfold normal_targets, sync_targets. cbn [fst snd].
  rewrite !forallb_app.
  assert (Hfixed : forallb normal_form CORE_FILES = true
                   ∧ forallb normal_form LIB_FILES = true
                   ∧ forallb normal_form TOOLS_FILES = true) by (by vm_compute).
  destruct Hfixed as (-> & -> & ->). cbn [andb].
  apply andb_true_intro. split.
  - induction Hp as [|X l [H1 H2] _ IH]; [done|].
    cbn [map forallb]. by rewrite plugin_file_normal, IH.
  - destruct theme as [[|c t]|]; [done| |done].
    cbn [forallb]. rewrite theme_file_normal; [done|by apply Ht].
Qed.

(** A plugin name that climbs back out of its directory is not. *)
Lemma normal_targets_dotdot :
  normal_targets ([u "git"; u "git/../git"], None) = false.
Proof. reflexivity. Qed.

End NormalForm.

(** C4. A local file that holds exactly the bytes the server delivers.
    A call of [fetch_file] on it leaves every regular file as it was and
    moves or copies nothing, in every mode and whatever its outcome.  A
    sync run whose remote paths are in normal form and that has it among
    its targets ends with the file in place, bytes and mode as before, with
    every backup name of it (the path, a dot and decimal digits) as before,
    and without having moved it.  The run is one whose targets are in
    normal form because a plugin name with a [.] or [..] component can spell
    the same file a second time, and the server may deliver other bytes for
    that spelling. *)
Theorem identical_content_no_backup
    (env : Env) (pinned : gset (list N)) (path : str) (f : file)
    (dry_run diff log_enabled : bool) :
  urlopen env (REPO_RAW ++ u "/" ++ path) = inr (data f) ->
  (forall dest w r w',
     files w !! dest = Some f ->
     fetch_file env path dest dry_run diff pinned log_enabled w = (r, w') ->
     files w' = files w
     ∧ exists evs, trace w' = trace w ++ evs ∧ Forall (fun e => ¬ moves_file e) evs)
  ∧ (forall zshrc parsed w r w',
       let dest := Path.join (OHMYZSH_DIR env) path in
       parse_zshrc zshrc w = (Ok parsed, w) ->
       normal_targets parsed = true ->
       path ∈ sync_targets (fst parsed) (snd parsed) ->
       files w !! dest = Some f ->
       sync_plugins_and_theme env zshrc dry_run diff pinned log_enabled w = (r, w') ->
       files w' !! dest = Some f
       ∧ (forall s, Forall is_digit s ->
            files w' !! (dest ++ u "." ++ s) = files w !! (dest ++ u "." ++ s))
       ∧ exists evs, trace w' = trace w ++ evs
                     ∧ Forall (fun e => forall x, e ≠ Rename dest x) evs).
Proof.
  intros Hurl. split.
  - intros dest w r w' Hf Hrun.
    exact (fetch_file_up_to_date env pinned _ _ _ _ _ _ _ _ _ Hf Hurl Hrun).
  - intros zshrc parsed w r w' dest Hparse _ Hpath Hf Hrun.
    exact (sync_keeps_up_to_date env pinned _ _ _ _ _ _ _ _
             Hparse Hpath Hurl _ _ Hrun Hf).
Qed.

Lemma identical_content_no_backup_witness :
  let dest := Path.join (OHMYZSH_DIR core_server) (u "oh-my-zsh.sh") in
  let w := demo_world [(u "/home/me/.zshrc", example_zshrc);
                       (u "/home/me/.oh-my-zsh/oh-my-zsh.sh", b "# new core")] in
  files (snd (fetch_file core_server (u "oh-my-zsh.sh") dest false true ∅ true w))
  = files w
  ∧ files (snd (sync_plugins_and_theme core_server (u "/home/me/.zshrc")
                  false true ∅ true w)) !! dest
    = Some (File (b "# new core") 420).
Proof.
  intros dest w.
  destruct (identical_content_no_backup core_server ∅ (u "oh-my-zsh.sh")
              (File (b "# new core") 420) false true true eq_refl) as [Hcall Hrun].
  split.
  - refine (proj1 (Hcall dest w
             (fst (fetch_file core_server (u "oh-my-zsh.sh") dest false true ∅ true w))
             (snd (fetch_file core_server (u "oh-my-zsh.sh") dest false true ∅ true w))
             _ _)).
    + reflexivity.
    + apply surjective_pairing.
  - refine (proj1 (Hrun (u "/home/me/.zshrc")
             ([u "git"; u "docker"], Some (u "robbyrussell")) w
             (fst (sync_plugins_and_theme core_server (u "/home/me/.zshrc")
                     false true ∅ true w))
             (snd (sync_plugins_and_theme core_server (u "/home/me/.zshrc")
                     false true ∅ true w))
             _ _ _ _ _)).
    + reflexivity.
    + reflexivity.
    + left.
    + reflexivity.
    + apply surjective_pairing.
Defined.

(** ** Self-upgrade *)

Section Upgrade.

Variables (env : Env) (pinned : gset (list N)).

Lemma shutil_copy2_run (src dst : str) (w : World) (f : file) :
  files w !! src = Some f -> isdir w dst = false -> src ≠ dst ->
  parent_ok w dst = true ->
  shutil_copy2 src dst w
  = (Ok tt, MkWorld (<[dst := f]> (files w)) (dirs w) (ticks w)
                    (trace w ++ [CopyFile src dst])).
Proof.
  intros Hf Hd Hne Hp. unfold shutil_copy2. rewrite Hd, Hf. cbv zeta. rewrite Hd.
  by rewrite bool_decide_eq_false_2, Hp.
Qed.

Lemma bak_suffix_no_sep (d : datetime) : Path.sep ∉ u ".bak." ++ strftime_stamp d.
Proof.
  apply not_elem_of_app. split; [by apply not_in_literal|].
  intros Hin. pose proof (strftime_stamp_digits d) as Hd.
  rewrite Forall_forall in Hd. specialize (Hd _ Hin).
  unfold is_digit, Path.sep in Hd. lia.
Qed.

End Upgrade.

(** C6, as the code has it. Self-upgrade copies the tool to
    [<tool>.bak.<stamp>] and then calls the [fetch_file] of ordinary sync on
    it, with the pin set and with diff display off: a pinned tool is skipped
    with the pin notice, and an outdated one is moved to [<tool>.<stamp>]
    before the fetched bytes are written; the mode is set and the upgrade
    notice logged in both cases. *)
Theorem upgrade_self_goes_through_fetch_file
    (env : Env) (pinned : gset (list N)) (w : World) (f : file) (content : bytes) :
  let tool := Path.join (OMZMINI_DIR env) (u "omzmini.py") in
  let bak := tool ++ u ".bak." ++ strftime_stamp (clock env (ticks w)) in
  let copied := MkWorld (<[bak := f]> (files w)) (dirs w) (S (ticks w))
                        (trace w ++ [CopyFile tool bak]) in
  let finish := bind (chmod tool 493) (fun _ =>
                  log env ([0x2705] ++ u " omzmini upgraded. Backup: " ++ bak) true) in
  files w !! tool = Some f ->
  isdir w tool = false ->
  isdir w bak = false ->
  isdir w (backup_name env copied tool) = false ->
  dirs_closed w ->
  Path.dirname tool ∈ dirs w ->
  urlopen env (REPO_RAW ++ u "/" ++ u "omzmini.py") = inr content ->
  Sha256.hexdigest (data f) ≠ Sha256.hexdigest content ->
  (resolve env tool ∈ pinned ->
   upgrade_self env false pinned w
   = finish (logged env (msg_pinned (resolve env tool)) true copied))
  ∧ (resolve env tool ∉ pinned ->
     upgrade_self env false pinned w
     = finish (backed_up_and_written env (u "omzmini.py") tool false true f content
                                     copied)).
Proof.
  intros tool bak copied finish Hf Hnd Hnb Hnb2 Hc Hdir Hurl Hne.
  assert (Hcopy : shutil_copy2 tool bak (MkWorld (files w) (dirs w) (S (ticks w)) (trace w))
                  = (Ok tt, copied)).
  { rewrite (shutil_copy2_run tool bak _ f); [done|exact Hf|exact Hnb| |].
    - unfold bak. intros H. apply (f_equal length) in H.
      rewrite !length_app in H. simpl in H. lia.
    - apply parent_ok_of_dir. unfold bak. cbn [dirs].
      by rewrite dirname_app by apply bak_suffix_no_sep. }
  assert (Hstart :
    upgrade_self env false pinned w
    = bind (fetch_file env (u "omzmini.py") tool false false pinned true)
           (fun _ => finish) copied).
  { unfold upgrade_self. cbv zeta. unfold bind at 1, now.
    fold tool. fold bak. unfold bind at 1. by rewrite Hcopy. }
  split; intros Hp; rewrite Hstart; unfold bind at 1.
  - by rewrite fetch_file_pinned.
  - rewrite (fetch_file_backs_up_then_writes env pinned _ _ _ _ _ f content); try done.
    unfold copied. cbn [files]. rewrite lookup_insert_ne; [done|].
    unfold bak. intros H. apply (f_equal length) in H.
    rewrite !length_app in H. simpl in H. lia.
Qed.

Lemma upgrade_self_goes_through_fetch_file_witness :
  fst (upgrade_self tool_server false tool_pinned tool_world) = Ok tt
  ∧ fst (upgrade_self tool_server false ∅ tool_world) = Ok tt.
Proof.
  pose proof (upgrade_self_goes_through_fetch_file tool_server tool_pinned tool_world
                (File (b "# old tool") 420) (b "# new tool")) as H1.
  pose proof (upgrade_self_goes_through_fetch_file tool_server ∅ tool_world
                (File (b "# old tool") 420) (b "# new tool")) as H2.
  cbv zeta in H1, H2.
  destruct H1 as (H1 & _); [reflexivity| reflexivity | reflexivity | reflexivity
    | apply demo_dirs_closed
    | apply (bool_decide_eq_true_1 (_ ∈ _)); reflexivity
    | reflexivity | by vm_compute |].
  destruct H2 as (_ & H2); [reflexivity| reflexivity | reflexivity | reflexivity
    | apply demo_dirs_closed
    | apply (bool_decide_eq_true_1 (_ ∈ _)); reflexivity
    | reflexivity | by vm_compute |].
  rewrite H1 by (apply elem_of_singleton; reflexivity).
  rewrite H2 by apply not_elem_of_empty.
  split; reflexivity.
Defined.

Lemma not_in_when_none (P : event -> bool) (l : list event) (e : event) :
  forallb (fun x => negb (P x)) l = true -> P e = true -> e ∉ l.
Proof.
  rewrite forallb_forall. intros Hall He Hin.
  apply list_elem_of_In in Hin. specialize (Hall _ Hin). by rewrite He in Hall.
Qed.

(** C6, as the specification has it, fails twice: a pinned tool is not
    fetched at all, and an outdated tool is moved to [<tool>.<stamp>] during
    the fetch step, after the hash comparison. *)
Lemma upgrade_self_counterexample :
  (UrlOpen (REPO_RAW ++ u "/" ++ u "omzmini.py")
     ∉ trace (snd (upgrade_self tool_server false tool_pinned tool_world)))
  ∧ Rename (u "/home/me/.config/omzmini/omzmini.py")
           (u "/home/me/.config/omzmini/omzmini.py.20240517093001")
      ∈ trace (snd (upgrade_self tool_server false ∅ tool_world)).
Proof.
  split.
  - apply (not_in_when_none is_request); [by vm_compute|reflexivity].
  - apply (list_elem_of_lookup_2 _ 2%nat). by vm_compute.
Qed.

(** The outdated-file lemma at work: a decodable local core script is
    diffed, moved to its stamped name and replaced. *)
Example outdated_core_script :
  let dest := u "/home/me/.oh-my-zsh/oh-my-zsh.sh" in
  let w := demo_world [(dest, b "# old core")] in
  fetch_file core_server (u "oh-my-zsh.sh") dest false true ∅ true w
  = (Ok tt, backed_up_and_written core_server (u "oh-my-zsh.sh") dest true true
                                  (File (b "# old core") 420) (b "# new core") w)
  ∧ backup_name core_server w dest = u "/home/me/.oh-my-zsh/oh-my-zsh.sh.20240517093000"
  ∧ diff_output core_server dest (b "# old core") (b "# new core")
    = [Print (u "--- /home/me/.oh-my-zsh/oh-my-zsh.sh" ++ [10] ++ u "+++ remote" ++ [10]
              ++ u "-# old core" ++ [10] ++ u "+# new core")].
Proof.
  cbv zeta. split; [|split; reflexivity].
  apply fetch_file_backs_up_then_writes.
  - apply not_elem_of_empty.
  - apply demo_dirs_closed.
  - apply (bool_decide_eq_true_1 (_ ∈ _)). reflexivity.
  - reflexivity.
  - reflexivity.
  - reflexivity.
  - reflexivity.
  - by vm_compute.
  - intros _. by eexists.
Qed.

(** * Further properties of the program *)

(** ** Directories *)

Section Directories.

Variables (env : Env) (pinned : gset (list N)).

Global Instance same_dirs_preorder : PreOrder same_dirs.
Proof. split; [by intros w|]. unfold same_dirs. intros w1 w2 w3 H1 H2. congruence. Qed.

Lemma mkdir_exist_ok_isdir (name : str) (w w' : World) :
  mkdir_exist_ok name w = (Ok tt, w') -> isdir w' name = true.
Proof.
  unfold mkdir_exist_ok, mkdir.
  destruct (negb (nonempty name)).
  { destruct (isdir w name) eqn:E; [|done]. by intros [= <-]. }
  destruct (path_exists w name).
  { destruct (isdir w name) eqn:E; [|done]. by intros [= <-]. }
  destruct (parent_ok w name).
  - intros [= <-]. unfold isdir. cbn [dirs].
    rewrite bool_decide_eq_true_2; [apply orb_true_r|]. apply elem_of_union_l.
    by apply elem_of_singleton.
  - destruct (isdir w name) eqn:E; [|done]. by intros [= <-].
Qed.

(** When [makedirs] returns, the directory is there. *)
Lemma makedirs_isdir (name : str) (w w' : World) :
  snd (makedirs_split name) ≠ u "." ->
  makedirs name w = (Ok tt, w') -> isdir w' name = true.
Proof.
  intros Hdot. revert w w'. funelim (makedirs name); intros w w' Hm.
  - by eapply mkdir_exist_ok_isdir.
  - match goal with E : makedirs_split _ = _ |- _ => rewrite E in Hdot end.
    cbn [snd] in Hdot.
    destruct (nonempty hd && negb (path_exists w hd)); [|by eapply mkdir_exist_ok_isdir].
    unfold bind in Hm. destruct (pass_file_exists _ w) as [[[]|e] w1]; [|done].
    rewrite bool_decide_eq_false_2 in Hm by done. by eapply mkdir_exist_ok_isdir.
Qed.

Lemma grew_isdir (w w' : World) (p : str) :
  grew w w' -> isdir w p = true -> isdir w' p = true.
Proof.
  intros (_ & _ & ds & _ & Hd). unfold isdir. rewrite Hd.
  intros H. apply orb_prop in H as [->|H]; [done|].
  apply bool_decide_eq_true_1 in H.
  rewrite (bool_decide_eq_true_2 (p ∈ _)); [apply orb_true_r|]. by apply elem_of_union_r.
Qed.

Lemma same_dirs_isdir (w w' : World) (p : str) :
  same_dirs w w' -> isdir w' p = isdir w p.
Proof. intros H. unfold isdir. by rewrite H. Qed.

Lemma log_same_dirs (msg : str) (log_enabled : bool) :
  respects same_dirs (log env msg log_enabled).
Proof. intros w r w' E. rewrite log_run in E. by injection E as <- <-. Qed.

Lemma emit_same_dirs (e : event) : respects same_dirs (emit e).
Proof. by intros w r w' [= <- <-]. Qed.

Lemma now_same_dirs : respects same_dirs (now env).
Proof. by intros w r w' [= <- <-]. Qed.

Lemma rename_file_same_dirs (src dst : str) : respects same_dirs (rename_file src dst).
Proof.
  intros w r w' E. unfold rename_file in E.
  destruct (files w !! src); [|injection E as <- <-; reflexivity].
  destruct (isdir w dst); [injection E as <- <-; reflexivity|].
  destruct (parent_ok w dst || isfile w dst); injection E as <- <-; reflexivity.
Qed.

Lemma shutil_move_same_dirs (src dst : str) : respects same_dirs (shutil_move src dst).
Proof.
  intros w r w' E. unfold shutil_move in E.
  destruct (isdir w dst); [|by eapply rename_file_same_dirs].
  destruct (path_exists w _); [injection E as <- <-; reflexivity|].
  by eapply rename_file_same_dirs.
Qed.

Lemma write_bytes_same_dirs (p : str) (content : bytes) :
  respects same_dirs (write_bytes env p content).
Proof.
  intros w r w' E. unfold write_bytes in E.
  destruct (isdir w p); [injection E as <- <-; reflexivity|].
  destruct (files w !! p); [injection E as <- <-; reflexivity|].
  destruct (parent_ok w p); injection E as <- <-; reflexivity.
Qed.

(** Once the directories are made, [fetch_file] makes or removes no
    directory. *)
Lemma fetch_file_dirs (path dest : str) (dry_run diff log_enabled : bool)
    (w w' : World) (r : result unit) :
  resolve env dest ∉ pinned ->
  fetch_file env path dest dry_run diff pinned log_enabled w = (r, w') ->
  exists rm w1, makedirs (Path.dirname dest) w = (rm, w1) ∧ same_dirs w1 w'.
Proof.
  intros Hp Hrun. unfold fetch_file in Hrun. cbv zeta in Hrun.
  rewrite bool_decide_eq_false_2 in Hrun by done.
  unfold bind at 1 in Hrun.
  destruct (makedirs (Path.dirname dest) w) as [[[]|e] w1] eqn:Hm.
  2:{ injection Hrun as <- <-. by exists (Raise e), w1. }
  exists (Ok tt), w1. split; [done|].
  assert (Hread : forall (X : Type) (m : M X),
             respects unchanged m -> respects same_dirs m).
  { intros X m. apply respects_unchanged, _. }
  destruct dry_run; [by apply (log_same_dirs _ _ _ _ _ Hrun)|].
  revert Hrun. apply (respects_bind same_dirs).
  { unfold urlopen_read. apply respects_bind; [apply _|apply emit_same_dirs|].
    intros []. apply respects_ret, _. }
  intros [e|content]; [apply log_same_dirs|].
  apply respects_bind; [apply _| |intros []].
  { apply respects_bind; [apply _|apply Hread, query_unchanged|].
    intros [|]; [|apply respects_ret, _].
    apply respects_bind; [apply _|apply Hread, sha256_unchanged|].
    intros old_hash. cbv zeta. destruct (bool_decide _); [|apply respects_ret, _].
    apply respects_bind; [apply _| |intros []].
    { destruct diff; [|apply respects_ret, _]. unfold show_diff.
      apply respects_bind; [apply _|apply Hread, read_text_unchanged|].
      intros text. cbv zeta. destruct (nonempty _); [|apply respects_ret, _].
      apply emit_same_dirs. }
    apply respects_bind; [apply _|apply now_same_dirs|]. intros ts. cbv zeta.
    apply respects_bind; [apply _|apply shutil_move_same_dirs|]. intros [].
    apply log_same_dirs. }
  apply respects_bind; [apply _|apply write_bytes_same_dirs|]. intros [].
  apply respects_bind; [apply _|apply log_same_dirs|]. intros [].
  apply respects_bind; [apply _|apply Hread, sha256_unchanged|].
  intros h. apply emit_same_dirs.
Qed.

End Directories.

(** ** What a call of [fetch_file] leaves behind *)

Section Fetched.

Variables (env : Env) (pinned : gset (list N)).

Lemma urlopen_read_run (url : str) (w : World) :
  urlopen_read env url w
  = (Ok (urlopen env url),
     MkWorld (files w) (dirs w) (ticks w) (trace w ++ [UrlOpen url])).
Proof. reflexivity. Qed.

Lemma write_bytes_ok (p : str) (content : bytes) (w w' : World) :
  write_bytes env p content w = (Ok tt, w') ->
  exists m, w' = MkWorld (<[p := File content m]> (files w)) (dirs w) (ticks w)
                         (trace w ++ [WriteBytes p content]).
Proof.
  unfold write_bytes. destruct (isdir w p); [done|].
  destruct (files w !! p) as [f|].
  - intros [= <-]. by exists (mode f).
  - destruct (parent_ok w p); [|done]. intros [= <-]. by eexists.
Qed.

(** The last steps of [fetch_file]: the write, the notice and the ledger
    line. *)
Lemma fetch_file_tail (path dest : str) (log_enabled : bool) (content : bytes)
    (w w' : World) :
  bind (write_bytes env dest content) (fun _ =>
    bind (log env (msg_fetched path dest) log_enabled) (fun _ =>
      bind (sha256 dest) (fun h =>
        emit (HashAppend (path ++ u " " ++ h ++ [10]))))) w = (Ok tt, w') ->
  exists m,
    files w' = <[dest := File content m]> (files w)
    ∧ dirs w' = dirs w
    ∧ trace w'
      = trace (logged env (msg_fetched path dest) log_enabled
                 (MkWorld (<[dest := File content m]> (files w)) (dirs w) (ticks w)
                          (trace w ++ [WriteBytes dest content])))
        ++ [HashAppend (path ++ u " " ++ Sha256.hexdigest content ++ [10])].
Proof.
  intros Hrun. unfold bind at 1 in Hrun.
  destruct (write_bytes env dest content w) as [[[]|e] w1] eqn:Ew; [|done].
  apply write_bytes_ok in Ew as [m ->]. exists m.
  unfold bind at 1 in Hrun. rewrite log_run in Hrun. unfold bind at 1 in Hrun.
  erewrite sha256_of_file in Hrun by (cbn [files logged]; apply lookup_insert_eq).
  cbn [data] in Hrun. injection Hrun as <-. done.
Qed.

(** A real run that returns normally ends with the delivered bytes at the
    destination and with their ledger line. *)
Lemma fetch_file_ok_holds (path dest : str) (diff log_enabled : bool)
    (content : bytes) (w w' : World) :
  resolve env dest ∉ pinned ->
  urlopen env (REPO_RAW ++ u "/" ++ path) = inr content ->
  fetch_file env path dest false diff pinned log_enabled w = (Ok tt, w') ->
  (exists m, files w' !! dest = Some (File content m))
  ∧ last (trace w')
    = Some (HashAppend (path ++ u " " ++ Sha256.hexdigest content ++ [10])).
Proof.
  intros Hp Hurl Hrun. unfold fetch_file in Hrun. cbv zeta in Hrun.
  rewrite bool_decide_eq_false_2 in Hrun by done.
  unfold bind at 1 in Hrun.
  destruct (makedirs (Path.dirname dest) w) as [[[]|e] w1]; [|done].
  unfold bind at 1 in Hrun. rewrite urlopen_read_run, Hurl in Hrun.
  unfold bind at 1 in Hrun.
  match type of Hrun with
  | match ?pre ?w0 with _ => _ end = _ => destruct (pre w0) as [[[]|e] w2]; [|done]
  end.
  apply fetch_file_tail in Hrun as (m & Hfiles & _ & Htrace). split.
  - exists m. rewrite Hfiles. apply lookup_insert_eq.
  - rewrite Htrace. apply last_snoc.
Qed.

Lemma parent_ok_after_makedirs (dest : str) (w w1 : World) :
  snd (makedirs_split (Path.dirname dest)) ≠ u "." ->
  makedirs (Path.dirname dest) w = (Ok tt, w1) -> parent_ok w1 dest = true.
Proof.
  intros Hdot Hm. unfold parent_ok.
  by rewrite (makedirs_isdir _ _ _ Hdot Hm), orb_true_r.
Qed.

(** A file that is not there yet is written without any backup. *)
Lemma fetch_file_new_file_run (path dest : str) (diff log_enabled : bool)
    (content : bytes) (w w1 : World) :
  resolve env dest ∉ pinned ->
  files w !! dest = None ->
  makedirs (Path.dirname dest) w = (Ok tt, w1) ->
  parent_ok w1 dest = true ->
  isdir w1 dest = false ->
  urlopen env (REPO_RAW ++ u "/" ++ path) = inr content ->
  fetch_file env path dest false diff pinned log_enabled w
  = (Ok tt, installed env path dest log_enabled content w1).
Proof.
  intros Hp Hf Hm Hpar Hnd Hurl.
  assert (Hf1 : files w1 !! dest = None)
    by (by rewrite (proj1 (makedirs_grew _ _ _ _ Hm))).
  unfold fetch_file. cbv zeta. rewrite bool_decide_eq_false_2 by done.
  unfold bind at 1. rewrite Hm.
  unfold bind at 1. rewrite urlopen_read_run, Hurl.
  unfold bind at 1. unfold bind at 1.
  assert (Hex : path_exists (MkWorld (files w1) (dirs w1) (ticks w1)
                               (trace w1 ++ [UrlOpen (REPO_RAW ++ u "/" ++ path)])) dest
                = false).
  { unfold path_exists, isfile, isdir in *. cbn [files dirs]. rewrite Hnd, Hf1.
    by rewrite bool_decide_eq_false_2 by (by intros [x Hx]). }
  rewrite Hex. unfold ret at 1.
  unfold bind at 1. rewrite write_bytes_new; [|done|done|done].
  unfold bind at 1. rewrite log_run. unfold bind at 1.
  erewrite sha256_of_file by (cbn [files logged]; apply lookup_insert_eq).
  cbn [data]. unfold emit, installed. cbv zeta. cbn [files dirs ticks trace].
  by rewrite <- app_assoc.
Qed.

End Fetched.

(** X1. Whenever [fetch_file] returns normally from a real run (not a dry
    run) on a destination that is not pinned and a path the server
    delivers, the destination holds exactly the delivered bytes, the
    digest of the destination is the digest of those bytes, and the last
    thing done is the ledger line with that digest: whether the file was
    new, outdated or up to date, and with the diff on or off. *)
Theorem fetch_file_installs_fetched_bytes
    (env : Env) (pinned : gset (list N)) (path dest : str)
    (diff log_enabled : bool) (content : bytes) (w w' : World) :
  resolve env dest ∉ pinned ->
  urlopen env (REPO_RAW ++ u "/" ++ path) = inr content ->
  fetch_file env path dest false diff pinned log_enabled w = (Ok tt, w') ->
  (exists m, files w' !! dest = Some (File content m))
  ∧ sha256 dest w' = (Ok (Sha256.hexdigest content), w')
  ∧ last (trace w')
    = Some (HashAppend (path ++ u " " ++ Sha256.hexdigest content ++ [10])).
Proof.
  intros Hp Hurl Hrun.
  destruct (fetch_file_ok_holds env pinned _ _ _ _ _ _ _ Hp Hurl Hrun) as [[m Hf] Hlast].
  split; [by exists m|]. split; [|done].
  by rewrite (sha256_of_file _ _ _ Hf).
Qed.

Lemma fetch_file_installs_fetched_bytes_witness :
  let dest := u "/home/me/.oh-my-zsh/oh-my-zsh.sh" in
  let w' := installed core_server (u "oh-my-zsh.sh") dest true (b "# new core")
                      (demo_world []) in
  exists m, files w' !! dest = Some (File (b "# new core") m).
Proof.
  intros dest w'.
  refine (proj1 (fetch_file_installs_fetched_bytes core_server ∅ (u "oh-my-zsh.sh")
                   dest false true (b "# new core") (demo_world []) w' _ _ _)).
  - apply not_elem_of_empty.
  - reflexivity.
  - apply fetch_file_new_file_run.
    + apply not_elem_of_empty.
    + reflexivity.
    + apply makedirs_existing; [apply demo_dirs_closed|].
      apply (bool_decide_eq_true_1 (_ ∈ _)). reflexivity.
    + reflexivity.
    + reflexivity.
    + reflexivity.
Defined.



(** X3. A file that is not there yet: once the directories are made, a
    real run requests the path, writes the delivered bytes with the
    permission bits [0o666 & ~umask], logs the notice and appends the ledger
    line; nothing is moved and no diff is printed, whatever the diff flag;
    every other regular file is as before. *)
Theorem fetch_file_writes_new_file
    (env : Env) (pinned : gset (list N)) (path dest : str)
    (diff log_enabled : bool) (content : bytes) (w w1 : World) :
  resolve env dest ∉ pinned ->
  files w !! dest = None ->
  makedirs (Path.dirname dest) w = (Ok tt, w1) ->
  snd (makedirs_split (Path.dirname dest)) ≠ u "." ->
  isdir w1 dest = false ->
  urlopen env (REPO_RAW ++ u "/" ++ path) = inr content ->
  fetch_file env path dest false diff pinned log_enabled w
  = (Ok tt, installed env path dest log_enabled content w1)
  ∧ files (installed env path dest log_enabled content w1)
    = <[dest := File content (N.ldiff 438 (umask env))]> (files w)
  ∧ dirs (installed env path dest log_enabled content w1) = dirs w1.
Proof.
  intros Hp Hf Hm Hdot Hnd Hurl. split; [|split].
  - apply fetch_file_new_file_run; try done. by eapply parent_ok_after_makedirs.
  - unfold installed, logged. cbn [files]. by rewrite (proj1 (makedirs_grew _ _ _ _ Hm)).
  - reflexivity.
Qed.

Lemma fetch_file_writes_new_file_witness :
  let dest := u "/home/me/.oh-my-zsh/lib/history.zsh" in
  fst (fetch_file (demo_env [(u "lib/history.zsh", b "setopt share_history")])
         (u "lib/history.zsh") dest false true ∅ true (demo_world []))
  = Ok tt.
Proof.
  intros dest.
  pose proof (fetch_file_writes_new_file
                (demo_env [(u "lib/history.zsh", b "setopt share_history")]) ∅
                (u "lib/history.zsh") dest true true (b "setopt share_history")
                (demo_world [])
                (MkWorld (files (demo_world [])) ({[u "/home/me/.oh-my-zsh/lib"]} ∪ demo_dirs)
                         0 [Mkdir (u "/home/me/.oh-my-zsh/lib")])) as H.
  destruct H as [H _].
  - apply not_elem_of_empty.
  - reflexivity.
  - reflexivity.
  - by vm_compute.
  - reflexivity.
  - reflexivity.
  - by rewrite H.
Defined.

(** X4. Whenever [fetch_file] returns normally on a destination that is
    not pinned, the directory of the destination exists afterwards, and no
    directory that was there has gone: in a dry run too, which therefore
    leaves the directories it made behind. *)
Theorem fetch_file_leaves_directory
    (env : Env) (pinned : gset (list N)) (path dest : str)
    (dry_run diff log_enabled : bool) (w w' : World) :
  resolve env dest ∉ pinned ->
  snd (makedirs_split (Path.dirname dest)) ≠ u "." ->
  fetch_file env path dest dry_run diff pinned log_enabled w = (Ok tt, w') ->
  isdir w' (Path.dirname dest) = true
  ∧ forall p, isdir w p = true -> isdir w' p = true.
Proof.
  intros Hp Hdot Hrun.
  destruct (fetch_file_dirs env pinned _ _ _ _ _ _ _ _ Hp Hrun) as (rm & w1 & Hm & Hsame).
  assert (rm = Ok tt) as ->.
  { unfold fetch_file in Hrun. cbv zeta in Hrun.
    rewrite bool_decide_eq_false_2 in Hrun by done.
    unfold bind at 1 in Hrun. rewrite Hm in Hrun. by destruct rm as [[]|e]. }
  split.
  - rewrite (same_dirs_isdir _ _ _ Hsame). by eapply makedirs_isdir.
  - intros p Hpd. rewrite (same_dirs_isdir _ _ _ Hsame).
    eapply grew_isdir; [by eapply makedirs_grew|done].
Qed.

Lemma fetch_file_leaves_directory_witness :
  isdir (snd (fetch_file (demo_env []) (u "lib/history.zsh")
                (u "/home/me/.oh-my-zsh/lib/history.zsh") true false ∅ true
                (demo_world [])))
        (u "/home/me/.oh-my-zsh/lib")
  = true.
Proof.
  refine (proj1 (fetch_file_leaves_directory (demo_env []) ∅ (u "lib/history.zsh")
                   (u "/home/me/.oh-my-zsh/lib/history.zsh") true false true
                   (demo_world []) _ _ _ _)).
  - apply not_elem_of_empty.
  - by vm_compute.
  - rewrite (fetch_file_dry_run (demo_env []) ∅ _ _ _ _ (demo_world [])
               (MkWorld (files (demo_world []))
                        ({[u "/home/me/.oh-my-zsh/lib"]} ∪ demo_dirs)
                        0 [Mkdir (u "/home/me/.oh-my-zsh/lib")])).
    + reflexivity.
    + apply not_elem_of_empty.
    + reflexivity.
Defined.

Section FetchErrors.

Variables (env : Env) (pinned : gset (list N)).

Lemma dirname_bare (p : str) : Path.sep ∉ p -> Path.dirname p = [].
Proof.
  intros H. unfold Path.dirname, Path.split. by rewrite rsplit_sep_nosep.
Qed.

(** [os.makedirs("", exist_ok=True)] raises. *)
Lemma makedirs_empty (w : World) :
  [] ∉ dirs w -> makedirs [] w = (Raise (FileNotFoundError []), w).
Proof.
  intros H. funelim (makedirs []).
  - unfold mkdir_exist_ok, mkdir. cbn [nonempty negb]. unfold isdir.
    cbn [is_root nonempty andb orb]. by rewrite bool_decide_eq_false_2.
  - match goal with E : makedirs_split [] = _ |- _ => by vm_compute in E end.
Qed.

End FetchErrors.

(** X5. A destination given as a bare file name, without any directory
    part, cannot be fetched: [os.makedirs] is called on the empty path and
    raises [FileNotFoundError], in every mode, before anything is logged,
    requested or written (unless the destination is pinned). *)
Theorem fetch_file_bare_name_raises
    (env : Env) (pinned : gset (list N)) (path dest : str)
    (dry_run diff log_enabled : bool) (w : World) :
  resolve env dest ∉ pinned ->
  Path.sep ∉ dest ->
  [] ∉ dirs w ->
  fetch_file env path dest dry_run diff pinned log_enabled w
  = (Raise (FileNotFoundError []), w).
Proof.
  intros Hp Hbare Hw. unfold fetch_file. cbv zeta.
  rewrite bool_decide_eq_false_2 by done.
  unfold bind at 1. by rewrite dirname_bare, makedirs_empty.
Qed.

Lemma fetch_file_bare_name_raises_witness :
  fetch_file core_server (u "oh-my-zsh.sh") (u "oh-my-zsh.sh") false false ∅ true
             (demo_world [])
  = (Raise (FileNotFoundError []), demo_world []).
Proof.
  apply fetch_file_bare_name_raises.
  - apply not_elem_of_empty.
  - apply (bool_decide_eq_false_1 (_ ∈ _)). reflexivity.
  - apply (bool_decide_eq_false_1 (_ ∈ _)). reflexivity.
Defined.

(** X6. A directory standing at the destination stops a real run: the
    path is requested, then reading the destination for its digest raises
    [IsADirectoryError]; nothing is written and no regular file changes. *)
Theorem fetch_file_on_directory_raises
    (env : Env) (pinned : gset (list N)) (path dest : str)
    (diff log_enabled : bool) (content : bytes) (w w1 : World) :
  resolve env dest ∉ pinned ->
  isdir w dest = true ->
  files w !! dest = None ->
  makedirs (Path.dirname dest) w = (Ok tt, w1) ->
  urlopen env (REPO_RAW ++ u "/" ++ path) = inr content ->
  fetch_file env path dest false diff pinned log_enabled w
  = (Raise (IsADirectoryError dest),
     MkWorld (files w1) (dirs w1) (ticks w1)
             (trace w1 ++ [UrlOpen (REPO_RAW ++ u "/" ++ path)]))
  ∧ files w1 = files w.
Proof.
  intros Hp Hd Hf Hm Hurl.
  pose proof (makedirs_grew _ _ _ _ Hm) as Hg.
  pose proof (grew_isdir _ _ _ Hg Hd) as Hd1.
  destruct Hg as (Hfiles & _). split; [|done].
  set (w2 := MkWorld (files w1) (dirs w1) (ticks w1)
                     (trace w1 ++ [UrlOpen (REPO_RAW ++ u "/" ++ path)])).
  assert (Hd2 : isdir w2 dest = true) by exact Hd1.
  assert (Hex : path_exists w2 dest = true) by (by apply isdir_exists).
  assert (Hsha : sha256 dest w2 = (Raise (IsADirectoryError dest), w2)).
  { unfold sha256, bind, open_rb. rewrite Hd2.
    replace (files w2 !! dest) with (@None file); [done|].
    unfold w2. cbn [files]. by rewrite Hfiles. }
  unfold fetch_file. cbv zeta. rewrite bool_decide_eq_false_2 by done.
  unfold bind at 1. rewrite Hm.
  unfold bind at 1. rewrite urlopen_read_run, Hurl. fold w2.
  unfold bind at 1. unfold bind at 1. rewrite Hex.
  unfold bind at 1. by rewrite Hsha.
Qed.

Lemma fetch_file_on_directory_raises_witness :
  fst (fetch_file core_server (u "oh-my-zsh.sh") (u "/home/me/.oh-my-zsh/log")
         false false ∅ true (demo_world []))
  = Raise (IsADirectoryError (u "/home/me/.oh-my-zsh/log")).
Proof.
  destruct (fetch_file_on_directory_raises core_server ∅ (u "oh-my-zsh.sh")
              (u "/home/me/.oh-my-zsh/log") false true (b "# new core")
              (demo_world []) (demo_world [])) as [H _].
  - apply not_elem_of_empty.
  - reflexivity.
  - reflexivity.
  - apply makedirs_existing; [apply demo_dirs_closed|].
    apply (bool_decide_eq_true_1 (_ ∈ _)). reflexivity.
  - reflexivity.
  - by rewrite H.
Defined.



(** ** More on the declaration parser *)

Section ParserMore.

Implicit Types (st : list str * option str) (line : str).

Lemma split_pieces_no_sep (c : char) (s : str) :
  Forall (fun p => c ∉ p) (Py.split c s).
Proof.
  induction s as [|a s IH]; simpl.
  - constructor; [apply not_elem_of_nil|constructor].
  - destruct (a =? c) eqn:E.
    + constructor; [apply not_elem_of_nil|done].
    + destruct (Py.split c s) as [|p ps]; [repeat constructor|].
      * apply not_elem_of_cons. split; [|apply not_elem_of_nil].
        intros ->. by rewrite N.eqb_refl in E.
      * inversion IH as [|? ? Hp Hps]; subst. constructor; [|done].
        apply not_elem_of_cons. split; [|done]. intros ->. by rewrite N.eqb_refl in E.
Qed.

Lemma split_pieces_chars (c : char) (s : str) (P : char -> Prop) :
  Forall P s -> Forall (Forall P) (Py.split c s).
Proof.
  induction s as [|a s IH]; simpl; intros Hs.
  - repeat constructor.
  - inversion Hs as [|? ? Ha Hs']; subst. specialize (IH Hs').
    destruct (a =? c).
    + constructor; [constructor|done].
    + destruct (Py.split c s) as [|p ps]; [repeat constructor; done|].
      inversion IH as [|? ? Hp Hps]; subst. constructor; [by constructor|done].
Qed.

Lemma index_Forall {X} (P : X -> Prop) (l : list X) (i : nat) (x : X) :
  Forall P l -> Py.index l i = Ok x -> P x.
Proof.
  unfold Py.index. intros Hl. destruct (nth_error l i) as [y|] eqn:E; [|done].
  intros [= <-]. rewrite Forall_forall in Hl. apply Hl.
  apply list_elem_of_In. by eapply nth_error_In.
Qed.

(** The pieces of [str.split()] are tokens, made of characters of the
    text. *)
Lemma split_ws_aux_tokens (P : char -> Prop) (cur s : str) :
  Forall (fun c => Py.isspace c = false ∧ P c) cur ->
  Forall P s ->
  Forall (fun t => is_token t ∧ Forall P t) (Py.split_ws_aux cur s).
Proof.
  assert (Hcur : forall cur, cur ≠ [] ->
            Forall (fun c => Py.isspace c = false ∧ P c) cur ->
            is_token (rev cur) ∧ Forall P (rev cur)).
  { intros cur' Hne Hall. split; [split|].
    - intros H. apply Hne. apply (f_equal (@rev _)) in H.
      by rewrite rev_involutive in H.
    - apply Forall_rev. eapply Forall_impl; [exact Hall|]. by intros c [? _].
    - apply Forall_rev. eapply Forall_impl; [exact Hall|]. by intros c [_ ?]. }
  revert cur. induction s as [|c s IH]; intros cur Hc Hs; simpl.
  - destruct cur as [|x cur]; [constructor|].
    constructor; [by apply Hcur|constructor].
  - inversion Hs as [|? ? Hpc Hs']; subst.
    destruct (Py.isspace c) eqn:E.
    + destruct cur as [|x cur]; [by apply IH|].
      constructor; [by apply Hcur|by apply IH].
    + apply IH; [|done]. by constructor.
Qed.

Lemma parse_line_keeps_plugins st st' line :
  plugins_marked line = false -> parse_line st line = Ok st' -> fst st' = fst st.
Proof.
  unfold plugins_marked, parse_line. intros ->.
  destruct (Py.startswith (u "ZSH_THEME=") (Py.strip line)); [|by intros [= <-]].
  destruct (Py.index _ 1) as [theme|]; simpl; [|done].
  by intros [= <-].
Qed.

Lemma parse_lines_keep_plugins st st' (lines : list str) :
  Forall (fun l => plugins_marked l = false) lines ->
  parse_lines st lines = Ok st' -> fst st' = fst st.
Proof.
  revert st. induction lines as [|l lines IH]; intros st Hall; simpl.
  - by intros [= <-].
  - inversion Hall as [|? ? Hl Hrest]; subst.
    destruct (parse_line st l) as [st1|] eqn:E; simpl; [|done].
    intros H. rewrite (IH _ Hrest H). by eapply parse_line_keeps_plugins.
Qed.

(** What one line leaves in the state is well formed. *)
Lemma parse_line_well_formed st st' line :
  Forall is_plugin_name (fst st) ->
  (forall t, snd st = Some t -> 34 ∉ t) ->
  parse_line st line = Ok st' ->
  Forall is_plugin_name (fst st') ∧ (forall t, snd st' = Some t -> 34 ∉ t).
Proof.
  intros Hp Ht. unfold parse_line.
  destruct (Py.startswith (u "plugins=") (Py.strip line)).
  - destruct (Py.index _ 1) as [after|]; simpl; [|done].
    destruct (Py.index _ 0) as [inside|] eqn:Ei; simpl; [|done].
    intros [= <-]. split; [|done]. cbn [fst].
    pose proof (index_Forall _ _ _ _ (split_pieces_no_sep 41 after) Ei) as Hin.
    assert (Hall : Forall (fun c => c ≠ 41) inside).
    { apply Forall_forall. intros c Hc ->. by apply Hin. }
    eapply Forall_impl; [apply (split_ws_aux_tokens (fun c => c ≠ 41)); [constructor|done]|].
    intros t [Htok Hne]. split; [done|]. intros H41.
    rewrite Forall_forall in Hne. by apply (Hne 41).
  - destruct (Py.startswith (u "ZSH_THEME=") (Py.strip line)); [|by intros [= <-]].
    destruct (Py.index _ 1) as [theme|] eqn:Ei; simpl; [|done].
    intros [= <-]. split; [done|]. cbn [snd]. intros t [= <-].
    exact (index_Forall _ _ _ _ (split_pieces_no_sep 34 _) Ei).
Qed.

Lemma parse_lines_well_formed (lines : list str) st st' :
  Forall is_plugin_name (fst st) -> (forall t, snd st = Some t -> 34 ∉ t) ->
  parse_lines st lines = Ok st' ->
  Forall is_plugin_name (fst st') ∧ (forall t, snd st' = Some t -> 34 ∉ t).
Proof.
  revert st st'. induction lines as [|l lines IH]; intros st st' Hp Ht; simpl.
  - by intros [= <-].
  - destruct (parse_line st l) as [st1|] eqn:E; simpl; [|done].
    destruct (parse_line_well_formed _ _ _ Hp Ht E) as [Hp1 Ht1].
    by apply IH.
Qed.

End ParserMore.

(** X8. Only declaration lines count: the lines that, once stripped,
    start with neither [plugins=] nor [ZSH_THEME=] (comments, exports,
    the continuation lines of a plugin list written over several lines)
    have no influence on the result of the parser, nor on whether it
    raises. *)
Theorem parse_lines_only_marked_lines_count
    (st : list str * option str) (lines : list str) :
  parse_lines st lines = parse_lines st (List.filter marked lines).
Proof.
  revert st. induction lines as [|l lines IH]; intros st; [done|].
  cbn [List.filter]. unfold marked at 1.
  destruct (plugins_marked l) eqn:Ep; cbn [orb].
  - cbn [parse_lines]. destruct (parse_line st l); simpl; [apply IH|done].
  - destruct (theme_marked l) eqn:Et.
    + cbn [parse_lines]. destruct (parse_line st l); simpl; [apply IH|done].
    + cbn [parse_lines]. rewrite parse_line_other by done. simpl. apply IH.
Qed.

(** X9. The last plugins declaration wins: it replaces, and does not add
    to, what earlier plugins lines declared; the plugins are the
    whitespace-separated tokens between its first opening parenthesis and
    the next closing one, and text after that is ignored. *)
Theorem parse_lines_last_plugins_line_wins
    (st st1 st2 : list str * option str) (pline pre body rest : str)
    (before after : list str) :
  Py.strip pline = u "plugins=" ++ pre ++ [40] ++ body ++ [41] ++ rest ->
  40 ∉ pre -> 41 ∉ body ->
  parse_lines st before = Ok st1 ->
  Forall (fun l => plugins_marked l = false) after ->
  parse_lines (Py.split_ws body, snd st1) after = Ok st2 ->
  parse_lines st (before ++ pline :: after) = Ok st2
  ∧ fst st2 = Py.split_ws body.
Proof.
  intros Hs Hpre Hbody Hbefore Hall Hafter. split.
  - rewrite parse_lines_app, Hbefore. simpl.
    by rewrite (parse_line_plugins st1 pline pre body rest).
  - by rewrite (parse_lines_keep_plugins _ _ _ Hall Hafter).
Qed.

Lemma parse_lines_last_plugins_line_wins_witness :
  parse_lines ([], None)
    ([u "plugins=(git docker)" ++ [10]] ++ (u "  plugins=( z  fzf ) # mine" ++ [10])
     :: [u "ZSH_THEME=" ++ [34] ++ u "agnoster" ++ [34] ++ [10]])
  = Ok ([u "z"; u "fzf"], Some (u "agnoster")).
Proof.
  refine (proj1 (parse_lines_last_plugins_line_wins ([], None)
                   ([u "git"; u "docker"], None) ([u "z"; u "fzf"], Some (u "agnoster"))
                   (u "  plugins=( z  fzf ) # mine" ++ [10])
                   [] (u " z  fzf ") (u " # mine")
                   [u "plugins=(git docker)" ++ [10]]
                   [u "ZSH_THEME=" ++ [34] ++ u "agnoster" ++ [34] ++ [10]]
                   _ _ _ _ _ _)).
  - reflexivity.
  - apply not_elem_of_nil.
  - apply (bool_decide_eq_false_1 (_ ∈ _)). reflexivity.
  - reflexivity.
  - repeat constructor.
  - reflexivity.
Defined.

(** X10. What the parser returns is well formed: every plugin name is
    non-empty and holds neither whitespace nor a closing parenthesis, and
    the theme holds no double quote. *)
Theorem parse_zshrc_returns_plugin_names
    (zshrc : str) (w : World) (plugins : list str) (theme : option str) :
  fst (parse_zshrc zshrc w) = Ok (plugins, theme) ->
  Forall is_plugin_name plugins ∧ (forall t, theme = Some t -> 34 ∉ t).
Proof.
  unfold parse_zshrc, bind. destruct (negb (path_exists w zshrc)).
  { intros [= <- <-]. by split. }
  destruct (read_text zshrc w) as [[text|e] w1]; [|done]. cbn [lift fst].
  intros H.
  exact (parse_lines_well_formed _ ([], None) (plugins, theme) (Forall_nil_2 _)
           (fun t Hn => ltac:(done)) H).
Qed.

Lemma parse_zshrc_returns_plugin_names_witness :
  Forall is_plugin_name [u "git"; u "docker"].
Proof.
  refine (proj1 (parse_zshrc_returns_plugin_names (u "/home/me/.zshrc") fresh_world
                   [u "git"; u "docker"] (Some (u "robbyrussell")) _)).
  by vm_compute.
Defined.

(** ** The reports *)

Section Reports.

(** Reading looks at the regular files and the directories only. *)
Lemma open_rb_elsewhere (p : str) (w : World) (tk : nat) (tr : list event) :
  open_rb p (MkWorld (files w) (dirs w) tk tr)
  = (fst (open_rb p w), MkWorld (files w) (dirs w) tk tr).
Proof.
  unfold open_rb.
  change (files (MkWorld (files w) (dirs w) tk tr)) with (files w).
  change (isdir (MkWorld (files w) (dirs w) tk tr) p) with (isdir w p).
  change (missing (MkWorld (files w) (dirs w) tk tr) p) with (missing w p).
  destruct (files w !! p); [done|]. by destruct (isdir w p).
Qed.

Lemma read_text_elsewhere (p : str) (w : World) (tk : nat) (tr : list event) :
  read_text p (MkWorld (files w) (dirs w) tk tr)
  = (fst (read_text p w), MkWorld (files w) (dirs w) tk tr).
Proof.
  unfold read_text, bind. rewrite open_rb_elsewhere.
  destruct (open_rb p w) as [[content|e] w1]; cbn [fst]; [|done].
  unfold lift, ret. by destruct (Utf8.decode content).
Qed.

Lemma parse_zshrc_elsewhere (zshrc : str) (w : World) (tk : nat) (tr : list event) :
  parse_zshrc zshrc (MkWorld (files w) (dirs w) tk tr)
  = (fst (parse_zshrc zshrc w), MkWorld (files w) (dirs w) tk tr).
Proof.
  unfold parse_zshrc, bind.
  change (path_exists (MkWorld (files w) (dirs w) tk tr) zshrc)
    with (path_exists w zshrc).
  destruct (negb (path_exists w zshrc)); [done|].
  rewrite read_text_elsewhere.
  destruct (read_text zshrc w) as [[text|e] w1]; cbn [fst]; [|done].
  unfold lift. by destruct (parse_lines _ _).
Qed.

Lemma parse_zshrc_run (zshrc : str) (w : World) :
  parse_zshrc zshrc w = (fst (parse_zshrc zshrc w), w).
Proof.
  destruct (parse_zshrc zshrc w) as [r w'] eqn:E.
  by rewrite (parse_zshrc_unchanged _ _ _ _ E).
Qed.

Lemma parse_zshrc_no_file (zshrc : str) (w : World) :
  path_exists w zshrc = false -> fst (parse_zshrc zshrc w) = Ok ([], None).
Proof. intros H. by rewrite parse_zshrc_missing. Qed.

End Reports.

(** X11. [run_list] only prints: it changes no regular file and no
    directory, reads no clock, reaches no network and appends nothing to
    the audit log.  It prints its header and then exactly two lines, one for
    the plugins and one for the theme; when the parser raises, the
    exception goes through after the header alone. *)
Theorem run_list_only_prints (zshrc : str) (w w' : World) (r : result unit) :
  run_list zshrc w = (r, w') ->
  files w' = files w ∧ dirs w' = dirs w ∧ ticks w' = ticks w
  ∧ ((r = Ok tt
      ∧ exists plugins_line theme_line,
          trace w' = trace w ++ [Print list_header; Print plugins_line; Print theme_line])
     ∨ (exists e, r = Raise e ∧ fst (parse_zshrc zshrc w) = Raise e
                  ∧ trace w' = trace w ++ [Print list_header])).
Proof.
  unfold run_list. unfold bind at 1. unfold print at 1, emit at 1.
  fold list_header. unfold bind at 1. rewrite parse_zshrc_elsewhere.
  destruct (fst (parse_zshrc zshrc w)) as [parsed|e].
  - unfold bind, print, emit. cbn [files dirs ticks trace].
    destruct (nonempty (fst parsed)); destruct (snd parsed) as [[|c t]|];
      intros [= <- <-]; cbn [files dirs ticks trace];
      (split; [done|split; [done|split; [done|left; split; [done|]]]]);
      rewrite <- !app_assoc; eauto.
  - intros [= <- <-]. cbn [files dirs ticks trace]. repeat split. right. by exists e.
Qed.

Lemma run_list_only_prints_witness :
  files (snd (run_list (u "/home/me/.zshrc") fresh_world)) = files fresh_world.
Proof.
  refine (proj1 (run_list_only_prints (u "/home/me/.zshrc") fresh_world
                   (snd (run_list (u "/home/me/.zshrc") fresh_world))
                   (fst (run_list (u "/home/me/.zshrc") fresh_world)) _)).
  apply surjective_pairing.
Defined.

(** X12. [run_doctor] only prints: it changes no regular file and no
    directory, reads no clock, reaches no network and appends nothing to
    the audit log.  It prints between three and five lines, the first its
    header, and raises only what the parser raises.  Without a declaration
    file it returns normally and prints five lines: the header, the missing
    file, the state of the core script, no plugins and no theme. *)
Theorem run_doctor_only_prints
    (env : Env) (zshrc : str) (w w' : World) (r : result unit) :
  run_doctor env zshrc w = (r, w') ->
  files w' = files w ∧ dirs w' = dirs w ∧ ticks w' = ticks w
  ∧ (exists lines, trace w' = trace w ++ map Print (doctor_header :: lines)
                   ∧ (2 <= length lines <= 4)%nat)
  ∧ (r = Ok tt ∨ exists e, r = Raise e ∧ fst (parse_zshrc zshrc w) = Raise e)
  ∧ (path_exists w zshrc = false ->
     r = Ok tt
     ∧ exists core_line,
         trace w' = trace w ++ map Print [doctor_header;
                                          [0x274C] ++ u " .zshrc missing";
                                          core_line;
                                          warn ++ u " No plugins declared";
                                          warn ++ u " No theme declared"]).
Proof.
  unfold run_doctor. cbv zeta. fold doctor_header.
  unfold bind at 1. unfold print at 1, emit at 1.
  unfold bind at 1. cbn [files dirs ticks trace].
  change (path_exists (MkWorld (files w) (dirs w) (ticks w)
                               (trace w ++ [Print doctor_header])) zshrc)
    with (path_exists w zshrc).
  set (zline := if path_exists w zshrc then [0x2705] ++ u " .zshrc found"
                else [0x274C] ++ u " .zshrc missing").
  assert (Hz : (if path_exists w zshrc
                then print ([0x2705] ++ u " .zshrc found")
                else print ([0x274C] ++ u " .zshrc missing")) = print zline)
    by (unfold zline; by destruct (path_exists w zshrc)).
  rewrite Hz. unfold bind at 1. unfold print at 1, emit at 1.
  cbn [files dirs ticks trace]. unfold bind at 1.
  match goal with
  | |- context [if path_exists ?W ?p then print ?a else print ?b'] =>
      set (cline := if path_exists W p then a else b');
      assert (Hc : (if path_exists W p then print a else print b') = print cline)
        by (unfold cline; by destruct (path_exists W p));
      rewrite Hc
  end.
  unfold bind at 1. unfold print at 1, emit at 1. cbn [files dirs ticks trace].
  unfold bind at 1. rewrite parse_zshrc_elsewhere.
  destruct (fst (parse_zshrc zshrc w)) as [parsed|e] eqn:Ep.
  - unfold bind, print, emit, ret. cbn [files dirs ticks trace].
    assert (Hmiss : path_exists w zshrc = false -> parsed = ([], None)).
    { intros Hm. rewrite (parse_zshrc_no_file _ _ Hm) in Ep. by injection Ep. }
    destruct (nonempty (fst parsed)) eqn:En; destruct (snd parsed) as [[|c t]|] eqn:Et;
      intros [= <- <-]; cbn [files dirs ticks trace];
      (split; [done|split; [done|split; [done|split; [|split; [by left|]]]]]);
      rewrite <- ?app_assoc.
    all: try (first
      [ exists [zline; cline]; split; [reflexivity|simpl; lia]
      | exists [zline; cline; warn ++ u " No theme declared"];
        split; [reflexivity|simpl; lia]
      | exists [zline; cline; warn ++ u " No plugins declared"];
        split; [reflexivity|simpl; lia]
      | exists [zline; cline; warn ++ u " No plugins declared";
                warn ++ u " No theme declared"];
        split; [reflexivity|simpl; lia] ]).
    all: intros Hm; specialize (Hmiss Hm); subst parsed; simpl in En, Et; try done.
    all: split; [done|]; exists cline; unfold zline; by rewrite Hm.
  - intros [= <- <-]. cbn [files dirs ticks trace]. rewrite <- !app_assoc.
    split; [done|split; [done|split; [done|split; [|split]]]].
    + exists [zline; cline]. split; [done|simpl; lia].
    + right. by exists e.
    + intros Hm. by rewrite (parse_zshrc_no_file _ _ Hm) in Ep.
Qed.

Lemma run_doctor_only_prints_witness :
  fst (run_doctor (demo_env []) (u "/home/me/.zshrc") (demo_world [])) = Ok tt.
Proof.
  refine (proj1 (proj2 (proj2 (proj2 (proj2 (proj2
            (run_doctor_only_prints (demo_env []) (u "/home/me/.zshrc") (demo_world [])
               (snd (run_doctor (demo_env []) (u "/home/me/.zshrc") (demo_world [])))
               (fst (run_doctor (demo_env []) (u "/home/me/.zshrc") (demo_world [])))
               _))))) _)).
  - apply surjective_pairing.
  - reflexivity.
Defined.

(** ** A whole sync run *)

Section SyncRun.

Variables (env : Env) (pinned : gset (list N)).

Lemma for_each_ok_split {X} (l1 l2 : list X) (x : X) (body : X -> M unit)
    (w w' : World) :
  for_each (l1 ++ x :: l2) body w = (Ok tt, w') ->
  exists w1 w2, for_each l1 body w = (Ok tt, w1) ∧ body x w1 = (Ok tt, w2)
                ∧ for_each l2 body w2 = (Ok tt, w').
Proof.
  revert w. induction l1 as [|y l1 IH]; intros w; cbn [app for_each]; unfold bind at 1.
  - destruct (body x w) as [[[]|e] w2] eqn:Ex; [|done].
    intros H. by exists w, w2.
  - destruct (body y w) as [[[]|e] w0] eqn:Ey; [|done].
    intros H. destruct (IH _ H) as (w1 & w2 & H1 & H2 & H3).
    exists w1, w2. unfold bind. by rewrite Ey.
Qed.

Lemma sync_target_events (zshrc : str) (dry_run diff log_enabled : bool)
    (w w' : World) (r : result unit) (parsed : list str * option str) :
  fst (parse_zshrc zshrc w) = Ok parsed ->
  sync_plugins_and_theme env zshrc dry_run diff pinned log_enabled w = (r, w') ->
  extends (target_event env dry_run pinned (sync_targets (fst parsed) (snd parsed))) w w'.
Proof.
  intros Hparse Hrun. rewrite sync_flat in Hrun. unfold bind at 1 in Hrun.
  rewrite parse_zshrc_run, Hparse in Hrun. revert Hrun.
  apply (respects_bind (extends _)).
  - apply for_each_respects_in; [apply _|]. intros p Hp.
    eapply respects_mono; [|apply fetch_file_events].
    intros w1 w2. apply extends_mono. intros e He. by exists p.
  - intros []. apply log_extends; intros t; exists (u "oh-my-zsh.sh");
      (split; [by left|done]).
Qed.

(** When a real run returns normally, the destination of every remote
    path that is not pinned and that the server delivers holds the
    delivered bytes. *)
Lemma sync_ok_holds (zshrc path : str) (diff log_enabled : bool) (w w' : World)
    (parsed : list str * option str) (content : bytes) :
  fst (parse_zshrc zshrc w) = Ok parsed ->
  path ∈ sync_targets (fst parsed) (snd parsed) ->
  resolve env (Path.join (OHMYZSH_DIR env) path) ∉ pinned ->
  urlopen env (REPO_RAW ++ u "/" ++ path) = inr content ->
  sync_plugins_and_theme env zshrc false diff pinned log_enabled w = (Ok tt, w') ->
  exists m, files w' !! Path.join (OHMYZSH_DIR env) path = Some (File content m).
Proof.
  intros Hparse Hpath Hpin Hurl Hrun.
  rewrite sync_flat in Hrun. unfold bind at 1 in Hrun.
  rewrite parse_zshrc_run, Hparse in Hrun.
  unfold bind at 1 in Hrun.
  destruct (for_each _ _ w) as [[[]|e] w3] eqn:Hloop; [|done].
  apply list_elem_of_split in Hpath as (before & after & Hsplit).
  rewrite Hsplit in Hloop.
  apply for_each_ok_split in Hloop as (w1 & w2 & _ & Hfetch & Hafter).
  destruct (fetch_file_ok_holds env pinned _ _ _ _ _ _ _ Hpin Hurl Hfetch) as [[m Hf] _].
  exists m.
  assert (Hbody : forall p, p ∈ after ->
            respects (kept (Path.join (OHMYZSH_DIR env) path) (File content m))
              (fetch_file env p (Path.join (OHMYZSH_DIR env) p)
                          false diff pinned log_enabled)).
  { intros p Hp. destruct (decide (p = path)) as [->|Hne].
    - by apply fetch_file_kept_same.
    - assert (Hin : p ∈ sync_targets (fst parsed) (snd parsed)).
      { rewrite Hsplit. apply elem_of_app. right. by right. }
      assert (Hin' : path ∈ sync_targets (fst parsed) (snd parsed)).
      { rewrite Hsplit. apply elem_of_app. right. by left. }
      destruct (targets_not_own env _ _ _ _ Hin' Hin Hne) as [H1 H2].
      by apply fetch_file_kept_other. }
  pose proof (for_each_respects_in (kept _ _) after _ Hbody _ _ _ Hafter) as H23.
  assert (H3 : kept (Path.join (OHMYZSH_DIR env) path) (File content m) w3 w').
  { apply kept_same_files.
    - by apply (log_same_files _ _ _ _ _ _ Hrun).
    - revert Hrun. by apply log_extends. }
  assert (Hkept : kept (Path.join (OHMYZSH_DIR env) path) (File content m) w2 w')
    by (by etransitivity).
  by destruct (Hkept Hf) as [H _].
Qed.


(** With a failing server [fetch_file] changes no regular file and moves
    nothing. *)
Lemma fetch_file_failure_quiet (path dest : str) (dry_run diff log_enabled : bool)
    (e : str) (w w' : World) (r : result unit) :
  urlopen env (REPO_RAW ++ u "/" ++ path) = inl e ->
  fetch_file env path dest dry_run diff pinned log_enabled w = (r, w') ->
  files w' = files w ∧ extends (fun ev => ¬ moves_file ev) w w'.
Proof.
  intros Hurl Hrun.
  assert (Hlog : forall msg w0 r0 w0', log env msg log_enabled w0 = (r0, w0') ->
            files w0' = files w0 ∧ extends (fun ev => ¬ moves_file ev) w0 w0').
  { intros msg w0 r0 w0' E. split; [by apply (log_same_files _ _ _ _ _ _ E)|].
    revert E. apply log_extends; intros t; simpl; tauto. }
  unfold fetch_file in Hrun. cbv zeta in Hrun.
  destruct (bool_decide (resolve env dest ∈ pinned)); [by eapply Hlog|].
  unfold bind at 1 in Hrun.
  destruct (makedirs (Path.dirname dest) w) as [rm w1] eqn:Hm.
  pose proof (makedirs_grew _ _ _ _ Hm) as Hg.
  assert (H1 : files w1 = files w ∧ extends (fun ev => ¬ moves_file ev) w w1).
  { split; [by destruct Hg|]. apply grew_extends; [|done]. intros d; simpl; tauto. }
  destruct rm as [[]|em]; [|by injection Hrun as <- <-].
  assert (H2 : files w' = files w1 ∧ extends (fun ev => ¬ moves_file ev) w1 w').
  { destruct dry_run; [by eapply Hlog|].
    unfold bind at 1 in Hrun. rewrite urlopen_read_run, Hurl in Hrun.
    apply Hlog in Hrun as [Hf (evs & Ht & Hall)]. split; [done|].
    exists (UrlOpen (REPO_RAW ++ u "/" ++ path) :: evs). cbn [trace] in Ht.
    split; [by rewrite Ht, <- app_assoc|]. constructor; [simpl; tauto|done]. }
  destruct H1 as [F1 E1], H2 as [F2 E2]. split; [congruence|by etransitivity].
Qed.

End SyncRun.

(** X13. A sync run stays with its targets: every request goes to the
    repository URL of one of the remote paths of the run (the eight fixed
    ones, one per declared plugin, one for the theme), every write and
    every move is on the destination of one of them under the installation
    directory, and nothing is copied or has its mode changed. *)
Theorem sync_stays_with_its_targets
    (env : Env) (pinned : gset (list N)) (zshrc : str)
    (dry_run diff log_enabled : bool) (w w' : World) (r : result unit)
    (parsed : list str * option str) :
  fst (parse_zshrc zshrc w) = Ok parsed ->
  sync_plugins_and_theme env zshrc dry_run diff pinned log_enabled w = (r, w') ->
  exists evs,
    trace w' = trace w ++ evs
    ∧ (forall url, UrlOpen url ∈ evs ->
         exists p, p ∈ sync_targets (fst parsed) (snd parsed)
                   ∧ url = REPO_RAW ++ u "/" ++ p)
    ∧ (forall q c, WriteBytes q c ∈ evs ->
         exists p, p ∈ sync_targets (fst parsed) (snd parsed)
                   ∧ q = Path.join (OHMYZSH_DIR env) p)
    ∧ (forall q x, Rename q x ∈ evs ->
         exists p, p ∈ sync_targets (fst parsed) (snd parsed)
                   ∧ q = Path.join (OHMYZSH_DIR env) p)
    ∧ (forall e, e ∈ evs -> match e with
                            | CopyFile _ _ | Chmod _ _ => False
                            | _ => True
                            end).
Proof.
  intros Hparse Hrun.
  destruct (sync_target_events env pinned _ _ _ _ _ _ _ _ Hparse Hrun) as (evs & Ht & Hall).
  exists evs. split; [done|]. rewrite Forall_forall in Hall.
  split; [|split; [|split]].
  - intros url Hin. destruct (Hall _ Hin) as (p & Hp & _ & _ & ->). by exists p.
  - intros q c Hin. destruct (Hall _ Hin) as (p & Hp & _ & _ & ->). by exists p.
  - intros q x Hin. destruct (Hall _ Hin) as (p & Hp & _ & _ & ->). by exists p.
  - intros e Hin. destruct (Hall _ Hin) as (p & Hp & He). by destruct e.
Qed.

Lemma sync_stays_with_its_targets_witness :
  exists evs,
    trace (snd (sync_plugins_and_theme (demo_env []) (u "/home/me/.zshrc")
                  false false ∅ true fresh_world))
    = trace fresh_world ++ evs.
Proof.
  destruct (sync_stays_with_its_targets (demo_env []) ∅ (u "/home/me/.zshrc")
              false false true fresh_world
              (snd (sync_plugins_and_theme (demo_env []) (u "/home/me/.zshrc")
                      false false ∅ true fresh_world))
              (fst (sync_plugins_and_theme (demo_env []) (u "/home/me/.zshrc")
                      false false ∅ true fresh_world))
              ([u "git"; u "docker"], Some (u "robbyrussell")))
    as (evs & Ht & _).
  - by vm_compute.
  - apply surjective_pairing.
  - by exists evs.
Defined.

(** X14. What a sync run leaves behind: when a real run whose remote
    paths are in normal form returns normally, every remote path of the run
    that is not pinned and that the server delivers has its destination
    holding exactly the delivered bytes, also when the declarations name the
    same plugin several times. *)
Theorem sync_installs_every_delivered_target
    (env : Env) (pinned : gset (list N)) (zshrc path : str)
    (diff log_enabled : bool) (w w' : World)
    (parsed : list str * option str) (content : bytes) :
  fst (parse_zshrc zshrc w) = Ok parsed ->
  normal_targets parsed = true ->
  path ∈ sync_targets (fst parsed) (snd parsed) ->
  resolve env (Path.join (OHMYZSH_DIR env) path) ∉ pinned ->
  urlopen env (REPO_RAW ++ u "/" ++ path) = inr content ->
  sync_plugins_and_theme env zshrc false diff pinned log_enabled w = (Ok tt, w') ->
  exists m, files w' !! Path.join (OHMYZSH_DIR env) path = Some (File content m).
Proof. intros Hparse _. by apply sync_ok_holds. Qed.

Lemma sync_installs_every_delivered_target_witness :
  let w' := snd (sync_plugins_and_theme core_server (u "/home/me/.zshrc")
                   false false ∅ true fresh_world) in
  exists m, files w' !! Path.join (OHMYZSH_DIR core_server) (u "oh-my-zsh.sh")
            = Some (File (b "# new core") m).
Proof.
  intros w'.
  apply (sync_installs_every_delivered_target core_server ∅ (u "/home/me/.zshrc")
           (u "oh-my-zsh.sh") false true fresh_world w'
           ([u "git"; u "docker"], Some (u "robbyrussell")) (b "# new core")).
  - by vm_compute.
  - reflexivity.
  - by left.
  - apply not_elem_of_empty.
  - reflexivity.
  - assert (Hok : fst (sync_plugins_and_theme core_server (u "/home/me/.zshrc")
                         false false ∅ true fresh_world) = Ok tt) by (by vm_compute).
    rewrite <- Hok. apply surjective_pairing.
Defined.

(** ** Files the program leaves alone *)

Section Keeps.

Variables (env : Env) (pinned : gset (list N)).

Global Instance keeps_preorder (q : str) : PreOrder (keeps q).
Proof. split; [by intros w|]. unfold keeps. intros w1 w2 w3 H1 H2. congruence. Qed.





(** [os.path.join] puts a relative second part after the first, with one
    separator between them when the first needs it. *)
Lemma join_rel (a x : str) :
  Py.startswith [Path.sep] x = false -> Path.join a x = Path.join a [] ++ x.
Proof.
  intros H. unfold Path.join. rewrite H. change (Py.startswith [Path.sep] []) with false.
  cbv iota. destruct (_ || _); by rewrite ?app_nil_r, <- ?app_assoc.
Qed.

Lemma join_snoc (a x : str) (c : char) :
  c ≠ Path.sep -> Py.startswith [Path.sep] x = false ->
  Path.join (a ++ [c]) x = a ++ [c] ++ [Path.sep] ++ x.
Proof.
  intros Hc Hx. unfold Path.join. rewrite Hx.
  assert (Hne : match a ++ [c] with [] => true | _ => false end = false)
    by (by destruct a).
  assert (Hend : Py.endswith [Path.sep] (a ++ [c]) = false).
  { unfold Py.endswith. rewrite rev_app_distr. cbn [rev app Py.startswith].
    destruct (Path.sep =? c) eqn:E; [|done]. apply N.eqb_eq in E. congruence. }
  rewrite Hne, Hend. cbn [orb]. by rewrite <- !app_assoc.
Qed.


Lemma OHMYZSH_DIR_from_home :
  OHMYZSH_DIR env = Path.join (HOME env) [] ++ u ".oh-my-zsh".
Proof. by apply join_rel. Qed.

Lemma OMZMINI_DIR_from_home :
  OMZMINI_DIR env = Path.join (HOME env) [] ++ u ".config/omzmini".
Proof.
  unfold OMZMINI_DIR. rewrite (join_rel (HOME env)) by done.
  change (u ".config") with (u ".confi" ++ [103]). rewrite app_assoc.
  rewrite join_snoc by done. by rewrite <- !app_assoc.
Qed.



Lemma dest_from_home (p : str) :
  Py.startswith [Path.sep] p = false ->
  Path.join (OHMYZSH_DIR env) p = Path.join (HOME env) [] ++ u ".oh-my-zsh/" ++ p.
Proof.
  intros Hp. rewrite OHMYZSH_DIR_from_home.
  change (u ".oh-my-zsh") with (u ".oh-my-zs" ++ [104]). rewrite app_assoc.
  rewrite join_snoc by done. by rewrite <- !app_assoc.
Qed.











End Keeps.





(** ** The module level *)

Section ModuleLevel.

Variable env : Env.

Lemma makedirs_split_tail (p s : str) (c : char) :
  Path.sep ∉ c :: s ->
  snd (makedirs_split (p ++ c :: s)) = snd (Path.rsplit_sep p) ++ c :: s.
Proof.
  intros Hs. unfold makedirs_split, Path.split. rewrite rsplit_sep_app by done.
  destruct (Path.rsplit_sep p) as [h t]. cbn [fst snd].
  by destruct t.
Qed.

Lemma long_tail_not_dot (t s : str) : (2 <= length s)%nat -> t ++ s ≠ u ".".
Proof.
  intros Hl H. apply (f_equal length) in H. rewrite length_app in H. simpl in H. lia.
Qed.

Lemma LOG_DIR_tail : snd (makedirs_split (LOG_DIR env)) ≠ u ".".
Proof.
  unfold LOG_DIR. rewrite dest_from_home by done. rewrite !app_assoc.
  change (u "log") with (108 :: u "og").
  rewrite makedirs_split_tail by (by apply not_in_literal).
  apply long_tail_not_dot. simpl. lia.
Qed.

Lemma OMZMINI_DIR_tail : snd (makedirs_split (OMZMINI_DIR env)) ≠ u ".".
Proof.
  rewrite OMZMINI_DIR_from_home.
  change (u ".config/omzmini") with (u ".config/" ++ 111 :: u "mzmini").
  rewrite app_assoc.
  rewrite makedirs_split_tail by (by apply not_in_literal).
  apply long_tail_not_dot. simpl. lia.
Qed.

End ModuleLevel.

(** X16. The module level: when the two [os.makedirs] calls the script
    runs at load time return, the log directory and the configuration
    directory exist, no regular file has changed and nothing but directory
    creation has happened; and when both directories are already there,
    loading the module changes nothing. *)
Theorem module_init_makes_directories (env : Env) (w : World) :
  (forall w', module_init env w = (Ok tt, w') ->
     isdir w' (LOG_DIR env) = true ∧ isdir w' (OMZMINI_DIR env) = true
     ∧ files w' = files w
     ∧ exists ds, trace w' = trace w ++ map Mkdir ds)
  ∧ (dirs_closed w -> LOG_DIR env ∈ dirs w -> OMZMINI_DIR env ∈ dirs w ->
     module_init env w = (Ok tt, w)).
Proof.
  split.
  - intros w' Hrun. unfold module_init, bind in Hrun.
    destruct (makedirs (LOG_DIR env) w) as [[[]|e] w1] eqn:H1; [|done].
    pose proof (makedirs_grew _ _ _ _ H1) as G1.
    pose proof (makedirs_grew _ _ _ _ Hrun) as G2.
    split; [|split; [|split]].
    + eapply grew_isdir; [exact G2|]. eapply makedirs_isdir; [apply LOG_DIR_tail|done].
    + eapply makedirs_isdir; [apply OMZMINI_DIR_tail|done].
    + destruct G1 as (F1 & _), G2 as (F2 & _). congruence.
    + destruct G1 as (_ & _ & ds1 & T1 & _), G2 as (_ & _ & ds2 & T2 & _).
      exists (ds1 ++ ds2). by rewrite T2, T1, map_app, <- app_assoc.
  - intros Hc Hl Ho. unfold module_init, bind.
    by rewrite !makedirs_existing.
Qed.

Lemma module_init_makes_directories_witness :
  module_init (demo_env []) (demo_world []) = (Ok tt, demo_world []).
Proof.
  apply (proj2 (module_init_makes_directories (demo_env []) (demo_world []))).
  - apply demo_dirs_closed.
  - apply (bool_decide_eq_true_1 (_ ∈ _)). reflexivity.
  - apply (bool_decide_eq_true_1 (_ ∈ _)). reflexivity.
Defined.

(** ** More on self-upgrade *)

(** X17. Self-upgrade without an installed tool: when no file stands at
    the tool's path, a real upgrade raises at the backup copy, before any
    request, write or log line; and [main] called with [--upgrade] raises
    with it, so that a [--sync] on the same command line does not run. *)
Theorem upgrade_self_without_tool_raises
    (env : Env) (pinned : gset (list N)) (args : Args) (w : World) :
  let tool := Path.join (OMZMINI_DIR env) (u "omzmini.py") in
  let w1 := MkWorld (files w) (dirs w) (S (ticks w)) (trace w) in
  files w !! tool = None ->
  isdir w tool = false ->
  arg_upgrade args = true -> arg_dry_run args = false ->
  load_pinned env (arg_pin args) w = (Ok pinned, w) ->
  upgrade_self env false pinned w = (Raise (missing w tool), w1)
  ∧ main env args w = (Raise (missing w tool), w1).
Proof.
  intros tool w1 Hf Hd Hup Hdry Hload.
  assert (Hu : upgrade_self env false pinned w = (Raise (missing w tool), w1)).
  { unfold upgrade_self. cbv zeta. fold tool. unfold bind at 1, now. fold w1.
    unfold bind at 1, shutil_copy2. cbv zeta.
    change (files w1) with (files w). rewrite Hf.
    change (isdir w1 tool) with (isdir w tool). by rewrite Hd. }
  split; [done|].
  unfold main. unfold bind at 1. rewrite Hload. cbv zeta.
  rewrite Hup, Hdry. unfold when. unfold bind at 1. by rewrite Hu.
Qed.

Lemma upgrade_self_without_tool_raises_witness :
  fst (main (demo_env []) (MkArgs true true false false false false false None)
            (demo_world []))
  = Raise (FileNotFoundError (u "/home/me/.config/omzmini/omzmini.py")).
Proof.
  destruct (upgrade_self_without_tool_raises (demo_env []) ∅
              (MkArgs true true false false false false false None) (demo_world []))
    as [_ H].
  - reflexivity.
  - reflexivity.
  - reflexivity.
  - reflexivity.
  - reflexivity.
  - by rewrite H.
Defined.

(** X18. A failed download does not stop a self-upgrade: when the request
    for the tool fails, the failure notice is logged, the tool keeps its
    bytes, its mode is set to [0o755] all the same, the backup copy made
    before stays, and the run ends with the notice that the tool was
    upgraded. *)
Theorem upgrade_self_reports_success_after_failed_fetch
    (env : Env) (pinned : gset (list N)) (w : World) (f : file) (e : str) :
  let tool := Path.join (OMZMINI_DIR env) (u "omzmini.py") in
  let url := REPO_RAW ++ u "/" ++ u "omzmini.py" in
  let bak := tool ++ u ".bak." ++ strftime_stamp (clock env (ticks w)) in
  files w !! tool = Some f ->
  isdir w bak = false ->
  dirs_closed w ->
  Path.dirname tool ∈ dirs w ->
  resolve env tool ∉ pinned ->
  urlopen env url = inl e ->
  exists w',
    upgrade_self env false pinned w = (Ok tt, w')
    ∧ files w' = <[tool := File (data f) 493]> (<[bak := f]> (files w))
    ∧ dirs w' = dirs w
    ∧ trace w'
      = trace w ++ [CopyFile tool bak; UrlOpen url;
                    Print (u "[" ++ strftime_log (clock env (S (ticks w))) ++ u "] "
                           ++ msg_failed url e);
                    LogAppend (u "[" ++ strftime_log (clock env (S (ticks w))) ++ u "] "
                               ++ msg_failed url e ++ [10]);
                    Chmod tool 493;
                    Print (u "[" ++ strftime_log (clock env (S (S (ticks w)))) ++ u "] "
                           ++ [0x2705] ++ u " omzmini upgraded. Backup: " ++ bak);
                    LogAppend (u "[" ++ strftime_log (clock env (S (S (ticks w)))) ++ u "] "
                               ++ [0x2705] ++ u " omzmini upgraded. Backup: " ++ bak
                               ++ [10])].
Proof.
  intros tool url bak Hf Hnb Hc Hdir Hp Hurl.
  set (copied := MkWorld (<[bak := f]> (files w)) (dirs w) (S (ticks w))
                         (trace w ++ [CopyFile tool bak])).
  assert (Hne : tool ≠ bak).
  { unfold bak. intros H. apply (f_equal length) in H.
    rewrite !length_app in H. simpl in H. lia. }
  assert (Hcopy : shutil_copy2 tool bak (MkWorld (files w) (dirs w) (S (ticks w)) (trace w))
                  = (Ok tt, copied)).
  { rewrite (shutil_copy2_run tool bak _ f); [done|exact Hf|exact Hnb|exact Hne|].
    apply parent_ok_of_dir. unfold bak. cbn [dirs].
    by rewrite dirname_app by apply bak_suffix_no_sep. }
  assert (Hfetch := fetch_file_transport_failure env pinned (u "omzmini.py") tool
                      false true copied copied e Hp
                      (makedirs_existing copied _ Hc Hdir) Hurl).
  eexists. split.
  { unfold upgrade_self. cbv zeta. fold tool. unfold bind at 1, now. fold bak.
    unfold bind at 1. rewrite Hcopy.
    unfold bind at 1. rewrite Hfetch.
    unfold bind at 1. unfold chmod at 1. cbn [files logged copied].
    rewrite lookup_insert_ne by (intros H; by apply Hne).
    rewrite Hf. rewrite log_run. reflexivity. }
  unfold logged, log_line, copied. cbn [files dirs ticks trace].
  split; [done|]. split; [done|]. fold url. by rewrite <- !app_assoc.
Qed.

Lemma upgrade_self_reports_success_after_failed_fetch_witness :
  fst (upgrade_self (demo_env []) false ∅ tool_world) = Ok tt.
Proof.
  destruct (upgrade_self_reports_success_after_failed_fetch (demo_env []) ∅ tool_world
              (File (b "# old tool") 420) (u "HTTP Error 404: Not Found"))
    as (w' & H & _).
  - reflexivity.
  - reflexivity.
  - apply demo_dirs_closed.
  - apply (bool_decide_eq_true_1 (_ ∈ _)). reflexivity.
  - apply not_elem_of_empty.
  - reflexivity.
  - by rewrite H.
Defined.

(** ** More on [main] *)

(** X19. A pin file that does not decode stops every invocation that
    passes no pin path: [main] raises the decoding error before any action,
    whatever the other flags, and nothing is printed, logged or changed.
    With pin paths on the command line the pin file is not read at all. *)
Theorem main_with_undecodable_pin_file_raises
    (env : Env) (args : Args) (w : World) (f : file) (e : exn)
    (p : str) (ps : list str) :
  files w !! PIN_FILE env = Some f ->
  Utf8.decode (data f) = Raise e ->
  (arg_pin args = None ∨ arg_pin args = Some [] -> main env args w = (Raise e, w))
  ∧ load_pinned env (Some (p :: ps)) w
    = (Ok (list_to_set (map (resolve env) (p :: ps))), w).
Proof.
  intros Hf Hdec. split; [|done].
  intros Hpin. unfold main. unfold bind at 1.
  assert (Hload : load_pinned env (arg_pin args) w = (Raise e, w)).
  { assert (Hex : path_exists w (PIN_FILE env) = true) by (by eapply path_exists_file).
    destruct Hpin as [-> | ->];
      unfold load_pinned, bind, read_text, bind, open_rb, lift; by rewrite Hex, Hf, Hdec. }
  by rewrite Hload.
Qed.

Lemma main_with_undecodable_pin_file_raises_witness :
  main (demo_env []) (MkArgs true false false false true false false None)
       (demo_world [(PIN_FILE (demo_env []), [x2f; xe9; x0a])])
  = (Raise UnicodeDecodeError,
     demo_world [(PIN_FILE (demo_env []), [x2f; xe9; x0a])]).
Proof.
  destruct (main_with_undecodable_pin_file_raises (demo_env [])
              (MkArgs true false false false true false false None)
              (demo_world [(PIN_FILE (demo_env []), [x2f; xe9; x0a])])
              (File [x2f; xe9; x0a] 420) UnicodeDecodeError [] []) as [H _].
  - reflexivity.
  - reflexivity.
  - apply H. by left.
Defined.

(** ** Log lines *)

(** X20. Every line of [log] has the same head: an opening bracket, a
    time stamp of nineteen characters for a date a running clock can show
    (four digits, two, two, two, two and two, separated as in
    [2024-05-17 09:30:00]), a closing bracket and a blank, then the
    message.  The line is printed, and appended to the audit log followed by
    a newline exactly when logging is enabled; the call reads the clock
    once and changes no file and no directory. *)
Theorem log_line_has_fixed_head
    (env : Env) (msg : str) (log_enabled : bool) (w : World) :
  valid_datetime (clock env (ticks w)) ->
  exists Y Mo D Hh Mi Ss : str,
    let ts := Y ++ u "-" ++ Mo ++ u "-" ++ D ++ u " " ++ Hh ++ u ":" ++ Mi ++ u ":" ++ Ss in
    Forall (fun part => Forall is_digit part) [Y; Mo; D; Hh; Mi; Ss]
    ∧ map length [Y; Mo; D; Hh; Mi; Ss] = [4; 2; 2; 2; 2; 2]%nat
    ∧ length ts = 19%nat
    ∧ log env msg log_enabled w
      = (Ok tt,
         MkWorld (files w) (dirs w) (S (ticks w))
                 (trace w ++ Print (u "[" ++ ts ++ u "] " ++ msg)
                    :: if log_enabled
                       then [LogAppend (u "[" ++ ts ++ u "] " ++ msg ++ [10])]
                       else [])).
Proof.
  intros (Hy & Hmo & Hd & Hh & Hmi & Hs).
  set (d := clock env (ticks w)) in *.
  exists (fmt_Y d), (fmt_2 (month d)), (fmt_2 (day d)), (fmt_2 (hour d)),
         (fmt_2 (minute d)), (fmt_2 (second d)).
  cbv zeta. split; [|split; [|split]].
  - repeat (apply Forall_cons_2; [first [apply fmt_Y_digits|apply fmt_2_digits]|]).
    apply Forall_nil_2.
  - cbn [map]. rewrite fmt_Y_length by done. by rewrite !fmt_2_length by lia.
  - rewrite !length_app, fmt_Y_length by done. by rewrite !fmt_2_length by lia.
  - rewrite log_run. unfold logged, log_line, strftime_log. fold d.
    by rewrite <- !app_assoc.
Qed.

Lemma log_line_has_fixed_head_witness :
  exists Y Mo D Hh Mi Ss : str,
    fst (log (demo_env []) (u "hello") false (demo_world [])) = Ok tt
    ∧ map length [Y; Mo; D; Hh; Mi; Ss] = [4; 2; 2; 2; 2; 2]%nat.
Proof.
  destruct (log_line_has_fixed_head (demo_env []) (u "hello") false (demo_world []))
    as (Y & Mo & D & Hh & Mi & Ss & _ & Hl & _ & Hrun).
  - unfold valid_datetime. simpl. lia.
  - exists Y, Mo, D, Hh, Mi, Ss. split; [by rewrite Hrun|exact Hl].
Defined.

Section SecondRun.

Variables (env : Env) (pinned : gset (list N)).

Global Instance settled_preorder (w0 : World) : PreOrder (settled w0).
Proof.
  split.
  - intros w Hw. split; [done|reflexivity].
  - intros w1 w2 w3 H12 H23 Hw. destruct (H12 Hw) as [F2 E2].
    destruct (H23 F2) as [F3 E3]. split; [done|by etransitivity].
Qed.

Lemma settled_same_files (w0 w w' : World) :
  files w' = files w -> extends (fun e => ¬ moves_file e) w w' -> settled w0 w w'.
Proof. intros Hf He Hw. split; [congruence|done]. Qed.

End SecondRun.

(** X21. Sync is idempotent on declarations whose remote paths are in
    normal form: after a real sync run that returned normally, a second run
    with the same declarations, pin set and server, in any mode, changes no
    regular file and moves or copies nothing; in particular it makes no
    backup. *)
Theorem sync_second_run_changes_nothing
    (env : Env) (pinned : gset (list N)) (zshrc : str)
    (diff log_enabled dry_run' diff' log_enabled' : bool)
    (w w1 w2 : World) (r : result unit) (parsed : list str * option str) :
  fst (parse_zshrc zshrc w) = Ok parsed ->
  fst (parse_zshrc zshrc w1) = Ok parsed ->
  normal_targets parsed = true ->
  sync_plugins_and_theme env zshrc false diff pinned log_enabled w = (Ok tt, w1) ->
  sync_plugins_and_theme env zshrc dry_run' diff' pinned log_enabled' w1 = (r, w2) ->
  files w2 = files w1
  ∧ exists evs, trace w2 = trace w1 ++ evs ∧ Forall (fun e => ¬ moves_file e) evs.
Proof.
  intros Hp Hp1 _ Hrun1 Hrun2.
  assert (Hbody : forall p, p ∈ sync_targets (fst parsed) (snd parsed) ->
            respects (settled w1)
              (fetch_file env p (Path.join (OHMYZSH_DIR env) p)
                          dry_run' diff' pinned log_enabled')).
  { intros p Hin wa ra wb E Hwa.
    assert (Hgoal : files wb = files wa ∧ extends (fun e => ¬ moves_file e) wa wb).
    2:{ destruct Hgoal as [F Ex]. split; [congruence|done]. }
    destruct (decide (resolve env (Path.join (OHMYZSH_DIR env) p) ∈ pinned)) as [Hpin|Hpin].
    { rewrite fetch_file_pinned in E by done. injection E as <- <-. split; [done|].
      eexists. split; [reflexivity|].
      destruct log_enabled'; repeat constructor; simpl; tauto. }
    destruct (urlopen env (REPO_RAW ++ u "/" ++ p)) as [e|content] eqn:Hurl.
    { by eapply fetch_file_failure_quiet. }
    destruct (sync_ok_holds env pinned _ _ _ _ _ _ _ _ Hp Hin Hpin Hurl Hrun1) as [m Hf].
    rewrite <- Hwa in Hf.
    exact (fetch_file_up_to_date env pinned _ _ _ _ _ _ _ (File content m) _ Hf Hurl E). }
  assert (Hs : settled w1 w1 w2).
  { rewrite sync_flat in Hrun2. unfold bind at 1 in Hrun2.
    rewrite parse_zshrc_run, Hp1 in Hrun2. revert Hrun2.
    apply (respects_bind (settled w1)).
    - by apply for_each_respects_in; [apply _|].
    - intros [] wa ra wb E. apply settled_same_files.
      + by apply (log_same_files _ _ _ _ _ _ E).
      + revert E. apply log_extends; intros t; simpl; tauto. }
  exact (Hs eq_refl).
Qed.

Lemma sync_second_run_changes_nothing_witness :
  let w1 := snd (sync_plugins_and_theme core_server (u "/home/me/.zshrc")
                   false false ∅ true fresh_world) in
  files (snd (sync_plugins_and_theme core_server (u "/home/me/.zshrc")
                false true ∅ true w1))
  = files w1.
Proof.
  intros w1.
  refine (proj1 (sync_second_run_changes_nothing core_server ∅ (u "/home/me/.zshrc")
                   false true false true true fresh_world w1
                   (snd (sync_plugins_and_theme core_server (u "/home/me/.zshrc")
                           false true ∅ true w1))
                   (fst (sync_plugins_and_theme core_server (u "/home/me/.zshrc")
                           false true ∅ true w1))
                   ([u "git"; u "docker"], Some (u "robbyrussell")) _ _ _ _ _)).
  - by vm_compute.
  - by vm_compute.
  - reflexivity.
  - assert (Hok : fst (sync_plugins_and_theme core_server (u "/home/me/.zshrc")
                         false false ∅ true fresh_world) = Ok tt) by (by vm_compute).
    rewrite <- Hok. apply surjective_pairing.
  - apply surjective_pairing.
Defined.

(** ** Requests and paths of a run that returns *)

Section Returned.

Variables (env : Env) (pinned : gset (list N)).

Lemma no_requests_filter (evs : list event) :
  Forall (fun e => is_request e = false) evs -> List.filter is_request evs = [].
Proof.
  induction evs as [|e evs IH]; intros H; [done|].
  inversion H as [|? ? He Hevs]; subst. cbn [List.filter]. rewrite He. by apply IH.
Qed.

(** A step whose events are no requests adds nothing to the requests. *)
Lemma extends_no_request (w w' : World) :
  extends (fun e => is_request e = false) w w' ->
  exists evs, trace w' = trace w ++ evs ∧ List.filter is_request evs = [].
Proof. intros (evs & Ht & Hall). exists evs. split; [done|by apply no_requests_filter]. Qed.

(** A real call that returns has sent one request, for its path, unless
    the destination is pinned. *)
Lemma fetch_file_requests (path dest : str) (diff log_enabled : bool) (w w' : World) :
  fetch_file env path dest false diff pinned log_enabled w = (Ok tt, w') ->
  exists evs,
    trace w' = trace w ++ evs
    ∧ List.filter is_request evs
      = if bool_decide (resolve env dest ∈ pinned) then []
        else [UrlOpen (REPO_RAW ++ u "/" ++ path)].
Proof.
  intros Hrun. set (P := fun e => is_request e = false).
  assert (Hlog : forall msg, respects (extends P) (log env msg log_enabled))
    by (intros msg; by apply log_extends).
  unfold fetch_file in Hrun. cbv zeta in Hrun.
  destruct (bool_decide (resolve env dest ∈ pinned)).
  { by apply extends_no_request, (Hlog _ _ _ _ Hrun). }
  unfold bind at 1 in Hrun.
  destruct (makedirs (Path.dirname dest) w) as [[[]|e] w1] eqn:Hm; [|done].
  destruct (makedirs_grew _ _ _ _ Hm) as (_ & _ & ds & Ht1 & _).
  unfold bind at 1 in Hrun. rewrite urlopen_read_run in Hrun.
  assert (Hrest : extends P (MkWorld (files w1) (dirs w1) (ticks w1)
                               (trace w1 ++ [UrlOpen (REPO_RAW ++ u "/" ++ path)])) w').
  { destruct (urlopen env _) as [e|content]; [by apply (Hlog _ _ _ _ Hrun)|].
    revert Hrun. apply (respects_bind (extends P)).
    { apply respects_bind; [apply _|apply respects_unchanged, query_unchanged; apply _|].
      intros [|]; [|apply respects_ret, _].
      apply respects_bind; [apply _|apply respects_unchanged, sha256_unchanged; apply _|].
      intros old_hash. cbv zeta. destruct (bool_decide _); [|apply respects_ret, _].
      apply respects_bind; [apply _| |intros []].
      { destruct diff; [by apply show_diff_extends|apply respects_ret, _]. }
      apply respects_bind; [apply _|apply now_extends|]. intros ts. cbv zeta.
      apply respects_bind; [apply _|by apply shutil_move_extends|]. intros [].
      apply Hlog. }
    intros [].
    apply respects_bind; [apply _|by apply write_bytes_extends|]. intros [].
    apply respects_bind; [apply _|apply Hlog|]. intros [].
    apply respects_bind; [apply _|apply respects_unchanged, sha256_unchanged; apply _|].
    intros h. by apply emit_extends. }
  destruct Hrest as (evs & Ht & Hall). cbn [trace] in Ht.
  exists (map Mkdir ds ++ UrlOpen (REPO_RAW ++ u "/" ++ path) :: evs). split.
  - by rewrite Ht, Ht1, <- !app_assoc.
  - rewrite List.filter_app. cbn [List.filter is_request].
    rewrite (no_requests_filter evs Hall), no_requests_filter; [done|].
    apply Forall_forall. intros e He. apply list_elem_of_In, in_map_iff in He.
    by destruct He as (d & <- & _).
Qed.

Lemma for_each_requests (targets : list str) (diff log_enabled : bool) (w w' : World) :
  for_each targets (fun p => fetch_file env p (Path.join (OHMYZSH_DIR env) p)
                                        false diff pinned log_enabled) w = (Ok tt, w') ->
  exists evs, trace w' = trace w ++ evs
              ∧ List.filter is_request evs = requested env pinned targets.
Proof.
  revert w. induction targets as [|p targets IH]; intros w; cbn [for_each].
  - intros [= <-]. exists []. by rewrite app_nil_r.
  - unfold bind at 1.
    destruct (fetch_file env p _ false diff pinned log_enabled w) as [[[]|e] w1] eqn:Hf;
      [|done].
    intros Hrest. destruct (fetch_file_requests _ _ _ _ _ _ Hf) as (evs1 & Ht1 & Hr1).
    destruct (IH _ Hrest) as (evs2 & Ht2 & Hr2).
    exists (evs1 ++ evs2). split; [by rewrite Ht2, Ht1, <- app_assoc|].
    rewrite List.filter_app, Hr1, Hr2. unfold requested. cbn [List.filter].
    by destruct (bool_decide _).
Qed.

Global Instance no_path_lost_preorder : PreOrder no_path_lost.
Proof. split; [by intros w q|]. intros w1 w2 w3 H12 H23 q Hq. by apply H23, H12. Qed.

Lemma same_files_no_path_lost (w w' : World) : files w' = files w -> no_path_lost w w'.
Proof. intros H q. by rewrite H. Qed.

Lemma rename_file_lost (src dst : str) (w w' : World) (r : result unit) :
  rename_file src dst w = (r, w') ->
  forall q, q ≠ src -> is_Some (files w !! q) -> is_Some (files w' !! q).
Proof.
  unfold rename_file. intros E q Hq Hsome.
  destruct (files w !! src); [|by injection E as <- <-].
  destruct (isdir w dst); [by injection E as <- <-|].
  destruct (_ || _); injection E as <- <-; [|done]. cbn [files].
  destruct (decide (q = dst)) as [->|Hne]; [by rewrite lookup_insert_eq|].
  rewrite lookup_insert_ne by done. by rewrite lookup_delete_ne.
Qed.

Lemma shutil_move_lost (src dst : str) (w w' : World) (r : result unit) :
  shutil_move src dst w = (r, w') ->
  forall q, q ≠ src -> is_Some (files w !! q) -> is_Some (files w' !! q).
Proof.
  unfold shutil_move. intros E. destruct (isdir w dst); [|by eapply rename_file_lost].
  destruct (path_exists w _); [by injection E as <- <-|]. by eapply rename_file_lost.
Qed.

(** A call of [fetch_file] that returns leaves a regular file at every
    path that held one. *)
Lemma fetch_file_no_path_lost (path dest : str) (dry_run diff log_enabled : bool)
    (w w' : World) :
  fetch_file env path dest dry_run diff pinned log_enabled w = (Ok tt, w') ->
  no_path_lost w w'.
Proof.
  intros Hrun.
  assert (Hlog : forall msg w0 r0 w0', log env msg log_enabled w0 = (r0, w0') ->
            no_path_lost w0 w0').
  { intros msg w0 r0 w0' E. apply same_files_no_path_lost.
    by apply (log_same_files _ _ _ _ _ _ E). }
  unfold fetch_file in Hrun. cbv zeta in Hrun.
  destruct (bool_decide (resolve env dest ∈ pinned)); [by eapply Hlog|].
  unfold bind at 1 in Hrun.
  destruct (makedirs (Path.dirname dest) w) as [[[]|e] w1] eqn:Hm; [|done].
  destruct (makedirs_grew _ _ _ _ Hm) as (Hf1 & _).
  transitivity w1; [by apply same_files_no_path_lost|].
  destruct dry_run; [by eapply Hlog|].
  unfold bind at 1 in Hrun. rewrite urlopen_read_run in Hrun.
  destruct (urlopen env _) as [e|content].
  { intros q Hq. by apply (Hlog _ _ _ _ Hrun q). }
  unfold bind at 1 in Hrun.
  match type of Hrun with
  | match ?pre ?w0 with _ => _ end = _ => destruct (pre w0) as [[[]|e] w2] eqn:Hpre; [|done]
  end.
  apply fetch_file_tail in Hrun as (m & Hfiles & _ & _).
  intros q Hq. rewrite Hfiles.
  destruct (decide (q = dest)) as [->|Hne]; [by rewrite lookup_insert_eq|].
  rewrite lookup_insert_ne by done.
  set (w0 := MkWorld (files w1) (dirs w1) (ticks w1)
                     (trace w1 ++ [UrlOpen (REPO_RAW ++ u "/" ++ path)])) in *.
  assert (Hq0 : is_Some (files w0 !! q)) by exact Hq.
  clearbody w0. clear Hq. rename Hq0 into Hq.
  unfold bind at 1 in Hpre. cbv beta iota in Hpre.
  destruct (path_exists w0 dest); [|by injection Hpre as <-].
  unfold bind at 1 in Hpre.
  destruct (sha256 dest w0) as [[old|e] w3] eqn:Hs; [|done].
  rewrite (sha256_unchanged _ _ _ _ Hs) in *.
  destruct (bool_decide _); [|by injection Hpre as <-].
  unfold bind at 1 in Hpre.
  assert (Hsd : respects same_files
                  (if diff then show_diff env dest content else ret tt)).
  { destruct diff; [|apply respects_ret, _]. unfold show_diff.
    apply respects_bind; [apply _|apply respects_unchanged, read_text_unchanged; apply _|].
    intros text. cbv zeta. destruct (nonempty _); [apply emit_same_files|apply respects_ret, _]. }
  destruct ((if diff then show_diff env dest content else ret tt) w0)
    as [[[]|e] w4] eqn:Hd; [|done].
  assert (Hq4 : is_Some (files w4 !! q)) by (by rewrite (Hsd _ _ _ Hd)).
  unfold bind at 1 in Hpre. unfold now at 1 in Hpre.
  unfold bind at 1 in Hpre.
  match type of Hpre with
  | match shutil_move ?a ?c ?w5 with _ => _ end = _ =>
      destruct (shutil_move a c w5) as [[[]|e] w6] eqn:Hmv; [|done]
  end.
  pose proof (shutil_move_lost _ _ _ _ _ Hmv q Hne Hq4) as Hq6.
  by rewrite (log_same_files _ _ _ _ _ _ Hpre).
Qed.

Lemma for_each_no_path_lost (targets : list str) (dry_run diff log_enabled : bool)
    (w w' : World) :
  for_each targets (fun p => fetch_file env p (Path.join (OHMYZSH_DIR env) p)
                                        dry_run diff pinned log_enabled) w = (Ok tt, w') ->
  no_path_lost w w'.
Proof.
  revert w. induction targets as [|p targets IH]; intros w; cbn [for_each].
  - by intros [= <-].
  - unfold bind at 1.
    destruct (fetch_file env p _ dry_run diff pinned log_enabled w) as [[[]|e] w1] eqn:Hf;
      [|done].
    intros Hrest. transitivity w1; [by eapply fetch_file_no_path_lost|by apply IH].
Qed.

End Returned.

(** X22. A real sync run that returns normally has sent one request for
    each remote path of the run whose destination is not pinned, and no
    other: the requests of the run, in order, are those of the core script,
    the library files, the tools, the declared plugins in the order of their
    declaration, and the theme. *)
Theorem sync_requests_each_target_once
    (env : Env) (pinned : gset (list N)) (zshrc : str) (diff log_enabled : bool)
    (w w' : World) (parsed : list str * option str) :
  fst (parse_zshrc zshrc w) = Ok parsed ->
  sync_plugins_and_theme env zshrc false diff pinned log_enabled w = (Ok tt, w') ->
  exists evs,
    trace w' = trace w ++ evs
    ∧ List.filter is_request evs
      = requested env pinned (sync_targets (fst parsed) (snd parsed)).
Proof.
  intros Hparse Hrun. rewrite sync_flat in Hrun. unfold bind at 1 in Hrun.
  rewrite parse_zshrc_run, Hparse in Hrun. unfold bind at 1 in Hrun.
  destruct (for_each _ _ w) as [[[]|e] w1] eqn:Hloop; [|done].
  destruct (for_each_requests env pinned _ _ _ _ _ Hloop) as (evs & Ht & Hr).
  rewrite log_run in Hrun. injection Hrun as <-.
  eexists. split.
  - unfold logged. cbn [trace]. rewrite Ht, <- app_assoc. reflexivity.
  - rewrite List.filter_app, Hr. cbn [List.filter is_request].
    destruct log_enabled; cbn [List.filter is_request]; by rewrite app_nil_r.
Qed.

Lemma sync_requests_each_target_once_witness :
  exists evs,
    trace (snd (sync_plugins_and_theme core_server (u "/home/me/.zshrc")
                  false false core_pinned true (demo_world [])))
    = trace (demo_world []) ++ evs
    ∧ List.filter is_request evs
      = map (fun p => UrlOpen (REPO_RAW ++ u "/" ++ p)) (LIB_FILES ++ TOOLS_FILES).
Proof.
  destruct (sync_requests_each_target_once core_server core_pinned (u "/home/me/.zshrc")
              false true (demo_world [])
              (snd (sync_plugins_and_theme core_server (u "/home/me/.zshrc")
                      false false core_pinned true (demo_world [])))
              ([], None)) as (evs & Ht & Hr).
  - reflexivity.
  - assert (Hok : fst (sync_plugins_and_theme core_server (u "/home/me/.zshrc")
                         false false core_pinned true (demo_world [])) = Ok tt)
      by (by vm_compute).
    rewrite <- Hok. apply surjective_pairing.
  - exists evs. split; [exact Ht|]. rewrite Hr. by vm_compute.
Defined.

(** X23. No path is lost: after a call of [fetch_file] or a sync run that
    returns normally, in any mode, every path that held a regular file
    still holds a regular file.  Its bytes may be other ones: a destination
    is rewritten, and a file that stands at a backup name is overwritten by
    the move. *)
Theorem sync_loses_no_path
    (env : Env) (pinned : gset (list N)) (zshrc path dest : str)
    (dry_run diff log_enabled : bool) (w w1 w2 : World) :
  (fetch_file env path dest dry_run diff pinned log_enabled w = (Ok tt, w1) ->
   forall q, is_Some (files w !! q) -> is_Some (files w1 !! q))
  ∧ (sync_plugins_and_theme env zshrc dry_run diff pinned log_enabled w = (Ok tt, w2) ->
     forall q, is_Some (files w !! q) -> is_Some (files w2 !! q)).
Proof.
  split.
  - apply fetch_file_no_path_lost.
  - intros Hrun. rewrite sync_flat in Hrun. unfold bind at 1 in Hrun.
    rewrite parse_zshrc_run in Hrun.
    destruct (fst (parse_zshrc zshrc w)) as [parsed|e]; [|done].
    unfold bind at 1 in Hrun.
    destruct (for_each _ _ w) as [[[]|e] w3] eqn:Hloop; [|done].
    pose proof (for_each_no_path_lost env pinned _ _ _ _ _ _ Hloop) as H13.
    intros q Hq. rewrite (log_same_files _ _ _ _ _ _ Hrun). by apply H13.
Qed.

Lemma sync_loses_no_path_witness :
  let dest := u "/home/me/.oh-my-zsh/oh-my-zsh.sh" in
  let w := demo_world [(dest, b "# old core")] in
  is_Some (files (snd (sync_plugins_and_theme core_server (u "/home/me/.zshrc")
                         false false ∅ true w)) !! dest).
Proof.
  intros dest w.
  refine (proj2 (sync_loses_no_path core_server ∅ (u "/home/me/.zshrc") dest dest
                   false false true w w
                   (snd (sync_plugins_and_theme core_server (u "/home/me/.zshrc")
                           false false ∅ true w))) _ dest _).
  - assert (Hok : fst (sync_plugins_and_theme core_server (u "/home/me/.zshrc")
                         false false ∅ true w) = Ok tt) by (by vm_compute).
    rewrite <- Hok. apply surjective_pairing.
  - by eexists.
Defined.

(** ** What a dry run prints *)

Section DryRunOutput.

Variables (env : Env) (pinned : gset (list N)).

Lemma printed_app (l1 l2 : list event) : printed (l1 ++ l2) = printed l1 ++ printed l2.
Proof. apply omap_app. Qed.

Lemma printed_mkdirs (ds : list str) : printed (map Mkdir ds) = [].
Proof. induction ds as [|d ds IH]; [done|]. exact IH. Qed.

Lemma logged_printed (msg : str) (log_enabled : bool) (w : World) :
  ticks (logged env msg log_enabled w) = S (ticks w)
  ∧ exists evs, trace (logged env msg log_enabled w) = trace w ++ evs
                ∧ printed evs = [stamped env (ticks w) msg].
Proof.
  split; [done|]. eexists. split; [reflexivity|]. by destruct log_enabled.
Qed.

Lemma fetch_file_dry_run_printed (p : str) (diff log_enabled : bool) (w w' : World) :
  fetch_file env p (Path.join (OHMYZSH_DIR env) p) true diff pinned log_enabled w
  = (Ok tt, w') ->
  ticks w' = S (ticks w)
  ∧ exists evs, trace w' = trace w ++ evs
                ∧ printed evs = [stamped env (ticks w) (dry_run_notice env pinned p)].
Proof.
  unfold dry_run_notice. cbv zeta.
  destruct (bool_decide (resolve env _ ∈ pinned)) eqn:Hp.
  - apply bool_decide_eq_true_1 in Hp. rewrite fetch_file_pinned by done.
    intros [= <-]. apply logged_printed.
  - apply bool_decide_eq_false_1 in Hp. intros Hrun.
    destruct (makedirs (Path.dirname (Path.join (OHMYZSH_DIR env) p)) w)
      as [[[]|e] w1] eqn:Hm.
    + rewrite (fetch_file_dry_run env pinned _ _ _ _ w w1 Hp Hm) in Hrun.
      injection Hrun as <-.
      destruct (makedirs_grew _ _ _ _ Hm) as (_ & Hticks & ds & Ht & _).
      destruct (logged_printed (msg_dry_run (REPO_RAW ++ u "/" ++ p)
                                  (Path.join (OHMYZSH_DIR env) p)) log_enabled w1)
        as (Hs & evs & Hte & Hpr).
      split; [rewrite <- Hticks; exact Hs|].
      exists (map Mkdir ds ++ evs). split; [rewrite app_assoc, <- Ht; exact Hte|].
      by rewrite printed_app, printed_mkdirs, Hpr, Hticks.
    + unfold fetch_file in Hrun. cbv zeta in Hrun.
      rewrite bool_decide_eq_false_2 in Hrun by done.
      unfold bind at 1 in Hrun. by rewrite Hm in Hrun.
Qed.

Lemma for_each_dry_run_printed (targets : list str) (diff log_enabled : bool)
    (w w' : World) :
  for_each targets (fun p => fetch_file env p (Path.join (OHMYZSH_DIR env) p)
                                        true diff pinned log_enabled) w = (Ok tt, w') ->
  ticks w' = (ticks w + length targets)%nat
  ∧ exists evs,
      trace w' = trace w ++ evs
      ∧ printed evs = imap (fun k m => stamped env (ticks w + k) m)
                           (map (dry_run_notice env pinned) targets).
Proof.
  revert w. induction targets as [|p targets IH]; intros w; cbn [for_each].
  - intros [= <-]. split; [simpl; lia|]. exists []. by rewrite app_nil_r.
  - unfold bind at 1.
    destruct (fetch_file env p _ true diff pinned log_enabled w) as [[[]|e] w1] eqn:Hf;
      [|done].
    intros Hrest.
    destruct (fetch_file_dry_run_printed _ _ _ _ _ Hf) as (Ht1 & evs1 & He1 & Hp1).
    destruct (IH _ Hrest) as (Ht2 & evs2 & He2 & Hp2).
    split; [rewrite Ht2, Ht1; simpl; lia|].
    exists (evs1 ++ evs2). split; [by rewrite He2, He1, <- app_assoc|].
    rewrite printed_app, Hp1, Hp2. cbn [map imap app]. f_equal.
    + by rewrite Nat.add_0_r.
    + apply imap_ext. intros k m _. simpl. rewrite Ht1. f_equal. lia.
Qed.

End DryRunOutput.

(** X24. A dry run previews every target: when a dry sync run returns
    normally, the lines it prints are, in the order of the run, one notice
    for each remote path (the preview notice with the URL and the
    destination, or the skip notice when the destination is pinned) and
    then the completion notice, each with the time stamp of its own clock
    reading; nothing else is printed. *)
Theorem dry_run_previews_every_target
    (env : Env) (pinned : gset (list N)) (zshrc : str) (diff log_enabled : bool)
    (w w' : World) (parsed : list str * option str) :
  fst (parse_zshrc zshrc w) = Ok parsed ->
  sync_plugins_and_theme env zshrc true diff pinned log_enabled w = (Ok tt, w') ->
  exists evs,
    trace w' = trace w ++ evs
    ∧ printed evs
      = imap (fun k m => stamped env (ticks w + k) m)
             (map (dry_run_notice env pinned) (sync_targets (fst parsed) (snd parsed))
              ++ [[0x2705] ++ u " Sync complete"]).
Proof.
  intros Hparse Hrun. rewrite sync_flat in Hrun. unfold bind at 1 in Hrun.
  rewrite parse_zshrc_run, Hparse in Hrun. unfold bind at 1 in Hrun.
  destruct (for_each _ _ w) as [[[]|e] w1] eqn:Hloop; [|done].
  destruct (for_each_dry_run_printed env pinned _ _ _ _ _ Hloop) as (Ht & evs & He & Hp).
  rewrite log_run in Hrun. injection Hrun as <-.
  destruct (logged_printed env ([0x2705] ++ u " Sync complete") log_enabled w1)
    as (_ & evs2 & He2 & Hp2).
  exists (evs ++ evs2). split; [rewrite app_assoc, <- He; exact He2|].
  rewrite printed_app, Hp, Hp2, imap_app. f_equal.
  cbn [imap]. by rewrite Nat.add_0_r, length_map, Ht.
Qed.

Lemma dry_run_previews_every_target_witness :
  exists evs,
    trace (snd (sync_plugins_and_theme (demo_env []) (u "/home/me/.zshrc")
                  true false core_pinned true fresh_world))
    = trace fresh_world ++ evs
    ∧ length (printed evs) = 12%nat.
Proof.
  destruct (dry_run_previews_every_target (demo_env []) core_pinned (u "/home/me/.zshrc")
              false true fresh_world
              (snd (sync_plugins_and_theme (demo_env []) (u "/home/me/.zshrc")
                      true false core_pinned true fresh_world))
              ([u "git"; u "docker"], Some (u "robbyrussell"))) as (evs & Ht & Hp).
  - by vm_compute.
  - assert (Hok : fst (sync_plugins_and_theme (demo_env []) (u "/home/me/.zshrc")
                         true false core_pinned true fresh_world) = Ok tt)
      by (by vm_compute).
    rewrite <- Hok. apply surjective_pairing.
  - exists evs. split; [exact Ht|]. rewrite Hp. by rewrite length_imap.
Defined.
